(** * yamldocs: layout and flow-resolution engine

    A shallow embedding of the backend-agnostic parts of the yamldocs
    generators (text wrapping, footer resolution, field placement, HTML
    escaping of the cover page) together with the properties stated about
    them in the design specification, and of their neighbours in the code
    (colour parsing, per-page footer variables, icon loading, the cells of
    the revision table) with further properties the code shows.

    Conventions of the embedding:
    - a JavaScript [string] is a [String.string]; [s.length] is [String.length];
    - a JavaScript [number] holding a coordinate or a size is an IEEE 754
      binary64 value, i.e. a primitive [float]; page numbers and array
      indices are integers in [Z];
    - [undefined] for an optional property is [None];
    - truthiness of a string is non-emptiness. *)

From Stdlib Require Import List String Ascii ZArith Lia Bool.
From Stdlib Require Import Floats Uint63 DecimalString.
Import ListNotations.

Local Open Scope string_scope.
Local Open Scope list_scope.

(** String concatenation, written apart from list concatenation. *)
Infix "+++" := String.append (right associativity, at level 60).

(** ** JavaScript primitives used by the generators *)

Module Js.

(** [!!s] for a string. *)
Definition truthy (s : string) : bool :=
  match s with
  | EmptyString => false
  | String _ _ => true
  end.

(** [!!o] for an optional string property ([undefined] is falsy). *)
Definition truthy_opt (o : option string) : bool :=
  match o with
  | None => false
  | Some s => truthy s
  end.

(** [o ?? d] *)
Definition nullish {A : Type} (o : option A) (d : A) : A :=
  match o with
  | None => d
  | Some a => a
  end.

(** The number whose value is the natural [n] (a string length; the
    conversion is exact below 2^53, beyond any string length). *)
Definition num_of_nat (n : nat) : float :=
  PrimFloat.of_uint63 (Uint63.of_Z (Z.of_nat n)).

(** [a > b] on numbers: false as soon as one side is NaN. *)
Definition gt (a b : float) : bool := PrimFloat.ltb b a.

Definition space : ascii := " "%char.

(** [s.split(' ')]: never returns the empty array; [''.split(' ')] is
    [['']], and consecutive separators produce empty pieces. *)
Fixpoint split_space (s : string) : list string :=
  match s with
  | EmptyString => [EmptyString]
  | String c rest =>
      if Ascii.eqb c space then EmptyString :: split_space rest
      else match split_space rest with
           | w :: ws => String c w :: ws
           | [] => [String c EmptyString]
           end
  end.

(** [xs.join(sep)] *)
Fixpoint join (sep : string) (xs : list string) : string :=
  match xs with
  | [] => EmptyString
  | [x] => x
  | x :: rest => x +++ sep +++ join sep rest
  end.

(** Does the character [c] occur in [s]? *)
Fixpoint has_char (c : ascii) (s : string) : bool :=
  match s with
  | EmptyString => false
  | String d rest => Ascii.eqb d c || has_char c rest
  end.

End Js.

(** ** Further primitives: numbers as text, substrings, [parseInt] *)

Module JsText.

(** [Number.isSafeInteger(n)] for an integer [n]: its magnitude is below
    2^53. Such an integer is a number exactly. *)
Definition isSafeInteger (n : Z) : bool := (Z.abs n <? 2 ^ 53)%Z.

(** [String(n)] for a safe integer [n] (a page number): its decimal
    digits, after a minus sign when negative. Beyond the safe integers a
    number is no longer the integer written, and from 10^21 on [String]
    switches to the exponent notation: the statements about
    [resolvePageVariables] keep to the safe integers. *)
Definition String_ (n : Z) : string := NilZero.string_of_int (Z.to_int n).

(** The clamping of an index to [0 .. len]. *)
Definition clamp (len : nat) (i : Z) : nat :=
  Z.to_nat (Z.min (Z.max i 0) (Z.of_nat len)).

(** [s.substring(start, end)] for integral indices: both are clamped to
    [0 .. s.length] and swapped when [start] exceeds [end]. *)
Definition substring (s : string) (start end_ : Z) : string :=
  let len := String.length s in
  let from := Nat.min (clamp len start) (clamp len end_) in
  let to := Nat.max (clamp len start) (clamp len end_) in
  String.substring from (to - from) s.

(** White space as [parseInt] skips it, among the code units below 256:
    tab, line feed, vertical tab, form feed, carriage return, space and the
    no-break space. *)
Definition is_StrWhiteSpaceChar (c : ascii) : bool :=
  let n := N_of_ascii c in
  ((9 <=? n) && (n <=? 13) || (n =? 32) || (n =? 160))%N.

Fixpoint trim_start (s : string) : string :=
  match s with
  | EmptyString => EmptyString
  | String c rest => if is_StrWhiteSpaceChar c then trim_start rest else s
  end.

(** The value of a hexadecimal digit. *)
Definition hex_digit (c : ascii) : option Z :=
  let n := Z.of_N (N_of_ascii c) in
  if ((48 <=? n) && (n <=? 57))%Z then Some (n - 48)%Z
  else if ((97 <=? n) && (n <=? 102))%Z then Some (n - 87)%Z
  else if ((65 <=? n) && (n <=? 70))%Z then Some (n - 55)%Z
  else None.

(** The value of the longest prefix of [s] made of hexadecimal digits,
    continued from [acc]; [None] when no digit has been read. *)
Fixpoint hex_prefix (s : string) (acc : Z) (seen : bool) : option Z :=
  match s with
  | EmptyString => if seen then Some acc else None
  | String c rest =>
      match hex_digit c with
      | Some d => hex_prefix rest (16 * acc + d)%Z true
      | None => if seen then Some acc else None
      end
  end.

(** The number nearest to the integer [n] (ties to even), negated when
    [negative]; zero keeps the sign. *)
Definition number_of_int (negative : bool) (n : Z) : float :=
  SF2Prim (binary_normalize prec emax (if negative then - n else n)%Z 0 negative).

(** [parseInt(s, 16)]: leading white space is skipped, then a sign, then a
    [0x] or [0X] prefix; the longest run of hexadecimal digits that follows
    is the value, and the result is [NaN] when there is none. *)
Definition parseInt16 (s : string) : float :=
  let s1 := trim_start s in
  let negative := match s1 with String "-" _ => true | _ => false end in
  let s2 :=
    match s1 with
    | String "-" rest => rest
    | String "+" rest => rest
    | _ => s1
    end in
  let s3 :=
    match s2 with
    | String "0" (String "x" rest) => rest
    | String "0" (String "X" rest) => rest
    | _ => s2
    end in
  match hex_prefix s3 0%Z false with
  | Some n => number_of_int negative n
  | None => nan
  end.

End JsText.

(** ** Text measurement and wrapping (generators/pdf/utils.ts) *)

Module Wrap.
Import Js.

(** [estimateTextWidth]: [text.length * fontSize * 0.5]. *)
Definition estimateTextWidth (text : string) (fontSize : float) : float :=
  PrimFloat.mul (PrimFloat.mul (num_of_nat (String.length text)) fontSize) 0.5%float.

(** One iteration of the [for (const word of words)] loop of [wrapText];
    the loop state is the pair [(lines, currentLine)]. *)
Definition wrap_step (maxWidth fontSize : float)
    (st : list string * string) (word : string) : list string * string :=
  let (lines, currentLine) := st in
  let testLine := if truthy currentLine then currentLine +++ " " +++ word else word in
  let testWidth := estimateTextWidth testLine fontSize in
  if gt testWidth maxWidth && truthy currentLine
  then (lines ++ [currentLine], word)
  else (lines, testLine).

Definition wrap_loop (maxWidth fontSize : float)
    (words : list string) (st : list string * string) : list string * string :=
  fold_left (wrap_step maxWidth fontSize) words st.

(** [wrapText(text, maxWidth, fontSize)] *)
Definition wrapText (text : string) (maxWidth fontSize : float) : list string :=
  let words := split_space text in
  let (lines, currentLine) := wrap_loop maxWidth fontSize words ([], EmptyString) in
  if truthy currentLine then lines ++ [currentLine] else lines.

End Wrap.

(** ** Colours (generators/pdf/utils.ts) *)

(** The colour [rgb] of pdf-lib returns: its three components. *)
Module RGB.
Record t := {
  red : float;
  green : float;
  blue : float
}.
End RGB.

Module Color.
Import JsText.

(** The range assertion of pdf-lib on a colour component: the value must
    be a number, which [NaN] is not taken for, and must lie between 0 and 1;
    [false] stands for the error the assertion throws. *)
Definition assertRange (value : float) : bool :=
  negb (PrimFloat.is_nan value)
  && negb (PrimFloat.ltb value 0%float || PrimFloat.ltb 1%float value).

(** [rgb(red, green, blue)] of pdf-lib, which is not among the sources:
    it asserts the range of each component and returns the colour of the
    three; [None] stands for the error thrown when an assertion fails. *)
Definition rgb (red green blue : float) : option RGB.t :=
  if assertRange red && assertRange green && assertRange blue
  then Some {| RGB.red := red; RGB.green := green; RGB.blue := blue |}
  else None.

(** [hex.replace(/^#/, '')]: one leading hash sign is removed. *)
Definition strip_hash (hex : string) : string :=
  match hex with
  | String "#" rest => rest
  | _ => hex
  end.

(** [hexToRgb(hex)]; [None] when [rgb] throws. *)
Definition hexToRgb (hex : string) : option RGB.t :=
  let cleanHex := strip_hash hex in
  let r := PrimFloat.div (parseInt16 (substring cleanHex 0 2)) 255%float in
  let g := PrimFloat.div (parseInt16 (substring cleanHex 2 4)) 255%float in
  let b := PrimFloat.div (parseInt16 (substring cleanHex 4 6)) 255%float in
  rgb r g b.
End Color.


(** ** Schema types

    Modelled from the spec: the type declarations of [types/schema.ts] and
    [types/stylesheet.ts] are not among the sources. The records below have
    the properties the specification's data model lists and the generators
    read; every optional property is an [option]. Each record lives in a
    module of its own, so that properties keep their source names
    ([FooterConfig.left], [ResolvedFooter.left], ...). *)

Module FormMetadata.
Record t := {
  title : string;
  version : option string;
  author : option string;
  pages : option Z;
  stylesheet : option string
}.
End FormMetadata.

Module FooterSocialLinks.
Record t := {
  youtube : option string;
  x : option string;
  facebook : option string;
  linkedin : option string;
  github : option string;
  website : option string
}.

(** The object literal [{}]. *)
Definition empty : t :=
  {| youtube := None; x := None; facebook := None;
     linkedin := None; github := None; website := None |}.

Definition count (o : option string) : nat :=
  match o with Some _ => 1 | None => 0 end.

(** [Object.keys(links).length] *)
Definition keys_length (l : t) : nat :=
  count (youtube l) + count (x l) + count (facebook l)
  + count (linkedin l) + count (github l) + count (website l).
End FooterSocialLinks.

Module FooterSeparator.
Record t := {
  enabled : option bool;
  color : option string;
  thickness : option float
}.
End FooterSeparator.

Module FooterConfig.
Record t := {
  enabled : option bool;
  left : option string;
  center : option string;
  right : option string;
  text : option string;
  copyright : option string;
  showPageNumbers : option bool;
  showVersion : option bool;
  showDate : option bool;
  separator : option FooterSeparator.t;
  socialLinks : option FooterSocialLinks.t
}.
End FooterConfig.

Module ResolvedFooterSeparator.
Record t := {
  enabled : bool;
  color : string;
  thickness : float
}.
End ResolvedFooterSeparator.

Module ResolvedFooter.
Record t := {
  enabled : bool;
  left : string;
  center : string;
  right : string;
  separator : ResolvedFooterSeparator.t;
  socialLinks : FooterSocialLinks.t
}.
End ResolvedFooter.

(** ** Footer resolution (generators/footer-utils.ts) *)

Module Footer.
Import Js.

(** [!!b] for an optional boolean flag. *)
Definition flag (o : option bool) : bool :=
  match o with
  | Some true => true
  | _ => false
  end.

(** [s.substring(n)] *)
Fixpoint drop (n : nat) (s : string) : string :=
  match n, s with
  | O, _ => s
  | S k, String _ rest => drop k rest
  | S _, EmptyString => EmptyString
  end.

(** The expansion of a replacement string for one match of a pattern
    without capture groups (ECMAScript GetSubstitution): [$$] is a dollar
    sign, [$&] the matched text, [$`] the text before the match, [$'] the
    text after it; every other character, a dollar sign before anything else
    included, stands for itself. *)
Fixpoint get_substitution (matched before after template : string) : string :=
  match template with
  | EmptyString => EmptyString
  | String c t =>
      if Ascii.eqb c "$" then
        match t with
        | EmptyString => String c EmptyString
        | String d t' =>
            if Ascii.eqb d "$" then String "$" (get_substitution matched before after t')
            else if Ascii.eqb d "&" then matched +++ get_substitution matched before after t'
            else if Ascii.eqb d "`" then before +++ get_substitution matched before after t'
            else if Ascii.eqb d "'" then after +++ get_substitution matched before after t'
            else String c (get_substitution matched before after t)
        end
      else String c (get_substitution matched before after t)
  end.

(** The scan of [str.replace(/pat/g, rep)] for a literal non-empty [pat]:
    [before] is the part of the subject already passed, [skip] the number of
    characters of the current match still to pass over. *)
Fixpoint replace_scan (pat rep before : string) (skip : nat) (s : string) : string :=
  match s with
  | EmptyString => EmptyString
  | String c rest =>
      match skip with
      | S k => replace_scan pat rep (before +++ String c EmptyString) k rest
      | O =>
          if String.prefix pat s then
            get_substitution pat before (drop (String.length pat) s) rep
            +++ replace_scan pat rep (before +++ String c EmptyString)
                  (String.length pat - 1) rest
          else
            String c (replace_scan pat rep (before +++ String c EmptyString) O rest)
      end
  end.

(** [s.replace(/pat/g, rep)] *)
Definition replace_all (pat rep s : string) : string :=
  replace_scan pat rep EmptyString O s.

(** The three text slots of a footer. *)
Inductive Slot : Type := slot_left | slot_center | slot_right.

(** The clock of a run: [resolveFooterConfig] resolves its three slots one
    after the other, and each resolution of a non-empty slot evaluates
    [new Date().toLocaleDateString()] afresh; [clock s] is the string the
    clock gives when slot [s] is resolved. *)
Definition Clock : Type := Slot -> string.

(** [resolveStaticVariables(text, form)]; [today] is the value of
    [new Date().toLocaleDateString()] when the call is made. *)
Definition resolveStaticVariables (today : string) (text : string)
    (form : FormMetadata.t) : string :=
  if negb (truthy text) then text
  else
    (* [form.title ?? ''] is [form.title], a required string *)
    replace_all "{{date}}" today
      (replace_all "{{author}}" (nullish (FormMetadata.author form) "")
        (replace_all "{{version}}" (nullish (FormMetadata.version form) "")
          (replace_all "{{title}}" (FormMetadata.title form) text))).

Definition default_separator : ResolvedFooterSeparator.t :=
  {| ResolvedFooterSeparator.enabled := false;
     ResolvedFooterSeparator.color := "#cccccc";
     ResolvedFooterSeparator.thickness := 0.5%float |}.

(** [if (src.k) socialLinks.k = src.k] *)
Definition keep_link (o : option string) : option string :=
  if truthy_opt o then o else None.

(** The filtering of the social links: only non-empty URLs are copied. *)
Definition filter_links (src : option FooterSocialLinks.t) : FooterSocialLinks.t :=
  match src with
  | None => FooterSocialLinks.empty
  | Some l =>
      {| FooterSocialLinks.youtube := keep_link (FooterSocialLinks.youtube l);
         FooterSocialLinks.x := keep_link (FooterSocialLinks.x l);
         FooterSocialLinks.facebook := keep_link (FooterSocialLinks.facebook l);
         FooterSocialLinks.linkedin := keep_link (FooterSocialLinks.linkedin l);
         FooterSocialLinks.github := keep_link (FooterSocialLinks.github l);
         FooterSocialLinks.website := keep_link (FooterSocialLinks.website l) |}
  end.

(** The three slots after the shorthands have been applied and before the
    static variables are resolved (the [let left/center/right] block). *)
Definition seed_slots (footer : FooterConfig.t) (form : FormMetadata.t)
    : string * string * string :=
  let left := nullish (FooterConfig.left footer) "" in
  let center := nullish (FooterConfig.center footer) "" in
  let right := nullish (FooterConfig.right footer) "" in
  (* Shorthand: text -> center *)
  let center :=
    if truthy_opt (FooterConfig.text footer) && negb (truthy center)
    then nullish (FooterConfig.text footer) "" else center in
  (* Shorthand: copyright -> left *)
  let left :=
    if truthy_opt (FooterConfig.copyright footer) && negb (truthy left)
    then nullish (FooterConfig.copyright footer) "" else left in
  (* Shorthand: showPageNumbers -> right *)
  let right :=
    if flag (FooterConfig.showPageNumbers footer) && negb (truthy right)
    then "Page {{page}} of {{pages}}" else right in
  (* Shorthand: showVersion -> append to center *)
  let center :=
    if flag (FooterConfig.showVersion footer) && truthy_opt (FormMetadata.version form)
    then
      let versionText := "Version " +++ nullish (FormMetadata.version form) "" in
      if truthy center then center +++ " - " +++ versionText else versionText
    else center in
  (* Shorthand: showDate *)
  if flag (FooterConfig.showDate footer) then
    let dateText := "{{date}}" in
    if negb (truthy left) && negb (truthy_opt (FooterConfig.copyright footer)) then
      (dateText, center, right)
    else if negb (truthy right) && negb (flag (FooterConfig.showPageNumbers footer)) then
      (left, center, dateText)
    else
      (left, (if truthy center then center +++ " | " +++ dateText else dateText), right)
  else (left, center, right).

(** [resolveFooterConfig(footer, form)], run against the clock [clock]. *)
Definition resolveFooterConfig (clock : Clock)
    (footer : option FooterConfig.t) (form : FormMetadata.t) : ResolvedFooter.t :=
  match footer with
  | None =>
      (* Legacy fallback: no footer config, show version if available *)
      {| ResolvedFooter.enabled := truthy_opt (FormMetadata.version form);
         ResolvedFooter.left := "";
         ResolvedFooter.center :=
           if truthy_opt (FormMetadata.version form)
           then "Version " +++ nullish (FormMetadata.version form) ""
           else "";
         ResolvedFooter.right := "";
         ResolvedFooter.separator := default_separator;
         ResolvedFooter.socialLinks := FooterSocialLinks.empty |}
  | Some footer =>
      match FooterConfig.enabled footer with
      | Some false =>
          (* Explicit disable *)
          {| ResolvedFooter.enabled := false;
             ResolvedFooter.left := "";
             ResolvedFooter.center := "";
             ResolvedFooter.right := "";
             ResolvedFooter.separator := default_separator;
             ResolvedFooter.socialLinks := FooterSocialLinks.empty |}
      | _ =>
          let '(l, c, r) := seed_slots footer form in
          (* Resolve static template variables *)
          let left := resolveStaticVariables (clock slot_left) l form in
          let center := resolveStaticVariables (clock slot_center) c form in
          let right := resolveStaticVariables (clock slot_right) r form in
          (* Filter social links to only include non-empty URLs *)
          let socialLinks := filter_links (FooterConfig.socialLinks footer) in
          let hasContent :=
            truthy left || truthy center || truthy right
            || (0 <? FooterSocialLinks.keys_length socialLinks)%nat in
          let sep := FooterConfig.separator footer in
          {| ResolvedFooter.enabled := hasContent;
             ResolvedFooter.left := left;
             ResolvedFooter.center := center;
             ResolvedFooter.right := right;
             ResolvedFooter.separator :=
               {| ResolvedFooterSeparator.enabled :=
                    nullish (match sep with
                             | Some s => FooterSeparator.enabled s
                             | None => None
                             end) false;
                  ResolvedFooterSeparator.color :=
                    nullish (match sep with
                             | Some s => FooterSeparator.color s
                             | None => None
                             end) "#cccccc";
                  ResolvedFooterSeparator.thickness :=
                    nullish (match sep with
                             | Some s => FooterSeparator.thickness s
                             | None => None
                             end) 0.5%float |};
             ResolvedFooter.socialLinks := socialLinks |}
      end
  end.

End Footer.

(** ** Per-page footer variables (generators/footer-utils.ts) *)

Module FooterPages.
Import Js JsText Footer.

(** [resolvePageVariables(text, pageNum, totalPages)], for page numbers
    that are safe integers. *)
Definition resolvePageVariables (text : string) (pageNum totalPages : Z) : string :=
  if negb (truthy text) then text
  else
    replace_all "{{pages}}" (String_ totalPages)
      (replace_all "{{page}}" (String_ pageNum) text).

End FooterPages.

Module RevisionEntry.
Record t := {
  version : string;
  date : string;
  author : string;
  description : string
}.
End RevisionEntry.

Module CoverPage.
Record t := {
  coverImage : option string;
  watermark : option string;
  logo : option string;
  subtitle : option string;
  organization : option string;
  department : option string;
  documentNumber : option string;
  documentType : option string;
  status : option string;
  classification : option string;
  date : option string;
  effectiveDate : option string;
  reviewDate : option string;
  preparedBy : option string;
  reviewedBy : option string;
  approvedBy : option string;
  revisionHistory : option (list RevisionEntry.t);
  copyright : option string;
  disclaimer : option string;
  distributionStatement : option string
}.
End CoverPage.

Module Position.
Record t := {
  x : float;
  y : float
}.
End Position.

Module NormalizedFormField.
(** [rest] stands for the type-specific attributes (name, label, options,
    ...), which the generator core carries through untouched. *)
Record t := {
  type : string;
  page : Z;
  position : Position.t;
  rest : list (string * string)
}.
End NormalizedFormField.

(** A content element is opaque to the generator core. *)
Inductive ContentElement : Type :=
| content_element (raw : string).

Module ParsedFormSchema.
Record t := {
  form : FormMetadata.t;
  coverPage : option CoverPage.t;
  footer : option FooterConfig.t;
  content : option (list ContentElement);
  fields : list NormalizedFormField.t
}.
End ParsedFormSchema.

(** ** PDF generation (generators/pdf/index.ts) *)

(** A page handle of the PDF library; handles are told apart by identity. *)
Definition PDFPage : Type := nat.

Module DrawnElement.
(** Modelled from the spec: a [DrawnElement] of [layout.ts] is the record
    [{page, x, y, width, height, label}]. *)
Record t := {
  page : Z;
  x : float;
  y : float;
  width : float;
  height : float;
  label : string
}.
End DrawnElement.

Module LayoutContext.
(** Modelled from the spec: [layout.ts] is not among the sources. The
    layout context has the ordered sequence of pages, the cursor and the
    tracked drawn elements; these are the parts [generatePdf] reads. *)
Record t := {
  pages : list PDFPage;
  cursor : Position.t;
  drawnElements : list DrawnElement.t
}.

Definition initial : t :=
  {| pages := [];
     cursor := {| Position.x := 0%float; Position.y := 0%float |};
     drawnElements := [] |}.
End LayoutContext.

Module GeneratedPdf.
Record t := {
  bytes : list Byte.byte;
  fieldCount : Z;
  pageCount : Z;
  drawnElements : list DrawnElement.t
}.
End GeneratedPdf.

Module Pdf.
Import Js.

(** The leaf drawers of [fields/index.ts]. *)
Inductive LeafOp : Type :=
| createTextField | drawFieldLabel
| createCheckboxField | drawCheckboxLabel
| createRadioGroup | drawRadioGroupLabels
| createDropdownField | drawDropdownLabel
| createTextareaField | drawTextareaLabel
| createSignatureField | drawSignatureFieldWithLabel.

(** A call that leaves [index.ts]: to the PDF library, to the stylesheet
    parser, to the layout module or to a leaf drawer, with the arguments the
    generator computes for it. [page] of a leaf call is [None] when
    [ctx.pages[pageIndex]] is [undefined]. *)
Inductive Call : Type :=
| parseStylesheet (basePath stylesheet : string)
| getDefaultStylesheet
| PDFDocument_create
| setTitle (title : string)
| setAuthor (author : string)
| setCreator (creator : string)
| setProducer (producer : string)
| setCreationDate
| initializeLayout (totalPages : Z)
| drawCoverPage (form : FormMetadata.t) (coverPage : CoverPage.t) (basePath : string)
| nextPage
| drawHeader (title : string) (pageNumber : bool) (startPage : Z)
| drawFooter (resolvedFooter : ResolvedFooter.t) (startPage : Z)
| drawSchemaContent (content : list ContentElement)
| drawTitle (title : string) (centered : bool)
| leaf (op : LeafOp) (page : option PDFPage) (field : NormalizedFormField.t)
| save.

(** The state one generation run works on: the calls made so far, the
    layout context and the console. *)
Record World : Type := {
  trace : list Call;
  ctx : LayoutContext.t;
  console : list string
}.

Definition start : World :=
  {| trace := []; ctx := LayoutContext.initial; console := [] |}.

(** A computation either returns a value or throws; the world reached is
    kept in both cases. *)
Inductive Result (A : Type) : Type :=
| Ok (a : A) (w : World)
| Thrown (w : World).
Arguments Ok {A} a w.
Arguments Thrown {A} w.

Definition M (A : Type) : Type := World -> Result A.

Definition ret {A : Type} (a : A) : M A := fun w => Ok a w.

Definition bind {A B : Type} (m : M A) (k : A -> M B) : M B :=
  fun w =>
    match m w with
    | Ok a w' => k a w'
    | Thrown w' => Thrown w'
    end.

Notation "x <- m ;; k" := (bind m (fun x => k))
  (at level 61, m at next level, right associativity).
Notation "m ;; k" := (bind m (fun _ => k))
  (at level 61, right associativity).

Definition gets {A : Type} (f : World -> A) : M A := fun w => Ok (f w) w.

(** [console.warn(msg)] *)
Definition console_warn (msg : string) : M unit :=
  fun w => Ok tt {| trace := trace w; ctx := ctx w; console := console w ++ [msg] |}.

(** [adjustFieldPosition(field, contentBaselineY)] *)
Definition adjustFieldPosition (field : NormalizedFormField.t)
    (contentBaselineY : float) : NormalizedFormField.t :=
  (* Only adjust fields on page 1 (where content is drawn) *)
  if negb (NormalizedFormField.page field =? 1)%Z then field
  else
    {| NormalizedFormField.type := NormalizedFormField.type field;
       NormalizedFormField.page := NormalizedFormField.page field;
       NormalizedFormField.position :=
         {| Position.x := Position.x (NormalizedFormField.position field);
            Position.y :=
              PrimFloat.add contentBaselineY
                (Position.y (NormalizedFormField.position field)) |};
       NormalizedFormField.rest := NormalizedFormField.rest field |}.

(** [pages[i]]: [undefined] outside [0 .. pages.length - 1]. *)
Definition page_at (pages : list PDFPage) (i : Z) : option PDFPage :=
  if (i <? 0)%Z then None else nth_error pages (Z.to_nat i).

(** [Math.min(field.page - 1 + pageOffset, ctx.pages.length - 1)] *)
Definition pageIndex (field : NormalizedFormField.t) (pageOffset : Z)
    (pages : list PDFPage) : Z :=
  Z.min (NormalizedFormField.page field - 1 + pageOffset)
        (Z.of_nat (List.length pages) - 1).

(** [const pageOffset = hasCoverPage ? 1 : 0] *)
Definition pageOffset (hasCoverPage : bool) : Z :=
  if hasCoverPage then 1%Z else 0%Z.

Section Generator.

(** What the world outside [index.ts] does with a call, given the calls
    made before it and the layout context: [None] when the call throws,
    otherwise the layout context it leaves. *)
Variable extern : list Call -> LayoutContext.t -> Call -> option LayoutContext.t.

(** The bytes [doc.save()] returns after a given history. *)
Variable serialize : list Call -> list Byte.byte.

(** The clock [resolveFooterConfig] reads during the run. *)
Variable clock : Footer.Clock.

(** A call to the layout module or to the PDF library; it may replace the
    layout context. *)
Definition external (c : Call) : M unit :=
  fun w =>
    match extern (trace w) (ctx w) c with
    | Some ctx' => Ok tt {| trace := trace w ++ [c]; ctx := ctx'; console := console w |}
    | None => Thrown {| trace := trace w ++ [c]; ctx := ctx w; console := console w |}
    end.

(** A call to a leaf drawer: it is handed the document, a page, the field
    and the stylesheet, not the layout context, which it leaves as it is. *)
Definition draw (op : LeafOp) (page : option PDFPage)
    (field : NormalizedFormField.t) : M unit :=
  fun w =>
    let c := leaf op page field in
    match extern (trace w) (ctx w) c with
    | Some _ => Ok tt {| trace := trace w ++ [c]; ctx := ctx w; console := console w |}
    | None => Thrown {| trace := trace w ++ [c]; ctx := ctx w; console := console w |}
    end.

(** The [switch (field.type)] of [addFieldToDocument], for the page it
    has looked up. *)
Definition switch_type (page : option PDFPage) (field : NormalizedFormField.t)
    (skipLabels : bool) : M unit :=
  let type := NormalizedFormField.type field in
  if (type =? "text")%string then
    draw createTextField page field ;;
    if negb skipLabels then draw drawFieldLabel page field else ret tt
  else if (type =? "checkbox")%string then
    draw createCheckboxField page field ;;
    draw drawCheckboxLabel page field
  else if (type =? "radio")%string then
    draw createRadioGroup page field ;;
    draw drawRadioGroupLabels page field
  else if (type =? "dropdown")%string then
    draw createDropdownField page field ;;
    draw drawDropdownLabel page field
  else if (type =? "textarea")%string then
    draw createTextareaField page field ;;
    if negb skipLabels then draw drawTextareaLabel page field else ret tt
  else if (type =? "signature")%string then
    draw createSignatureField page field ;;
    draw drawSignatureFieldWithLabel page field
  else
    console_warn ("Unknown field type: " +++ type).

(** [addFieldToDocument(doc, ctx, field, skipLabels, pageOffset)] *)
Definition addFieldToDocument (field : NormalizedFormField.t)
    (skipLabels : bool) (pageOffset : Z) : M unit :=
  ctx_pages <- gets (fun w => LayoutContext.pages (ctx w)) ;;
  let pageIndex := pageIndex field pageOffset ctx_pages in
  let page := page_at ctx_pages pageIndex in
  switch_type page field skipLabels.

(** The loop [for (const field of schema.fields)] of [generatePdf], started
    with the counter at [fieldCount]. *)
Fixpoint add_fields (fields : list NormalizedFormField.t) (contentBaselineY : float)
    (skipLabels : bool) (pageOffset : Z) (fieldCount : Z) : M Z :=
  match fields with
  | [] => ret fieldCount
  | field :: more =>
      let adjustedField := adjustFieldPosition field contentBaselineY in
      addFieldToDocument adjustedField skipLabels pageOffset ;;
      add_fields more contentBaselineY skipLabels pageOffset (fieldCount + 1)%Z
  end.

(** [generatePdf({schema, basePath})]. The merge of the PDF configuration
    with its defaults only feeds [initializeLayout] and is left out. *)
Definition generatePdf (schema : ParsedFormSchema.t) (basePath : string)
    : M GeneratedPdf.t :=
  let form := ParsedFormSchema.form schema in
  (* Load stylesheet - from schema path or use defaults *)
  (if truthy_opt (FormMetadata.stylesheet form)
   then external (parseStylesheet basePath (nullish (FormMetadata.stylesheet form) ""))
   else external getDefaultStylesheet) ;;
  (* Create PDF document, set document metadata *)
  external PDFDocument_create ;;
  external (setTitle (FormMetadata.title form)) ;;
  (if truthy_opt (FormMetadata.author form)
   then external (setAuthor (nullish (FormMetadata.author form) ""))
   else ret tt) ;;
  external (setCreator "yamldocs") ;;
  external (setProducer "pdf-lib") ;;
  external setCreationDate ;;
  (* Initialize layout with stylesheet *)
  let hasCoverPage :=
    match ParsedFormSchema.coverPage schema with Some _ => true | None => false end in
  let pageCount := nullish (FormMetadata.pages form) 1%Z in
  let totalPages := if hasCoverPage then (pageCount + 1)%Z else pageCount in
  external (initializeLayout totalPages) ;;
  (* Draw cover page if configured *)
  match ParsedFormSchema.coverPage schema with
  | Some coverPage =>
      external (drawCoverPage form coverPage basePath) ;;
      external nextPage
  | None => ret tt
  end ;;
  (* Draw header and footer on content pages only (skip cover page) *)
  let startPage := if hasCoverPage then 1%Z else 0%Z in
  external (drawHeader (FormMetadata.title form) true startPage) ;;
  let resolvedFooter :=
    Footer.resolveFooterConfig clock (ParsedFormSchema.footer schema) form in
  external (drawFooter resolvedFooter startPage) ;;
  (* Draw content: use schema content when available *)
  let hasSchemaContentToDraw :=
    match ParsedFormSchema.content schema with
    | Some (_ :: _) => true
    | _ => false
    end in
  (if hasSchemaContentToDraw
   then external (drawSchemaContent (nullish (ParsedFormSchema.content schema) []))
   else external (drawTitle (FormMetadata.title form) true)) ;;
  (* Add form fields - positions are relative to content baseline *)
  contentBaselineY <- gets (fun w => Position.y (LayoutContext.cursor (ctx w))) ;;
  let pageOffset := pageOffset hasCoverPage in
  fieldCount <-
    add_fields (ParsedFormSchema.fields schema) contentBaselineY
      hasSchemaContentToDraw pageOffset 0%Z ;;
  (* Serialize PDF *)
  external save ;;
  bytes <- gets (fun w => serialize (trace w)) ;;
  ctx_end <- gets ctx ;;
  ret {| GeneratedPdf.bytes := bytes;
         GeneratedPdf.fieldCount := fieldCount;
         GeneratedPdf.pageCount := Z.of_nat (List.length (LayoutContext.pages ctx_end));
         GeneratedPdf.drawnElements := LayoutContext.drawnElements ctx_end |}.

End Generator.

End Pdf.

(** ** HTML cover page (generators/html/coverpage.ts) *)

Module Html.
Import Js.

(** The double quote and the line feed, which string literals of the
    template contain. *)
Definition dq : string := String "034"%char EmptyString.
Definition nl : string := String "010"%char EmptyString.

(** The replacement table [map] of [escapeHtml]; a character other than
    the ampersand, the angle brackets and the two quotes is not matched by
    the character class and stays. *)
Definition escape_char (c : ascii) : string :=
  if Ascii.eqb c "&" then "&amp;"
  else if Ascii.eqb c "<" then "&lt;"
  else if Ascii.eqb c ">" then "&gt;"
  else if Ascii.eqb c "034" then "&quot;"
  else if Ascii.eqb c "'" then "&#039;"
  else String c EmptyString.

(** [escapeHtml(text)]: every match of the character class is replaced by
    its entry in [map] (the replacer is a function, so the entry is taken
    literally). *)
Fixpoint escapeHtml (text : string) : string :=
  match text with
  | EmptyString => EmptyString
  | String c more => escape_char c +++ escapeHtml more
  end.

(** One row of the metadata table. *)
Definition meta_row (entry : string * string) : string :=
  let (label, value) := entry in
  "<tr><td class=" +++ dq +++ "cover-meta-label" +++ dq +++ ">" +++ escapeHtml label
  +++ "</td><td class=" +++ dq +++ "cover-meta-value" +++ dq +++ ">" +++ escapeHtml value
  +++ "</td></tr>".

(** [metaFields.filter((entry) => !!entry[1])], the value unwrapped. *)
Fixpoint present (entries : list (string * option string)) : list (string * string) :=
  match entries with
  | [] => []
  | (label, Some value) :: more =>
      if truthy value then (label, value) :: present more else present more
  | (_, None) :: more => present more
  end.

(** [[a, b, c].filter(Boolean)] on optional strings. *)
Fixpoint filter_Boolean (xs : list (option string)) : list string :=
  match xs with
  | [] => []
  | Some s :: more => if truthy s then s :: filter_Boolean more else filter_Boolean more
  | None :: more => filter_Boolean more
  end.

(** One row of the revision history. *)
Definition revision_row (entry : RevisionEntry.t) : string :=
  "<tr>" +++ nl
  +++ "            <td>" +++ escapeHtml (RevisionEntry.version entry) +++ "</td>" +++ nl
  +++ "            <td>" +++ escapeHtml (RevisionEntry.date entry) +++ "</td>" +++ nl
  +++ "            <td>" +++ escapeHtml (RevisionEntry.author entry) +++ "</td>" +++ nl
  +++ "            <td>" +++ escapeHtml (RevisionEntry.description entry) +++ "</td>" +++ nl
  +++ "          </tr>".

Definition metaFields (formMeta : FormMetadata.t) (coverPage : CoverPage.t)
    : list (string * option string) :=
  [ ("Organization", CoverPage.organization coverPage);
    ("Department", CoverPage.department coverPage);
    ("Document #", CoverPage.documentNumber coverPage);
    ("Type", CoverPage.documentType coverPage);
    ("Status", CoverPage.status coverPage);
    ("Classification", CoverPage.classification coverPage);
    ("Date", CoverPage.date coverPage);
    ("Effective Date", CoverPage.effectiveDate coverPage);
    ("Review Date", CoverPage.reviewDate coverPage);
    ("Version", FormMetadata.version formMeta);
    ("Author", FormMetadata.author formMeta);
    ("Prepared By", CoverPage.preparedBy coverPage);
    ("Reviewed By", CoverPage.reviewedBy coverPage);
    ("Approved By", CoverPage.approvedBy coverPage) ].

(** The pieces [renderCoverPageHtml] computes before it assembles the
    page, one definition for each [const] of the source. *)

(** Cover image as background style *)
Definition coverImageStyle (coverPage : CoverPage.t) : string :=
  if truthy_opt (CoverPage.coverImage coverPage) then
    " style=" +++ dq +++ "background-image: url('"
    +++ escapeHtml (nullish (CoverPage.coverImage coverPage) "")
    +++ "'); background-size: cover; background-position: center; background-repeat: no-repeat;"
    +++ dq
  else "".

Definition watermarkHtml (coverPage : CoverPage.t) : string :=
  if truthy_opt (CoverPage.watermark coverPage) then
    "<div class=" +++ dq +++ "cover-watermark" +++ dq +++ ">"
    +++ escapeHtml (nullish (CoverPage.watermark coverPage) "") +++ "</div>"
  else "".

Definition logoHtml (coverPage : CoverPage.t) : string :=
  if truthy_opt (CoverPage.logo coverPage) then
    "<div class=" +++ dq +++ "cover-logo" +++ dq +++ "><img src=" +++ dq
    +++ escapeHtml (nullish (CoverPage.logo coverPage) "")
    +++ dq +++ " alt=" +++ dq +++ "Logo" +++ dq +++ " /></div>"
  else "".

Definition titleHtml (formMeta : FormMetadata.t) : string :=
  "<h1 class=" +++ dq +++ "cover-title" +++ dq +++ ">"
  +++ escapeHtml (FormMetadata.title formMeta) +++ "</h1>".

Definition subtitleHtml (coverPage : CoverPage.t) : string :=
  if truthy_opt (CoverPage.subtitle coverPage) then
    "<p class=" +++ dq +++ "cover-subtitle" +++ dq +++ ">"
    +++ escapeHtml (nullish (CoverPage.subtitle coverPage) "") +++ "</p>"
  else "".

Definition metaRows (formMeta : FormMetadata.t) (coverPage : CoverPage.t) : string :=
  join nl (map meta_row (present (metaFields formMeta coverPage))).

Definition metaHtml (formMeta : FormMetadata.t) (coverPage : CoverPage.t) : string :=
  if truthy (metaRows formMeta coverPage) then
    "<table class=" +++ dq +++ "cover-metadata" +++ dq +++ ">"
    +++ metaRows formMeta coverPage +++ "</table>"
  else "".

(** The [rows] of the revision history. *)
Definition revision_rows (history : list RevisionEntry.t) : string :=
  join nl (map revision_row history).

Definition revisionHtml (coverPage : CoverPage.t) : string :=
  match CoverPage.revisionHistory coverPage with
  | Some (first :: others) =>
      nl
      +++ "      <div class=" +++ dq +++ "cover-revision-history" +++ dq +++ ">" +++ nl
      +++ "        <h3>Revision History</h3>" +++ nl
      +++ "        <table>" +++ nl
      +++ "          <thead>" +++ nl
      +++ "            <tr>" +++ nl
      +++ "              <th>Version</th>" +++ nl
      +++ "              <th>Date</th>" +++ nl
      +++ "              <th>Author</th>" +++ nl
      +++ "              <th>Description</th>" +++ nl
      +++ "            </tr>" +++ nl
      +++ "          </thead>" +++ nl
      +++ "          <tbody>" +++ revision_rows (first :: others) +++ "</tbody>" +++ nl
      +++ "        </table>" +++ nl
      +++ "      </div>"
  | _ => ""
  end.

Definition legalFields (coverPage : CoverPage.t) : list string :=
  filter_Boolean [ CoverPage.copyright coverPage;
                   CoverPage.disclaimer coverPage;
                   CoverPage.distributionStatement coverPage ].

(** One paragraph of the legal block. *)
Definition legal_paragraph (t : string) : string :=
  "<p>" +++ escapeHtml t +++ "</p>".

Definition legalHtml (coverPage : CoverPage.t) : string :=
  match legalFields coverPage with
  | _ :: _ =>
      "<div class=" +++ dq +++ "cover-legal" +++ dq +++ ">" +++ nl
      +++ "        "
      +++ join nl (map legal_paragraph (legalFields coverPage)) +++ nl
      +++ "      </div>"
  | [] => ""
  end.

(** [renderCoverPageHtml(formMeta, coverPage)] *)
Definition renderCoverPageHtml (formMeta : FormMetadata.t) (coverPage : CoverPage.t)
    : string :=
  nl
  +++ "    <div class=" +++ dq +++ "page cover-page" +++ dq
  +++ coverImageStyle coverPage +++ ">" +++ nl
  +++ "      " +++ watermarkHtml coverPage +++ nl
  +++ "      <div class=" +++ dq +++ "cover-content" +++ dq +++ ">" +++ nl
  +++ "        " +++ logoHtml coverPage +++ nl
  +++ "        " +++ titleHtml formMeta +++ nl
  +++ "        " +++ subtitleHtml coverPage +++ nl
  +++ "        <hr class=" +++ dq +++ "cover-divider" +++ dq +++ " />" +++ nl
  +++ "        " +++ metaHtml formMeta coverPage +++ nl
  +++ "        " +++ revisionHtml coverPage +++ nl
  +++ "      </div>" +++ nl
  +++ "      " +++ legalHtml coverPage +++ nl
  +++ "    </div>".

End Html.

(** ** Social icons (the icon loading utilities of the generators) *)

Module Icons.
Import Js.

(** Supported social platform icon names *)
Definition ICON_NAMES : list string :=
  ["youtube"; "x"; "facebook"; "linkedin"; "github"; "website"].

(** [xs.includes(s)] on strings. *)
Definition includes (xs : list string) (s : string) : bool :=
  existsb (String.eqb s) xs.

Section FileSystem.

(** [resolve(__dirname, dir, name)] of the path module, for the directory
    of the running module. *)
Variable resolve : string -> string -> string.

(** [existsSync(path)] *)
Variable existsSync : string -> bool.

(** [readFile(path)]: the content, or [None] when the promise rejects. *)
Variable readFile : string -> option (list Byte.byte).

(** [buf.toString('base64')] *)
Variable base64 : list Byte.byte -> string.

Definition possiblePaths (platform : string) : list string :=
  [ resolve "../assets/icons" (platform +++ ".png");        (* Installed: dist/assets/icons/ *)
    resolve "../../src/assets/icons" (platform +++ ".png")  (* Dev: src/assets/icons/ *) ].

(** [resolveIconPath(platform)]; [null] is [None]. *)
Definition resolveIconPath (platform : string) : option string :=
  if negb (includes ICON_NAMES platform) then None
  else find existsSync (possiblePaths platform).

(** [loadSocialIconBytes(platform)] *)
Definition loadSocialIconBytes (platform : string) : option (list Byte.byte) :=
  match resolveIconPath platform with
  | None => None
  | Some iconPath =>
      if negb (truthy iconPath) then None
      else match readFile iconPath with
           | Some buf => Some buf
           | None => None
           end
  end.

(** [loadSocialIconBase64(platform)] *)
Definition loadSocialIconBase64 (platform : string) : option string :=
  match resolveIconPath platform with
  | None => None
  | Some iconPath =>
      if negb (truthy iconPath) then None
      else match readFile iconPath with
           | Some buf => Some ("data:image/png;base64," +++ base64 buf)
           | None => None
           end
  end.

End FileSystem.
End Icons.

(** ** Revision history of the PDF cover page (generators/pdf/coverpage.ts) *)

Module PdfCover.
Import JsText.

(** The text [drawRevisionHistoryTable] draws in a cell of a data row:
    [values[i].length > maxChars ? values[i].substring(0, maxChars - 2) + '..' : values[i]],
    where [maxChars] is the integer
    [Math.floor(colWidths[i] / (fontSize * 0.45))]. *)
Definition displayText (value : string) (maxChars : Z) : string :=
  if (maxChars <? Z.of_nat (String.length value))%Z
  then substring value 0 (maxChars - 2) +++ ".."
  else value.

End PdfCover.

(** * Vocabulary of the statements

    The predicates, measures and sample inputs the theorems below are
    stated with. *)

(** ** Footer resolution *)

Section FooterVocabulary.
Import Js Footer.

(** A clock that shows the same date for the whole run. *)
Definition on_day (date : string) : Clock := fun _ => date.

(** A form of version 2.0. *)
Definition form_v2 : FormMetadata.t :=
  {| FormMetadata.title := "Form"; FormMetadata.version := Some "2.0";
     FormMetadata.author := None; FormMetadata.pages := None;
     FormMetadata.stylesheet := None |}.

(** The footer configuration [{showDate: true}]. *)
Definition footer_showDate : FooterConfig.t :=
  {| FooterConfig.enabled := None; FooterConfig.left := None;
     FooterConfig.center := None; FooterConfig.right := None;
     FooterConfig.text := None; FooterConfig.copyright := None;
     FooterConfig.showPageNumbers := None; FooterConfig.showVersion := None;
     FooterConfig.showDate := Some true; FooterConfig.separator := None;
     FooterConfig.socialLinks := None |}.

(** The footer configuration
    [{left: '{{title}}', showPageNumbers: true, showVersion: true}]. *)
Definition footer_pages_and_title : FooterConfig.t :=
  {| FooterConfig.enabled := None; FooterConfig.left := Some "{{title}}";
     FooterConfig.center := None; FooterConfig.right := None;
     FooterConfig.text := None; FooterConfig.copyright := None;
     FooterConfig.showPageNumbers := Some true; FooterConfig.showVersion := Some true;
     FooterConfig.showDate := None; FooterConfig.separator := None;
     FooterConfig.socialLinks := None |}.

(** Does [pat] occur in [s]? *)
Fixpoint occurs (pat s : string) : bool :=
  String.prefix pat s
  || match s with
     | EmptyString => false
     | String _ more => occurs pat more
     end.

(** A text after the substitution of the variables taken from the form,
    before the date is substituted. *)
Definition form_variables_resolved (text : string) (form : FormMetadata.t) : string :=
  replace_all "{{author}}" (nullish (FormMetadata.author form) "")
    (replace_all "{{version}}" (nullish (FormMetadata.version form) "")
      (replace_all "{{title}}" (FormMetadata.title form) text)).

(** No date token is left to substitute in the slot [text]. *)
Definition date_free_slot (text : string) (form : FormMetadata.t) : bool :=
  negb (occurs "{{date}}" (form_variables_resolved text form)).

(** No slot of the footer has a date token to substitute: there is no
    footer configuration, or the footer is switched off, or the three seeded
    slots are free of it. *)
Definition date_free (footer : option FooterConfig.t) (form : FormMetadata.t) : bool :=
  match footer with
  | None => true
  | Some f =>
      match FooterConfig.enabled f with
      | Some false => true
      | _ =>
          let '(l, c, r) := seed_slots f form in
          date_free_slot l form && date_free_slot c form && date_free_slot r form
      end
  end.

End FooterVocabulary.

(** ** Field placement and generation runs *)

Section PdfVocabulary.
Import Js Pdf.

(** A field of the given type on the given logical page, at [(72, y)]. *)
Definition field_on (type : string) (page : Z) (y : float) : NormalizedFormField.t :=
  {| NormalizedFormField.type := type;
     NormalizedFormField.page := page;
     NormalizedFormField.position := {| Position.x := 72%float; Position.y := y |};
     NormalizedFormField.rest := [("name", "f")] |}.

(** The world a computation ends in, whether it returns or throws. *)
Definition world_of {A : Type} (r : Result A) : World :=
  match r with
  | Ok _ w => w
  | Thrown w => w
  end.

(** The world [w] after [console.warn(msg)]. *)
Definition warned (w : World) (msg : string) : World :=
  {| trace := trace w; ctx := ctx w; console := console w ++ [msg] |}.

(** The six field types [addFieldToDocument] has a case for. *)
Definition known_field_types : list string :=
  ["text"; "checkbox"; "radio"; "dropdown"; "textarea"; "signature"].

(** [m] only calls leaf drawers, all of them on [page] and [field]; it
    leaves the layout context alone, and it returns when no drawer throws. *)
Definition places
    (extern : list Call -> LayoutContext.t -> Call -> option LayoutContext.t)
    (page : option PDFPage) (field : NormalizedFormField.t) (m : M unit) : Prop :=
  forall w,
    ctx (world_of (m w)) = ctx w
    /\ (exists calls,
          trace (world_of (m w)) = trace w ++ calls
          /\ Forall (fun c => exists op, c = leaf op page field) calls)
    /\ ((forall history c, extern history (ctx w) c <> None) ->
          exists w', m w = Ok tt w').

(** Two worlds hold the same document when they differ in the console at
    most. *)
Definition same_document (w1 w2 : World) : Prop :=
  trace w1 = trace w2 /\ ctx w1 = ctx w2.

(** Two runs end alike: both return, with values related by [R], or both
    throw, and in either case on the same document. *)
Definition alike {A : Type} (R : A -> A -> Prop) (r1 r2 : Result A) : Prop :=
  match r1, r2 with
  | Ok a w1, Ok b w2 => R a b /\ same_document w1 w2
  | Thrown w1, Thrown w2 => same_document w1 w2
  | _, _ => False
  end.

(** Two runs of the loop over the fields end alike, the first one having
    counted [shift] fields more than the second. *)
Definition same_outcome (shift : Z) (r1 r2 : Result Z) : Prop :=
  alike (fun a b => a = (b + shift)%Z) r1 r2.

(** [m] does not read the console. *)
Definition console_blind {A : Type} (m : M A) : Prop :=
  forall w1 w2, same_document w1 w2 -> alike eq (m w1) (m w2).

(** The generated PDF [pdf] is [pdf'] with one more field counted. *)
Definition one_field_more (pdf pdf' : GeneratedPdf.t) : Prop :=
  GeneratedPdf.bytes pdf = GeneratedPdf.bytes pdf'
  /\ GeneratedPdf.fieldCount pdf = (GeneratedPdf.fieldCount pdf' + 1)%Z
  /\ GeneratedPdf.pageCount pdf = GeneratedPdf.pageCount pdf'
  /\ GeneratedPdf.drawnElements pdf = GeneratedPdf.drawnElements pdf'.

(** The schema [schema] with the list of fields [fields]. *)
Definition with_fields (schema : ParsedFormSchema.t)
    (fields : list NormalizedFormField.t) : ParsedFormSchema.t :=
  {| ParsedFormSchema.form := ParsedFormSchema.form schema;
     ParsedFormSchema.coverPage := ParsedFormSchema.coverPage schema;
     ParsedFormSchema.footer := ParsedFormSchema.footer schema;
     ParsedFormSchema.content := ParsedFormSchema.content schema;
     ParsedFormSchema.fields := fields |}.

(** [m] returns from every world. *)
Definition total {A : Type} (m : M A) : Prop :=
  forall w, exists a w', m w = Ok a w'.

(** An outside world in which no call throws: the layout is initialised
    with the pages asked for and the cursor below the title. *)
Definition extern_accepting (history : list Call) (layout : LayoutContext.t)
    (c : Call) : option LayoutContext.t :=
  match c with
  | initializeLayout totalPages =>
      Some {| LayoutContext.pages := List.seq 0 (Z.to_nat totalPages);
              LayoutContext.cursor := {| Position.x := 72%float; Position.y := 700%float |};
              LayoutContext.drawnElements := [] |}
  | _ => Some layout
  end.

(** A serializer whose output is of no interest. *)
Definition no_bytes (history : list Call) : list Byte.byte := [].

(** A world whose document has two physical pages. *)
Definition two_pages : World :=
  {| trace := [];
     ctx := {| LayoutContext.pages := [0; 1]%nat;
               LayoutContext.cursor := {| Position.x := 72%float; Position.y := 700%float |};
               LayoutContext.drawnElements := [] |};
     console := [] |}.

(** A one-page schema with three fields, the second of an unknown type. *)
Definition schema_with_unknown : ParsedFormSchema.t :=
  {| ParsedFormSchema.form := form_v2;
     ParsedFormSchema.coverPage := None;
     ParsedFormSchema.footer := None;
     ParsedFormSchema.content := None;
     ParsedFormSchema.fields :=
       [field_on "text" 1 (-50)%float; field_on "barcode" 1 (-80)%float;
        field_on "checkbox" 1 (-110)%float] |}.

End PdfVocabulary.

(** ** Text wrapping *)

Section WrapVocabulary.
Import Js Wrap.

(** The non-empty words of a text, in order. *)
Definition words_of (s : string) : list string :=
  filter truthy (split_space s).

(** A text with its runs of spaces collapsed and its outer spaces removed. *)
Definition collapse_spaces (s : string) : string :=
  join " " (words_of s).

(** The words held by a state of the loop: those of the finished lines,
    then those of the line under construction. *)
Definition flat (st : list string * string) : list string :=
  List.concat (map split_space (fst st))
  ++ (if truthy (snd st) then split_space (snd st) else []).

(** The line under construction is either empty, or fits, or is one word. *)
Definition current_ok (maxWidth fontSize : float) (words : list string)
    (line : string) : Prop :=
  truthy line = true ->
  gt (estimateTextWidth line fontSize) maxWidth = true -> In line words.

(** A finished line is not empty, and fits unless it is one word. *)
Definition line_ok (maxWidth fontSize : float) (words : list string)
    (line : string) : Prop :=
  truthy line = true
  /\ (gt (estimateTextWidth line fontSize) maxWidth = true -> In line words).

(** A whitespace character: space, tab, line feed, vertical tab, form feed
    or carriage return. *)
Definition is_whitespace (c : ascii) : bool :=
  Ascii.eqb c " " || Ascii.eqb c "009" || Ascii.eqb c "010"
  || Ascii.eqb c "011" || Ascii.eqb c "012" || Ascii.eqb c "013".

(** The pieces of [s] between whitespace characters. *)
Fixpoint split_whitespace (s : string) : list string :=
  match s with
  | EmptyString => [EmptyString]
  | String c more =>
      if is_whitespace c then EmptyString :: split_whitespace more
      else match split_whitespace more with
           | w :: ws => String c w :: ws
           | [] => [String c EmptyString]
           end
  end.

(** The whitespace-normalized text the specification speaks of, after
    its words (the source has no such function): every run of whitespace
    characters becomes one space and no whitespace is left at either end. *)
Definition spec_whitespace_normalize (s : string) : string :=
  join " " (filter truthy (split_whitespace s)).

End WrapVocabulary.

(** ** The HTML cover page *)

Section HtmlVocabulary.
Import Js Html.

(** The characters that delimit markup: angle brackets and quotes. *)
Definition is_markup (c : ascii) : bool :=
  Ascii.eqb c "<" || Ascii.eqb c ">" || Ascii.eqb c "034" || Ascii.eqb c "'".

(** The characters of [s] that satisfy [p], in order. *)
Fixpoint keep (p : ascii -> bool) (s : string) : string :=
  match s with
  | EmptyString => EmptyString
  | String c more => if p c then String c (keep p more) else keep p more
  end.

(** The markup characters of a text: its tags and attribute quotes with
    everything else removed. *)
Definition markup_of (s : string) : string := keep is_markup s.

(** Does [s] start with the rest of one of the five entities? *)
Definition entity_follows (s : string) : bool :=
  String.prefix "amp;" s || String.prefix "lt;" s || String.prefix "gt;" s
  || String.prefix "quot;" s || String.prefix "#039;" s.

(** Every ampersand of [s] starts one of the five entities. *)
Fixpoint amp_escaped (s : string) : bool :=
  match s with
  | EmptyString => true
  | String c more =>
      (if Ascii.eqb c "&" then entity_follows more else true) && amp_escaped more
  end.

(** A user-supplied string with its content blanked out: only whether it
    is empty is kept. *)
Definition redact (s : string) : string :=
  if truthy s then "x" else "".

(** The same for an optional string, a revision entry, the form metadata
    and the cover page. *)
Definition redact_opt (o : option string) : option string :=
  option_map redact o.

Definition redact_entry (e : RevisionEntry.t) : RevisionEntry.t :=
  {| RevisionEntry.version := redact (RevisionEntry.version e);
     RevisionEntry.date := redact (RevisionEntry.date e);
     RevisionEntry.author := redact (RevisionEntry.author e);
     RevisionEntry.description := redact (RevisionEntry.description e) |}.

Definition redact_form (f : FormMetadata.t) : FormMetadata.t :=
  {| FormMetadata.title := redact (FormMetadata.title f);
     FormMetadata.version := redact_opt (FormMetadata.version f);
     FormMetadata.author := redact_opt (FormMetadata.author f);
     FormMetadata.pages := FormMetadata.pages f;
     FormMetadata.stylesheet := FormMetadata.stylesheet f |}.

Definition redact_cover (c : CoverPage.t) : CoverPage.t :=
  {| CoverPage.coverImage := redact_opt (CoverPage.coverImage c);
     CoverPage.watermark := redact_opt (CoverPage.watermark c);
     CoverPage.logo := redact_opt (CoverPage.logo c);
     CoverPage.subtitle := redact_opt (CoverPage.subtitle c);
     CoverPage.organization := redact_opt (CoverPage.organization c);
     CoverPage.department := redact_opt (CoverPage.department c);
     CoverPage.documentNumber := redact_opt (CoverPage.documentNumber c);
     CoverPage.documentType := redact_opt (CoverPage.documentType c);
     CoverPage.status := redact_opt (CoverPage.status c);
     CoverPage.classification := redact_opt (CoverPage.classification c);
     CoverPage.date := redact_opt (CoverPage.date c);
     CoverPage.effectiveDate := redact_opt (CoverPage.effectiveDate c);
     CoverPage.reviewDate := redact_opt (CoverPage.reviewDate c);
     CoverPage.preparedBy := redact_opt (CoverPage.preparedBy c);
     CoverPage.reviewedBy := redact_opt (CoverPage.reviewedBy c);
     CoverPage.approvedBy := redact_opt (CoverPage.approvedBy c);
     CoverPage.revisionHistory :=
       option_map (map redact_entry) (CoverPage.revisionHistory c);
     CoverPage.copyright := redact_opt (CoverPage.copyright c);
     CoverPage.disclaimer := redact_opt (CoverPage.disclaimer c);
     CoverPage.distributionStatement := redact_opt (CoverPage.distributionStatement c) |}.

(** The same for an entry of [metaFields], before and after filtering. *)
Definition redact_field (e : string * option string) : string * option string :=
  (fst e, redact_opt (snd e)).

Definition redact_value (e : string * string) : string * string :=
  (fst e, redact (snd e)).

(** A form and a cover page whose strings try to inject markup. *)
Definition hostile_form : FormMetadata.t :=
  {| FormMetadata.title := "<script>alert('x')</script>";
     FormMetadata.version := Some "2.0 & up";
     FormMetadata.author := Some "<b>me</b>";
     FormMetadata.pages := None;
     FormMetadata.stylesheet := None |}.

Definition hostile_cover : CoverPage.t :=
  {| CoverPage.coverImage := Some "x.png'); background: url('evil";
     CoverPage.watermark := Some "<img src=x onerror=alert(1)>";
     CoverPage.logo := Some (dq +++ " onload=" +++ dq +++ "alert(1)");
     CoverPage.subtitle := Some "a > b";
     CoverPage.organization := Some "R&D";
     CoverPage.department := None;
     CoverPage.documentNumber := None;
     CoverPage.documentType := None;
     CoverPage.status := Some "";
     CoverPage.classification := None;
     CoverPage.date := None;
     CoverPage.effectiveDate := None;
     CoverPage.reviewDate := None;
     CoverPage.preparedBy := None;
     CoverPage.reviewedBy := None;
     CoverPage.approvedBy := None;
     CoverPage.revisionHistory :=
       Some [ {| RevisionEntry.version := "1<2";
                 RevisionEntry.date := "'today'";
                 RevisionEntry.author := "</td>";
                 RevisionEntry.description := "&amp;" |} ];
     CoverPage.copyright := Some "</div>";
     CoverPage.disclaimer := None;
     CoverPage.distributionStatement := Some "" |}.

End HtmlVocabulary.

(** ** Colours *)

Section ColorVocabulary.
Import JsText Color.

(** The sixteen hexadecimal digits, in both cases, with their values. *)
Definition hex_digits : list (ascii * Z) :=
  [ ("0"%char, 0%Z); ("1"%char, 1%Z); ("2"%char, 2%Z); ("3"%char, 3%Z);
    ("4"%char, 4%Z); ("5"%char, 5%Z); ("6"%char, 6%Z); ("7"%char, 7%Z);
    ("8"%char, 8%Z); ("9"%char, 9%Z);
    ("a"%char, 10%Z); ("b"%char, 11%Z); ("c"%char, 12%Z);
    ("d"%char, 13%Z); ("e"%char, 14%Z); ("f"%char, 15%Z);
    ("A"%char, 10%Z); ("B"%char, 11%Z); ("C"%char, 12%Z);
    ("D"%char, 13%Z); ("E"%char, 14%Z); ("F"%char, 15%Z) ].

(** The string of the two characters [a] and [b]. *)
Definition pair_string (a b : ascii) : string := String a (String b EmptyString).

(** The colour channel of intensity [n] out of 255. *)
Definition channel (n : Z) : float :=
  PrimFloat.div (number_of_int false n) 255%float.

(** A number between 0 and 1, bounds included. *)
Definition unit_interval (v : float) : bool :=
  PrimFloat.leb 0%float v && PrimFloat.leb v 1%float.

End ColorVocabulary.

(** ** Footer slots and template variables *)

Section FooterSlotsVocabulary.
Import Js Footer.

(** The footer configuration [footer] with its [showDate] flag replaced. *)
Definition with_showDate (footer : FooterConfig.t) (value : option bool)
    : FooterConfig.t :=
  {| FooterConfig.enabled := FooterConfig.enabled footer;
     FooterConfig.left := FooterConfig.left footer;
     FooterConfig.center := FooterConfig.center footer;
     FooterConfig.right := FooterConfig.right footer;
     FooterConfig.text := FooterConfig.text footer;
     FooterConfig.copyright := FooterConfig.copyright footer;
     FooterConfig.showPageNumbers := FooterConfig.showPageNumbers footer;
     FooterConfig.showVersion := FooterConfig.showVersion footer;
     FooterConfig.showDate := value;
     FooterConfig.separator := FooterConfig.separator footer;
     FooterConfig.socialLinks := FooterConfig.socialLinks footer |}.

(** What the [showVersion] shorthand appends to a non-empty center. *)
Definition version_suffix (footer : FooterConfig.t) (form : FormMetadata.t) : string :=
  if flag (FooterConfig.showVersion footer) && truthy_opt (FormMetadata.version form)
  then " - Version " +++ nullish (FormMetadata.version form) ""
  else "".

(** The six social platforms, as the properties of the links object. *)
Definition platforms : list (FooterSocialLinks.t -> option string) :=
  [ FooterSocialLinks.youtube; FooterSocialLinks.x; FooterSocialLinks.facebook;
    FooterSocialLinks.linkedin; FooterSocialLinks.github; FooterSocialLinks.website ].

(** The links object of a footer configuration, [{}] when it has none. *)
Definition configured_links (footer : FooterConfig.t) : FooterSocialLinks.t :=
  nullish (FooterConfig.socialLinks footer) FooterSocialLinks.empty.

(** A text without an opening brace: no template token begins in it. *)
Definition brace_free (s : string) : bool := negb (has_char "{" s).

(** A replacement text that stands for itself and brings no token:
    neither a dollar sign nor an opening brace occurs in it. *)
Definition plain (s : string) : bool := negb (has_char "$" s) && brace_free s.

(** The static template variables with the values [resolveStaticVariables]
    gives them. *)
Definition static_variables (today : string) (form : FormMetadata.t)
    : list (string * string) :=
  [ ("{{title}}", FormMetadata.title form);
    ("{{version}}", nullish (FormMetadata.version form) "");
    ("{{author}}", nullish (FormMetadata.author form) "");
    ("{{date}}", today) ].

(** The footer configuration [{showPageNumbers: true}]. *)
Definition footer_showPageNumbers : FooterConfig.t :=
  {| FooterConfig.enabled := None; FooterConfig.left := None;
     FooterConfig.center := None; FooterConfig.right := None;
     FooterConfig.text := None; FooterConfig.copyright := None;
     FooterConfig.showPageNumbers := Some true; FooterConfig.showVersion := None;
     FooterConfig.showDate := None; FooterConfig.separator := None;
     FooterConfig.socialLinks := None |}.

(** The footer configuration
    [{socialLinks: {github: 'https://github.com/acme', x: ''}}]. *)
Definition footer_with_links : FooterConfig.t :=
  {| FooterConfig.enabled := None; FooterConfig.left := None;
     FooterConfig.center := None; FooterConfig.right := None;
     FooterConfig.text := None; FooterConfig.copyright := None;
     FooterConfig.showPageNumbers := None; FooterConfig.showVersion := None;
     FooterConfig.showDate := None; FooterConfig.separator := None;
     FooterConfig.socialLinks :=
       Some {| FooterSocialLinks.youtube := None;
               FooterSocialLinks.x := Some "";
               FooterSocialLinks.facebook := None;
               FooterSocialLinks.linkedin := None;
               FooterSocialLinks.github := Some "https://github.com/acme";
               FooterSocialLinks.website := None |} |}.

End FooterSlotsVocabulary.

(** ** The shape of wrapped lines *)

Section LineShapeVocabulary.
Import Js Wrap.

(** Is the first character of [s] a space? *)
Definition starts_with_space (s : string) : bool :=
  match s with
  | EmptyString => false
  | String c _ => Ascii.eqb c space
  end.

End LineShapeVocabulary.

(** ** Greedy line breaks *)

Section GreedyVocabulary.
Import Js Wrap.

(** The first word of a line. *)
Definition first_word (line : string) : string :=
  List.hd EmptyString (split_space line).

(** The line [line] could not take the first word of the line [next]:
    with it, it would be estimated wider than [maxWidth]. *)
Definition full (maxWidth fontSize : float) (line next : string) : Prop :=
  gt (estimateTextWidth (line +++ " " +++ first_word next) fontSize) maxWidth = true.

(** [R] holds between every element of a list and the one after it. *)
Fixpoint chain {A : Type} (R : A -> A -> Prop) (xs : list A) : Prop :=
  match xs with
  | a :: (b :: _) as more => R a b /\ chain R more
  | _ => True
  end.

End GreedyVocabulary.

(** ** Calls of a generation run *)

Section TraceVocabulary.
Import Js Pdf.

(** Every call [m] adds to the trace satisfies [P], whether [m] returns
    or throws. *)
Definition emits {A : Type} (P : Call -> Prop) (m : M A) : Prop :=
  forall w, exists calls,
    trace (world_of (m w)) = trace w ++ calls /\ Forall P calls.

(** The drawers of the label of a text field and of a text area. *)
Definition is_text_label (c : Call) : bool :=
  match c with
  | leaf drawFieldLabel _ _ => true
  | leaf drawTextareaLabel _ _ => true
  | _ => false
  end.

Definition is_drawTitle (c : Call) : bool :=
  match c with
  | drawTitle _ _ => true
  | _ => false
  end.

Definition is_drawSchemaContent (c : Call) : bool :=
  match c with
  | drawSchemaContent _ => true
  | _ => false
  end.

Definition is_save (c : Call) : bool :=
  match c with
  | save => true
  | _ => false
  end.

(** [m] serializes the document at most once, with its last call, and
    has done so when it returns. *)
Definition saves_last {A : Type} (m : M A) : Prop :=
  forall w, exists calls,
    trace (world_of (m w)) = trace w ++ calls
    /\ Forall (fun c => is_save c = false) (removelast calls)
    /\ (forall a w', m w = Ok a w' -> exists before, calls = before ++ [save]).

(** A one-page schema with content elements and two text fields. *)
Definition schema_with_content : ParsedFormSchema.t :=
  {| ParsedFormSchema.form := form_v2;
     ParsedFormSchema.coverPage := None;
     ParsedFormSchema.footer := None;
     ParsedFormSchema.content := Some [content_element "paragraph"];
     ParsedFormSchema.fields :=
       [field_on "text" 1 (-50)%float; field_on "textarea" 1 (-80)%float] |}.


(** The drawers that create a form field, as opposed to those that draw
    its label. *)
Definition is_creator (op : LeafOp) : bool :=
  match op with
  | createTextField | createCheckboxField | createRadioGroup
  | createDropdownField | createTextareaField | createSignatureField => true
  | _ => false
  end.

(** The drawer that creates the form field of a field type, if the type
    is one of the six. *)
Definition creator (type : string) : option LeafOp :=
  if (type =? "text")%string then Some createTextField
  else if (type =? "checkbox")%string then Some createCheckboxField
  else if (type =? "radio")%string then Some createRadioGroup
  else if (type =? "dropdown")%string then Some createDropdownField
  else if (type =? "textarea")%string then Some createTextareaField
  else if (type =? "signature")%string then Some createSignatureField
  else None.

(** What identifies a field of the schema whatever its position: its
    type, its logical page and its type-specific attributes. *)
Definition field_key (field : NormalizedFormField.t)
    : string * Z * list (string * string) :=
  (NormalizedFormField.type field, NormalizedFormField.page field,
   NormalizedFormField.rest field).

(** The form fields created by a sequence of calls, in order. *)
Definition created (calls : list Call)
    : list (LeafOp * (string * Z * list (string * string))) :=
  flat_map (fun c =>
              match c with
              | leaf op _ field => if is_creator op then [(op, field_key field)] else []
              | _ => []
              end) calls.

(** The form fields a list of schema fields asks for, in order; a field
    of an unknown type asks for none. *)
Definition wanted_fields (fields : list NormalizedFormField.t)
    : list (LeafOp * (string * Z * list (string * string))) :=
  flat_map (fun field =>
              match creator (NormalizedFormField.type field) with
              | Some op => [(op, field_key field)]
              | None => []
              end) fields.

(** [m] creates the form fields [fields] in order: all of them when it
    returns, the first ones when it throws. *)
Definition creates {A : Type}
    (fields : list (LeafOp * (string * Z * list (string * string)))) (m : M A) : Prop :=
  forall w, exists calls,
    trace (world_of (m w)) = trace w ++ calls
    /\ (exists missing, fields = created calls ++ missing)
    /\ (forall a w', m w = Ok a w' -> created calls = fields).

(** What a call outside the field loop must look like for a schema: the
    stylesheet named by the form is parsed, or the default one taken when
    the form names none; title and author are those of the form; the layout
    is initialised with one page more when there is a cover page, which is
    drawn from the schema's form and cover page and followed by a page
    break; header and footer start after it, and the footer is the one
    resolved from the schema. *)
Definition call_fits (clock : Footer.Clock) (schema : ParsedFormSchema.t)
    (basePath : string) (c : Call) : Prop :=
  let form := ParsedFormSchema.form schema in
  let pageCount := nullish (FormMetadata.pages form) 1%Z in
  match c, ParsedFormSchema.coverPage schema with
  | parseStylesheet base sheet, _ =>
      base = basePath /\ FormMetadata.stylesheet form = Some sheet /\ sheet <> EmptyString
  | getDefaultStylesheet, _ => truthy_opt (FormMetadata.stylesheet form) = false
  | setTitle title, _ => title = FormMetadata.title form
  | setAuthor author, _ => FormMetadata.author form = Some author /\ author <> EmptyString
  | initializeLayout totalPages, Some _ => totalPages = (pageCount + 1)%Z
  | initializeLayout totalPages, None => totalPages = pageCount
  | drawCoverPage f cover path, o => f = form /\ o = Some cover /\ path = basePath
  | nextPage, o => o <> None
  | drawHeader title _ startPage, Some _ =>
      title = FormMetadata.title form /\ startPage = 1%Z
  | drawHeader title _ startPage, None =>
      title = FormMetadata.title form /\ startPage = 0%Z
  | drawFooter resolved startPage, o =>
      resolved = Footer.resolveFooterConfig clock (ParsedFormSchema.footer schema) form
      /\ startPage = (match o with Some _ => 1 | None => 0 end)%Z
  | _, _ => True
  end.

(** A schema with a cover page and three pages of content. *)
Definition schema_with_cover : ParsedFormSchema.t :=
  {| ParsedFormSchema.form :=
       {| FormMetadata.title := "Form"; FormMetadata.version := Some "2.0";
          FormMetadata.author := None; FormMetadata.pages := Some 3%Z;
          FormMetadata.stylesheet := None |};
     ParsedFormSchema.coverPage := Some hostile_cover;
     ParsedFormSchema.footer := None;
     ParsedFormSchema.content := None;
     ParsedFormSchema.fields :=
       [field_on "text" 0 10%float; field_on "checkbox" 3 20%float] |}.

End TraceVocabulary.

(** ** Page placement checked against the layout of the moment *)

Section PlacementVocabulary.
Import Js Pdf.

(** [a === b] on the result of a page lookup. *)
Definition same_page (a b : option PDFPage) : bool :=
  match a, b with
  | Some p, Some q => Nat.eqb p q
  | None, None => true
  | _, _ => false
  end.

(** The call [c], made when the layout context is [layout], places its
    field as the page offset [offset] asks: a leaf drawer is handed
    [pages[min(field.page - 1 + offset, pages.length - 1)]] of that context.
    The other calls place nothing. *)
Definition placed_by (offset : Z) (layout : LayoutContext.t) (c : Call) : bool :=
  match c with
  | leaf _ page field =>
      same_page page
        (page_at (LayoutContext.pages layout)
           (Z.min (NormalizedFormField.page field - 1 + offset)
                  (Z.of_nat (List.length (LayoutContext.pages layout)) - 1)))
  | _ => true
  end.

(** The outside world [extern] behind a check: a call that fails [ok]
    against the layout context of the moment throws instead of being
    carried out. *)
Definition checking (ok : LayoutContext.t -> Call -> bool)
    (extern : list Call -> LayoutContext.t -> Call -> option LayoutContext.t)
    : list Call -> LayoutContext.t -> Call -> option LayoutContext.t :=
  fun history layout c => if ok layout c then extern history layout c else None.

End PlacementVocabulary.

(** ** A page collection fixed by the layout *)

Section LayoutVocabulary.
Import Js Pdf.

(** The outside world fixes the page collection when the layout is
    initialised -- [pages_of totalPages] for [initializeLayout] called with
    [totalPages] -- and no other call that returns changes it. *)
Definition layout_fixed_by
    (extern : list Call -> LayoutContext.t -> Call -> option LayoutContext.t)
    (pages_of : Z -> list PDFPage) : Prop :=
  forall history layout c layout',
    extern history layout c = Some layout' ->
    LayoutContext.pages layout'
    = match c with
      | initializeLayout totalPages => pages_of totalPages
      | _ => LayoutContext.pages layout
      end.

(** Started in a world that satisfies [before], [m] makes calls that
    satisfy [P] only, whether it returns or throws, and when it returns [a]
    it ends in a world that satisfies [after a]. *)
Definition run_keeps {A : Type} (P : Call -> Prop) (before : World -> Prop)
    (m : M A) (after : A -> World -> Prop) : Prop :=
  forall w, before w ->
    exists calls,
      trace (world_of (m w)) = trace w ++ calls
      /\ Forall P calls
      /\ (forall a w', m w = Ok a w' -> after a w').

(** The page collection of the layout context of [w] is [pages]. *)
Definition on_pages (pages : list PDFPage) (w : World) : Prop :=
  LayoutContext.pages (ctx w) = pages.

(** A leaf drawer called by [c] is handed the page [page_of field] for
    its field. *)
Definition drawn_on (page_of : NormalizedFormField.t -> option PDFPage) (c : Call)
    : Prop :=
  match c with
  | leaf _ page field => page = page_of field
  | _ => True
  end.

(** [pages[min(field.page - 1 + offset, pages.length - 1)]] *)
Definition page_for (pages : list PDFPage) (offset : Z) (field : NormalizedFormField.t)
    : option PDFPage :=
  page_at pages
    (Z.min (NormalizedFormField.page field - 1 + offset)
           (Z.of_nat (List.length pages) - 1)).

(** The pages numbered from 0 that the accepting outside world sets up. *)
Definition numbered_pages (totalPages : Z) : list PDFPage :=
  List.seq 0 (Z.to_nat totalPages).

End LayoutVocabulary.

(** ** Escaping and empty fields *)

Section EscapeVocabulary.
Import Js Html.

(** The five characters [escapeHtml] replaces. *)
Definition is_special (c : ascii) : bool :=
  Ascii.eqb c "&" || Ascii.eqb c "<" || Ascii.eqb c ">"
  || Ascii.eqb c "034" || Ascii.eqb c "'".

(** Does one of the five characters occur in [s]? *)
Fixpoint has_special (s : string) : bool :=
  match s with
  | EmptyString => false
  | String c more => is_special c || has_special more
  end.

(** An optional string with the empty string taken for a missing one. *)
Definition prune (o : option string) : option string :=
  match o with
  | Some EmptyString => None
  | _ => o
  end.

(** The form metadata and the cover page with every empty optional string,
    and an empty revision history, removed. *)
Definition prune_form (f : FormMetadata.t) : FormMetadata.t :=
  {| FormMetadata.title := FormMetadata.title f;
     FormMetadata.version := prune (FormMetadata.version f);
     FormMetadata.author := prune (FormMetadata.author f);
     FormMetadata.pages := FormMetadata.pages f;
     FormMetadata.stylesheet := FormMetadata.stylesheet f |}.

Definition prune_cover (c : CoverPage.t) : CoverPage.t :=
  {| CoverPage.coverImage := prune (CoverPage.coverImage c);
     CoverPage.watermark := prune (CoverPage.watermark c);
     CoverPage.logo := prune (CoverPage.logo c);
     CoverPage.subtitle := prune (CoverPage.subtitle c);
     CoverPage.organization := prune (CoverPage.organization c);
     CoverPage.department := prune (CoverPage.department c);
     CoverPage.documentNumber := prune (CoverPage.documentNumber c);
     CoverPage.documentType := prune (CoverPage.documentType c);
     CoverPage.status := prune (CoverPage.status c);
     CoverPage.classification := prune (CoverPage.classification c);
     CoverPage.date := prune (CoverPage.date c);
     CoverPage.effectiveDate := prune (CoverPage.effectiveDate c);
     CoverPage.reviewDate := prune (CoverPage.reviewDate c);
     CoverPage.preparedBy := prune (CoverPage.preparedBy c);
     CoverPage.reviewedBy := prune (CoverPage.reviewedBy c);
     CoverPage.approvedBy := prune (CoverPage.approvedBy c);
     CoverPage.revisionHistory :=
       match CoverPage.revisionHistory c with
       | Some [] => None
       | history => history
       end;
     CoverPage.copyright := prune (CoverPage.copyright c);
     CoverPage.disclaimer := prune (CoverPage.disclaimer c);
     CoverPage.distributionStatement := prune (CoverPage.distributionStatement c) |}.

End EscapeVocabulary.

(** ** Social icons *)

Section IconVocabulary.
Import Icons.

(** A path function that joins its arguments with slashes under [/app/dist/gen]. *)
Definition resolve_under_app (dir name : string) : string :=
  "/app/dist/gen/" +++ dir +++ "/" +++ name.

(** A file system with the development copy of the GitHub icon only. *)
Definition dev_icons (path : string) : bool :=
  (path =? "/app/dist/gen/../../src/assets/icons/github.png")%string.

Definition dev_icon_bytes (path : string) : option (list Byte.byte) :=
  if dev_icons path then Some [Byte.x89; Byte.x50; Byte.x4e; Byte.x47] else None.

End IconVocabulary.

(** * Properties *)

(** ** Strings *)

Section StringFacts.
Import Js.

Lemma truthy_false_iff (s : string) : truthy s = false <-> s = EmptyString.
Proof. destruct s; simpl; split; congruence. Qed.

Lemma truthy_true_iff (s : string) : truthy s = true <-> s <> EmptyString.
Proof. destruct s; simpl; split; congruence. Qed.

Lemma truthy_opt_true (o : option string) :
  truthy_opt o = true <-> exists v, o = Some v /\ v <> EmptyString.
Proof.
  destruct o as [v|]; simpl.
  - rewrite truthy_true_iff. split.
    + intros Hv. exists v. split; [reflexivity | exact Hv].
    + intros (v' & Hv' & Hne). injection Hv' as ->. exact Hne.
  - split; [discriminate | intros (v & Hv & _); discriminate].
Qed.

Lemma append_assoc (a b c : string) : (a +++ b) +++ c = a +++ b +++ c.
Proof. induction a as [|ch a IH]; simpl; [reflexivity | now rewrite IH]. Qed.

End StringFacts.

(** ** Footer resolution *)

Section FooterProperties.
Import Js Footer.

(** C6. Without a footer configuration the legacy footer is returned: it is
    enabled exactly when the form has a (non-empty) version string, its
    center is "Version " followed by that version and is empty when there
    is none, and its left and right slots are empty. For the version "2.0"
    this is the enabled footer with center "Version 2.0". *)
Theorem resolveFooterConfig_legacy (clock : Clock) (form : FormMetadata.t) :
  let r := resolveFooterConfig clock None form in
  (ResolvedFooter.enabled r = true
   <-> exists v, FormMetadata.version form = Some v /\ v <> EmptyString)
  /\ (forall v, FormMetadata.version form = Some v -> v <> EmptyString ->
        ResolvedFooter.center r = "Version " +++ v)
  /\ (ResolvedFooter.enabled r = false -> ResolvedFooter.center r = EmptyString)
  /\ ResolvedFooter.left r = EmptyString
  /\ ResolvedFooter.right r = EmptyString
  /\ (FormMetadata.version form = Some "2.0" ->
        ResolvedFooter.enabled r = true
        /\ ResolvedFooter.center r = "Version 2.0"
        /\ ResolvedFooter.left r = EmptyString
        /\ ResolvedFooter.right r = EmptyString).
Proof.
  cbn zeta. unfold resolveFooterConfig; cbn [ResolvedFooter.enabled
    ResolvedFooter.center ResolvedFooter.left ResolvedFooter.right].
  split; [apply truthy_opt_true|].
  split.
  { intros v Hv Hne. rewrite Hv. cbn [truthy_opt nullish].
    apply truthy_true_iff in Hne. now rewrite Hne. }
  split.
  { intros Hoff. now rewrite Hoff. }
  split; [reflexivity|]. split; [reflexivity|].
  intros Hv. rewrite Hv. cbn. repeat split.
Qed.

Lemma resolveFooterConfig_legacy_witness :
  let r := resolveFooterConfig (on_day "11/3/2026") None form_v2 in
  ResolvedFooter.enabled r = true
  /\ ResolvedFooter.center r = "Version 2.0"
  /\ ResolvedFooter.left r = EmptyString
  /\ ResolvedFooter.right r = EmptyString.
Proof.
  apply (resolveFooterConfig_legacy (on_day "11/3/2026") form_v2). reflexivity.
Defined.

(** The footer assembled on the main path of [resolveFooterConfig], whose
    [enabled] is [hasContent]. *)
Lemma enabled_iff_general (l c r : string) (links : FooterSocialLinks.t)
    (sep : ResolvedFooterSeparator.t) (P : Prop) :
  let hasContent :=
    truthy l || truthy c || truthy r || (0 <? FooterSocialLinks.keys_length links)%nat in
  let no_content :=
    l = EmptyString /\ c = EmptyString /\ r = EmptyString
    /\ FooterSocialLinks.keys_length links = 0%nat in
  ~ P ->
  (hasContent = false <-> no_content \/ P)
  /\ (hasContent = true <->
        l <> EmptyString \/ c <> EmptyString \/ r <> EmptyString
        \/ (0 < FooterSocialLinks.keys_length links)%nat)
  /\ (P -> no_content).
Proof.
  cbn zeta. intros HP.
  rewrite !orb_false_iff, !orb_true_iff, !truthy_false_iff, !truthy_true_iff.
  rewrite Nat.ltb_lt, Nat.ltb_ge.
  repeat split; try tauto; try lia.
  all: intuition lia.
Qed.

(** C3. The resolved footer is disabled exactly when its three slots are
    empty and no social link is left, or when the caller disabled it
    explicitly; put the other way round, it is enabled exactly when one of
    the slots is non-empty or a social link survived the filtering. *)
Theorem resolveFooterConfig_enabled_iff (clock : Clock)
    (footer : option FooterConfig.t) (form : FormMetadata.t) :
  let r := resolveFooterConfig clock footer form in
  let no_content :=
    ResolvedFooter.left r = EmptyString
    /\ ResolvedFooter.center r = EmptyString
    /\ ResolvedFooter.right r = EmptyString
    /\ FooterSocialLinks.keys_length (ResolvedFooter.socialLinks r) = 0%nat in
  let disabled_by_caller :=
    exists f, footer = Some f /\ FooterConfig.enabled f = Some false in
  (ResolvedFooter.enabled r = false <-> no_content \/ disabled_by_caller)
  /\ (ResolvedFooter.enabled r = true <->
        ResolvedFooter.left r <> EmptyString
        \/ ResolvedFooter.center r <> EmptyString
        \/ ResolvedFooter.right r <> EmptyString
        \/ (0 < FooterSocialLinks.keys_length (ResolvedFooter.socialLinks r))%nat)
  /\ (disabled_by_caller -> no_content).
Proof.
  cbn zeta.
  unfold resolveFooterConfig.
  destruct footer as [f|].
  - destruct (FooterConfig.enabled f) as [[|]|] eqn:Hen.
    + destruct (seed_slots f form) as [[l c] r].
      apply (enabled_iff_general _ _ _ _ default_separator).
      intros (f' & Hf & Hoff); injection Hf as <-; congruence.
    + cbn. split; [|split].
      * split; [intros _; right; exists f; auto | reflexivity].
      * split; [discriminate | intros [H|[H|[H|H]]]; try congruence; inversion H].
      * intros _. repeat split.
    + destruct (seed_slots f form) as [[l c] r].
      apply (enabled_iff_general _ _ _ _ default_separator).
      intros (f' & Hf & Hoff); injection Hf as <-; congruence.
  - cbn [ResolvedFooter.enabled ResolvedFooter.left ResolvedFooter.center
         ResolvedFooter.right ResolvedFooter.socialLinks].
    destruct (truthy_opt (FormMetadata.version form)); cbn; (split; [|split]).
    + split; [discriminate | intros [(_ & H & _)|(f & Hf & _)]; discriminate].
    + split; [intros _; right; left; discriminate | reflexivity].
    + intros (f & Hf & _); discriminate.
    + split; [intros _; left; repeat split | reflexivity].
    + split; [discriminate | intros [H|[H|[H|H]]]; try congruence; inversion H].
    + intros (f & Hf & _); discriminate.
Qed.

(** *** Dependence on the clock *)

Lemma replace_scan_absent (pat rep : string) (s before : string) :
  occurs pat s = false -> replace_scan pat rep before 0 s = s.
Proof.
  revert before. induction s as [|c s IH]; intros before Hocc; [reflexivity|].
  cbn [occurs] in Hocc. apply orb_false_iff in Hocc as [Hpre Hrest].
  cbn [replace_scan]. rewrite Hpre. f_equal. apply IH, Hrest.
Qed.

Lemma replace_all_absent (pat rep s : string) :
  occurs pat s = false -> replace_all pat rep s = s.
Proof. apply replace_scan_absent. Qed.

Lemma resolveStaticVariables_date_free (d1 d2 text : string) (form : FormMetadata.t) :
  date_free_slot text form = true ->
  resolveStaticVariables d1 text form = resolveStaticVariables d2 text form.
Proof.
  unfold date_free_slot, resolveStaticVariables. intros Hfree.
  apply negb_true_iff in Hfree. destruct (negb (truthy text)); [reflexivity|].
  fold (form_variables_resolved text form).
  now rewrite !replace_all_absent.
Qed.

(** C7, as the specification states it, fails: the same footer and form
    resolved on two different days give two different footers, because the
    date token is replaced by the current date. *)
Lemma resolveFooterConfig_not_deterministic :
  resolveFooterConfig (on_day "11/3/2026") (Some footer_showDate) form_v2
  <> resolveFooterConfig (on_day "11/4/2026") (Some footer_showDate) form_v2.
Proof.
  intros Hsame.
  apply (f_equal ResolvedFooter.left) in Hsame. vm_compute in Hsame. discriminate Hsame.
Qed.

(** C7, amended. Footer resolution is deterministic relative to the current
    date: two runs on the same footer and form whose clocks show the same
    date string at each slot give the same resolved footer, and two runs
    whose clocks differ still agree when no date token is left to substitute
    (no footer configuration, a footer switched off, or three slots free of
    the token). *)
Theorem resolveFooterConfig_deterministic (clock1 clock2 : Clock)
    (footer : option FooterConfig.t) (form : FormMetadata.t) :
  (forall slot, clock1 slot = clock2 slot) \/ date_free footer form = true ->
  resolveFooterConfig clock1 footer form = resolveFooterConfig clock2 footer form.
Proof.
  intros Hsame. unfold resolveFooterConfig.
  destruct footer as [f|]; [|reflexivity].
  destruct (FooterConfig.enabled f) as [[|]|] eqn:Henabled; try reflexivity;
    destruct (seed_slots f form) as [[l c] r] eqn:Hseed;
    (assert (Hslots :
       resolveStaticVariables (clock1 slot_left) l form
       = resolveStaticVariables (clock2 slot_left) l form
       /\ resolveStaticVariables (clock1 slot_center) c form
          = resolveStaticVariables (clock2 slot_center) c form
       /\ resolveStaticVariables (clock1 slot_right) r form
          = resolveStaticVariables (clock2 slot_right) r form);
     [ destruct Hsame as [Hclock|Hfree];
       [ now rewrite !Hclock
       | cbn [date_free] in Hfree; rewrite Henabled, Hseed in Hfree;
         apply andb_true_iff in Hfree as [Hlc Hr];
         apply andb_true_iff in Hlc as [Hl Hc];
         auto using resolveStaticVariables_date_free ]
     | destruct Hslots as (-> & -> & ->); reflexivity ]).
Qed.

Lemma resolveFooterConfig_deterministic_witness :
  resolveFooterConfig (on_day "11/3/2026") (Some footer_showDate) form_v2
  = resolveFooterConfig (fun _ => "11/3/2026") (Some footer_showDate) form_v2
  /\ resolveFooterConfig (on_day "11/3/2026") (Some footer_pages_and_title) form_v2
     = resolveFooterConfig (on_day "11/4/2026") (Some footer_pages_and_title) form_v2.
Proof.
  split.
  - apply resolveFooterConfig_deterministic. left. reflexivity.
  - apply resolveFooterConfig_deterministic. right. vm_compute. reflexivity.
Defined.

End FooterProperties.

(** ** Field placement *)

Section FieldPlacement.
Import Js Pdf.

(** C1. A field of logical page 1 gets the absolute [y] "baseline plus
    its [position.y]" and keeps everything else; a field of any other page
    is returned as it is. *)
Theorem adjustFieldPosition_spec (field : NormalizedFormField.t) (baseline : float) :
  let adjusted := adjustFieldPosition field baseline in
  (NormalizedFormField.page field = 1%Z ->
     Position.y (NormalizedFormField.position adjusted)
     = PrimFloat.add baseline (Position.y (NormalizedFormField.position field))
     /\ Position.x (NormalizedFormField.position adjusted)
        = Position.x (NormalizedFormField.position field)
     /\ NormalizedFormField.type adjusted = NormalizedFormField.type field
     /\ NormalizedFormField.page adjusted = NormalizedFormField.page field
     /\ NormalizedFormField.rest adjusted = NormalizedFormField.rest field)
  /\ (NormalizedFormField.page field <> 1%Z -> adjusted = field).
Proof.
  cbn zeta. unfold adjustFieldPosition. split.
  - intros Hone. rewrite Hone. cbn. repeat split.
  - intros Hother. apply Z.eqb_neq in Hother. now rewrite Hother.
Qed.

Lemma adjustFieldPosition_witness :
  Position.y (NormalizedFormField.position
                (adjustFieldPosition (field_on "text" 1 (-50)%float) 700%float))
  = 650%float
  /\ adjustFieldPosition (field_on "text" 2 (-50)%float) 700%float
     = field_on "text" 2 (-50)%float.
Proof.
  split.
  - destruct (adjustFieldPosition_spec (field_on "text" 1 (-50)%float) 700%float)
      as [Hone _].
    destruct (Hone eq_refl) as [Hy _]. rewrite Hy. reflexivity.
  - apply (adjustFieldPosition_spec (field_on "text" 2 (-50)%float) 700%float).
    discriminate.
Defined.

(** *** Reasoning about runs *)

Lemma bind_Ok_inv {A B : Type} (m : M A) (k : A -> M B) (w w' : World) (b : B) :
  bind m k w = Ok b w' -> exists a w1, m w = Ok a w1 /\ k a w1 = Ok b w'.
Proof.
  unfold bind. destruct (m w) as [a w1|w1]; [|discriminate].
  intros Hk. exists a, w1. split; [reflexivity | exact Hk].
Qed.

Section Runs.
Variable extern : list Call -> LayoutContext.t -> Call -> option LayoutContext.t.
Variable serialize : list Call -> list Byte.byte.
Variable clock : Footer.Clock.

Lemma places_ret page field : places extern page field (ret tt).
Proof.
  intros w. cbn. split; [reflexivity|]. split.
  - exists []. now rewrite app_nil_r.
  - intros _. now exists w.
Qed.

Lemma places_warn page field msg : places extern page field (console_warn msg).
Proof.
  intros w. cbn. split; [reflexivity|]. split.
  - exists []. now rewrite app_nil_r.
  - intros _. now eexists.
Qed.

Lemma places_draw page field op : places extern page field (draw extern op page field).
Proof.
  intros w. unfold draw.
  destruct (extern (trace w) (ctx w) (leaf op page field)) as [ctx'|] eqn:Hext; cbn.
  - split; [reflexivity|]. split.
    + exists [leaf op page field]. split; [reflexivity|].
      constructor; [now exists op | constructor].
    + intros _. now eexists.
  - split; [reflexivity|]. split.
    + exists [leaf op page field]. split; [reflexivity|].
      constructor; [now exists op | constructor].
    + intros Htotal. now apply Htotal in Hext.
Qed.

Lemma places_seq page field (m k : M unit) :
  places extern page field m -> places extern page field k ->
  places extern page field (bind m (fun _ => k)).
Proof.
  intros Hm Hk w. unfold bind.
  destruct (Hm w) as (Hctx & (calls & Htrace & Hcalls) & Hok).
  destruct (m w) as [[] w1|w1] eqn:Hmw; cbn in Hctx, Htrace.
  - destruct (Hk w1) as (Hctx1 & (calls1 & Htrace1 & Hcalls1) & Hok1).
    split; [congruence|]. split.
    + exists (calls ++ calls1). split.
      * rewrite Htrace1, Htrace. now rewrite app_assoc.
      * apply Forall_app. now split.
    + intros Htotal. apply Hok1. now rewrite Hctx.
  - cbn. split; [exact Hctx|]. split.
    + now exists calls.
    + intros Htotal. destruct (Hok Htotal) as [w' Hw']. discriminate Hw'.
Qed.

Lemma switch_type_places page field skipLabels :
  places extern page field (switch_type extern page field skipLabels).
Proof.
  unfold switch_type.
  repeat match goal with
         | |- places _ _ _ (if ?c then _ else _) => destruct c
         | |- places _ _ _ (bind _ _) => apply places_seq
         end;
    auto using places_ret, places_warn, places_draw.
Qed.

Lemma addFieldToDocument_run field skipLabels offset (w : World) :
  addFieldToDocument extern field skipLabels offset w
  = switch_type extern
      (page_at (LayoutContext.pages (ctx w))
               (pageIndex field offset (LayoutContext.pages (ctx w))))
      field skipLabels w.
Proof. reflexivity. Qed.

Lemma page_at_last (pages : list PDFPage) :
  pages <> [] ->
  page_at pages (Z.of_nat (List.length pages) - 1) = Some (List.last pages 0%nat).
Proof.
  intros Hne. unfold page_at.
  destruct (Z.ltb_spec (Z.of_nat (List.length pages) - 1) 0) as [Hneg|Hpos].
  - destruct pages; [contradiction | cbn [List.length] in Hneg; lia].
  - replace (Z.to_nat (Z.of_nat (List.length pages) - 1)) with (List.length pages - 1)%nat by lia.
    clear Hpos. induction pages as [|p pages IH]; [contradiction|].
    destruct pages as [|q pages]; [reflexivity|].
    cbn [List.length List.last] in *. rewrite <- IH by discriminate.
    cbn. now rewrite Nat.sub_0_r.
Qed.

(** *** The page of a field *)

(** The first call made for a field of a known type creates its form
    field, on the page looked up. *)
Lemma first_draw op page field (k : M unit) (w : World) :
  places extern page field k ->
  exists more,
    trace (world_of (bind (draw extern op page field) (fun _ => k) w))
    = trace w ++ leaf op page field :: more.
Proof.
  intros Hk. unfold bind, draw.
  destruct (extern (trace w) (ctx w) (leaf op page field)) as [layout|].
  - match goal with |- context [k ?w1] => destruct (Hk w1) as (_ & (calls & Htrace & _) & _) end.
    exists calls. rewrite Htrace. cbn [trace]. now rewrite <- app_assoc.
  - now exists [].
Qed.

Lemma switch_type_first page field skipLabels (w : World) op :
  creator (NormalizedFormField.type field) = Some op ->
  exists more,
    trace (world_of (switch_type extern page field skipLabels w))
    = trace w ++ leaf op page field :: more.
Proof.
  unfold creator, switch_type.
  repeat match goal with
         | |- context [if (?a =? ?b)%string then _ else _] =>
             destruct (a =? b)%string
         end;
    intros Hop; try discriminate Hop; injection Hop as <-;
    apply first_draw; try destruct skipLabels; cbn [negb];
    auto using places_ret, places_draw.
Qed.

Lemma same_page_refl (p : option PDFPage) : same_page p p = true.
Proof. destruct p as [p|]; [apply Nat.eqb_refl | reflexivity]. Qed.

Lemma bind_eq {A B : Type} (m1 m2 : M A) (k1 k2 : A -> M B) (w : World) :
  m1 w = m2 w ->
  (forall a w', m2 w = Ok a w' -> k1 a w' = k2 a w') ->
  bind m1 k1 w = bind m2 k2 w.
Proof.
  unfold bind. intros -> Hk.
  destruct (m2 w) as [a w'|w']; [now apply Hk | reflexivity].
Qed.

Lemma external_checked ok c (w : World) :
  ok (ctx w) c = true ->
  external (checking ok extern) c w = external extern c w.
Proof. intros Hok. unfold external, checking. now rewrite Hok. Qed.

Lemma draw_checked ok op page field (w : World) :
  ok (ctx w) (leaf op page field) = true ->
  draw (checking ok extern) op page field w = draw extern op page field w.
Proof. intros Hok. unfold draw, checking. now rewrite Hok. Qed.

Lemma draw_ctx op page field (w w' : World) :
  draw extern op page field w = Ok tt w' -> ctx w' = ctx w.
Proof.
  unfold draw. destruct (extern (trace w) (ctx w) (leaf op page field));
    [|discriminate]. intros H. now injection H as <-.
Qed.

Lemma switch_type_checked offset page field skipLabels (w : World) :
  (forall op, placed_by offset (ctx w) (leaf op page field) = true) ->
  switch_type (checking (placed_by offset) extern) page field skipLabels w
  = switch_type extern page field skipLabels w.
Proof.
  intros Hpage. unfold switch_type.
  repeat match goal with
         | |- context [if (?a =? ?b)%string then _ else _] =>
             destruct (a =? b)%string
         end;
    try reflexivity;
    (apply bind_eq; [apply draw_checked, Hpage|]);
    intros [] w' Hrun; apply draw_ctx in Hrun;
    try destruct skipLabels; cbn [negb]; try reflexivity;
    apply draw_checked; cbn [placed_by] in *; rewrite Hrun; apply (Hpage createTextField).
Qed.

Lemma addFieldToDocument_checked offset field skipLabels (w : World) :
  addFieldToDocument (checking (placed_by offset) extern) field skipLabels offset w
  = addFieldToDocument extern field skipLabels offset w.
Proof.
  unfold addFieldToDocument, bind, gets. apply switch_type_checked.
  intros op. cbn [placed_by]. unfold pageIndex. apply same_page_refl.
Qed.

Lemma add_fields_checked offset fields baseline skipLabels :
  forall n (w : World),
    add_fields (checking (placed_by offset) extern) fields baseline skipLabels offset n w
    = add_fields extern fields baseline skipLabels offset n w.
Proof.
  induction fields as [|field more IH]; intros n w; [reflexivity|].
  cbn [add_fields]. apply bind_eq; [apply addFieldToDocument_checked|].
  intros _ w' _. apply IH.
Qed.

Lemma generatePdf_checked (schema : ParsedFormSchema.t) (basePath : string) (w : World) :
  let offset :=
    match ParsedFormSchema.coverPage schema with Some _ => 1%Z | None => 0%Z end in
  generatePdf (checking (placed_by offset) extern) serialize clock schema basePath w
  = generatePdf extern serialize clock schema basePath w.
Proof.
  cbn zeta. unfold generatePdf.
  destruct (ParsedFormSchema.coverPage schema) as [cover|]; cbn [pageOffset].
  all: repeat first
         [ apply bind_eq; [|intros ? ? _]
         | apply external_checked; reflexivity
         | apply add_fields_checked
         | match goal with
           | |- (if ?b then _ else _) _ = _ => destruct b
           | |- (match ?o with Some _ => _ | None => _ end) _ = _ => destruct o
           end
         | reflexivity ].
Qed.

(** C2. The page a field is drawn on is
    [pages[min(field.page - 1 + pageOffset, pages.length - 1)]], with a page
    offset of 1 when there is a cover page and 0 otherwise. Every leaf
    drawer called for the field is handed that page, and for a field of
    one of the six known types the first call creates its form field there.
    A logical page at or beyond the last one is clamped to the last physical
    page, which exists, and the lookup itself never throws: the field is
    added without an error unless a leaf drawer throws one. In a run of
    [generatePdf] the offset is the one of the schema: an outside world
    that throws at every drawer call made on another page than the one at
    this index in the layout context of the moment is never told apart from
    the outside world itself. *)
Theorem addFieldToDocument_page (field : NormalizedFormField.t)
    (skipLabels hasCoverPage : bool) (w : World) :
  let pages := LayoutContext.pages (ctx w) in
  let lastPhysicalIndex := (Z.of_nat (List.length pages) - 1)%Z in
  let index :=
    Z.min (NormalizedFormField.page field - 1 + (if hasCoverPage then 1 else 0))
          lastPhysicalIndex in
  let run := addFieldToDocument extern field skipLabels (pageOffset hasCoverPage) w in
  pageIndex field (pageOffset hasCoverPage) pages = index
  /\ (exists calls,
        trace (world_of run) = trace w ++ calls
        /\ Forall (fun c => exists op, c = leaf op (page_at pages index) field) calls
        /\ (forall op, creator (NormalizedFormField.type field) = Some op ->
              exists more, calls = leaf op (page_at pages index) field :: more))
  /\ ((lastPhysicalIndex <= NormalizedFormField.page field - 1
                             + (if hasCoverPage then 1 else 0))%Z ->
      pages <> [] ->
      index = lastPhysicalIndex
      /\ page_at pages index = Some (List.last pages 0%nat))
  /\ ((forall history c, extern history (ctx w) c <> None) ->
      exists w', run = Ok tt w')
  /\ (forall (schema : ParsedFormSchema.t) (basePath : string) (w0 : World),
        let offset :=
          match ParsedFormSchema.coverPage schema with Some _ => 1%Z | None => 0%Z end in
        generatePdf (checking (placed_by offset) extern) serialize clock schema basePath w0
        = generatePdf extern serialize clock schema basePath w0).
Proof.
  cbn zeta. rewrite addFieldToDocument_run.
  destruct (switch_type_places
              (page_at (LayoutContext.pages (ctx w))
                 (pageIndex field (pageOffset hasCoverPage) (LayoutContext.pages (ctx w))))
              field skipLabels w) as (_ & (calls & Htrace & Hcalls) & Hok).
  split; [reflexivity|]. split; [|split; [|split; [exact Hok|]]].
  - exists calls. split; [exact Htrace|]. split; [exact Hcalls|].
    intros op Hop.
    destruct (switch_type_first
                (page_at (LayoutContext.pages (ctx w))
                   (pageIndex field (pageOffset hasCoverPage) (LayoutContext.pages (ctx w))))
                field skipLabels w op Hop) as [more Hfirst].
    exists more. rewrite Htrace in Hfirst. now apply app_inv_head in Hfirst.
  - intros Hbeyond Hpages.
    rewrite Z.min_r by exact Hbeyond.
    split; [reflexivity | now apply page_at_last].
  - intros schema basePath w0. apply generatePdf_checked.
Qed.

(** Along the loop over the fields the drawers are called for the
    adjusted fields of the schema, each on the page looked up for it. *)
Lemma add_fields_pages fields baseline skipLabels offset :
  forall n w,
    let run := add_fields extern fields baseline skipLabels offset n w in
    let pages := LayoutContext.pages (ctx w) in
    ctx (world_of run) = ctx w
    /\ exists calls,
         trace (world_of run) = trace w ++ calls
         /\ Forall (fun c => exists op field,
                      In field fields
                      /\ c = leaf op
                               (page_at pages
                                  (pageIndex (adjustFieldPosition field baseline)
                                     offset pages))
                               (adjustFieldPosition field baseline)) calls.
Proof.
  induction fields as [|field more IH]; intros n w; cbn zeta.
  - cbn. split; [reflexivity|]. exists []. now rewrite app_nil_r.
  - cbn [add_fields]. unfold bind. rewrite addFieldToDocument_run.
    destruct (switch_type_places
                (page_at (LayoutContext.pages (ctx w))
                   (pageIndex (adjustFieldPosition field baseline) offset
                      (LayoutContext.pages (ctx w))))
                (adjustFieldPosition field baseline) skipLabels w)
      as (Hctx & (calls & Htrace & Hcalls) & _).
    destruct (switch_type extern _ _ skipLabels w) as [[] w1|w1];
      cbn [world_of] in Hctx, Htrace |- *.
    + destruct (IH (n + 1)%Z w1) as (Hctx1 & calls1 & Htrace1 & Hcalls1).
      cbn zeta in Hctx1, Htrace1, Hcalls1. rewrite Hctx in Hcalls1.
      split; [congruence|]. exists (calls ++ calls1). split.
      * rewrite Htrace1, Htrace. now rewrite app_assoc.
      * apply Forall_app. split.
        -- eapply Forall_impl; [|exact Hcalls].
           intros c [op ->]. exists op, field. split; [now left | reflexivity].
        -- eapply Forall_impl; [|exact Hcalls1].
           intros c (op & f & Hin & ->). exists op, f. split; [now right | reflexivity].
    + split; [exact Hctx|]. exists calls. split; [exact Htrace|].
      eapply Forall_impl; [|exact Hcalls].
      intros c [op ->]. exists op, field. split; [now left | reflexivity].
Qed.

(** *** Fields of unknown type *)

Lemma switch_type_unknown page field skipLabels (w : World) :
  ~ In (NormalizedFormField.type field) known_field_types ->
  switch_type extern page field skipLabels w
  = Ok tt (warned w ("Unknown field type: " +++ NormalizedFormField.type field)).
Proof.
  intros Hunknown. unfold switch_type, known_field_types in *.
  repeat match goal with
         | |- context [String.eqb ?a ?b] =>
             destruct (String.eqb_spec a b) as [Heq|_];
             [exfalso; apply Hunknown; rewrite Heq; cbn; tauto|]
         end.
  reflexivity.
Qed.

Lemma adjustFieldPosition_type field baseline :
  NormalizedFormField.type (adjustFieldPosition field baseline)
  = NormalizedFormField.type field.
Proof. unfold adjustFieldPosition. now destruct (negb _). Qed.

Lemma same_document_refl (w : World) : same_document w w.
Proof. now split. Qed.

Lemma alike_bind {A B : Type} (RA : A -> A -> Prop) (RB : B -> B -> Prop)
    (m1 m2 : M A) (k1 k2 : A -> M B) (w1 w2 : World) :
  alike RA (m1 w1) (m2 w2) ->
  (forall a b w1' w2', RA a b -> same_document w1' w2' ->
     alike RB (k1 a w1') (k2 b w2')) ->
  alike RB (bind m1 k1 w1) (bind m2 k2 w2).
Proof.
  intros Hm Hk. unfold bind.
  destruct (m1 w1) as [a w1'|w1'], (m2 w2) as [b w2'|w2']; try contradiction.
  - destruct Hm as [Hab Hsame]. now apply Hk.
  - exact Hm.
Qed.

Lemma console_blind_ret {A : Type} (a : A) : console_blind (ret a).
Proof. intros w1 w2 Hsame. now split. Qed.

Lemma console_blind_warn msg : console_blind (console_warn msg).
Proof. intros w1 w2 Hsame. now split. Qed.

Lemma console_blind_gets {A : Type} (f : World -> A) :
  (forall w1 w2, same_document w1 w2 -> f w1 = f w2) -> console_blind (gets f).
Proof. intros Hf w1 w2 Hsame. split; [now apply Hf | exact Hsame]. Qed.

Lemma console_blind_external c : console_blind (external extern c).
Proof.
  intros w1 w2 [Htrace Hctx]. unfold external. rewrite Htrace, Hctx.
  destruct (extern (trace w2) (ctx w2) c); repeat split.
Qed.

Lemma console_blind_draw op page field : console_blind (draw extern op page field).
Proof.
  intros w1 w2 [Htrace Hctx]. unfold draw. rewrite Htrace, Hctx.
  destruct (extern (trace w2) (ctx w2) (leaf op page field));
    repeat split; cbn; congruence.
Qed.

Lemma console_blind_bind {A B : Type} (m : M A) (k : A -> M B) :
  console_blind m -> (forall a, console_blind (k a)) -> console_blind (bind m k).
Proof.
  intros Hm Hk w1 w2 Hsame. apply (alike_bind eq eq); [now apply Hm|].
  intros a b w1' w2' <- Hsame'. now apply Hk.
Qed.

Ltac blind :=
  repeat lazymatch goal with
         | |- console_blind (if ?c then _ else _) => destruct c
         | |- console_blind (match ?c with Some _ => _ | None => _ end) => destruct c
         | |- console_blind (bind _ _) => apply console_blind_bind; [|intros ?]
         | |- console_blind (ret _) => apply console_blind_ret
         | |- console_blind (console_warn _) => apply console_blind_warn
         | |- console_blind (external _ _) => apply console_blind_external
         | |- console_blind (draw _ _ _ _) => apply console_blind_draw
         end.

Lemma console_blind_switch_type page field skipLabels :
  console_blind (switch_type extern page field skipLabels).
Proof. unfold switch_type. blind. Qed.

Lemma console_blind_addFieldToDocument field skipLabels offset :
  console_blind (addFieldToDocument extern field skipLabels offset).
Proof.
  intros w1 w2 Hsame. rewrite !addFieldToDocument_run.
  destruct Hsame as [Htrace Hctx]. rewrite Hctx.
  apply console_blind_switch_type. now split.
Qed.

Lemma add_fields_same_document fields baseline skipLabels offset :
  forall n1 n2 w1 w2, same_document w1 w2 ->
    same_outcome (n1 - n2)
      (add_fields extern fields baseline skipLabels offset n1 w1)
      (add_fields extern fields baseline skipLabels offset n2 w2).
Proof.
  induction fields as [|field more IH]; intros n1 n2 w1 w2 Hsame.
  - cbn. split; [lia | exact Hsame].
  - cbn [add_fields]. apply (alike_bind eq).
    + now apply console_blind_addFieldToDocument.
    + intros _ _ w1' w2' _ Hsame'.
      replace (n1 - n2)%Z with ((n1 + 1) - (n2 + 1))%Z by lia. now apply IH.
Qed.

(** The number of fields a completed loop reports. *)
Lemma add_fields_count fields baseline skipLabels offset :
  forall n w k w',
    add_fields extern fields baseline skipLabels offset n w = Ok k w' ->
    k = (n + Z.of_nat (List.length fields))%Z.
Proof.
  induction fields as [|field more IH]; intros n w k w' Hrun.
  - cbn in Hrun. injection Hrun as <- _. cbn. lia.
  - cbn [add_fields] in Hrun. apply bind_Ok_inv in Hrun as (? & w1 & _ & Hrest).
    apply IH in Hrest. cbn [List.length]. lia.
Qed.

Lemma addFieldToDocument_unknown field skipLabels offset baseline (w : World) :
  ~ In (NormalizedFormField.type field) known_field_types ->
  addFieldToDocument extern (adjustFieldPosition field baseline) skipLabels offset w
  = Ok tt (warned w ("Unknown field type: " +++ NormalizedFormField.type field)).
Proof.
  intros Hunknown. rewrite addFieldToDocument_run, switch_type_unknown.
  - now rewrite adjustFieldPosition_type.
  - now rewrite adjustFieldPosition_type.
Qed.

(** The loop over a list of fields with an unknown one inside, against the
    loop over the list without it. *)
Lemma add_fields_unknown_inside field after baseline skipLabels offset :
  ~ In (NormalizedFormField.type field) known_field_types ->
  forall before n w1 w2, same_document w1 w2 ->
    same_outcome 1
      (add_fields extern (before ++ field :: after) baseline skipLabels offset n w1)
      (add_fields extern (before ++ after) baseline skipLabels offset n w2).
Proof.
  intros Hunknown. induction before as [|f before IH]; intros n w1 w2 Hsame.
  - cbn [app add_fields]. unfold bind at 1.
    rewrite (addFieldToDocument_unknown field skipLabels offset baseline w1 Hunknown).
    pose proof (add_fields_same_document after baseline skipLabels offset (n + 1) n
                  (warned w1 ("Unknown field type: " +++ NormalizedFormField.type field))
                  w2) as Hrest.
    replace (n + 1 - n)%Z with 1%Z in Hrest by lia.
    apply Hrest. destruct Hsame as [Htrace Hctx]. now split.
  - cbn [app add_fields]. apply (alike_bind eq).
    + now apply console_blind_addFieldToDocument.
    + intros _ _ w1' w2' _ Hsame'. now apply IH.
Qed.

(** A whole run on a schema with a field of unknown type, against the run
    on the schema without that field. *)
Lemma generatePdf_unknown_field schema basePath field before after (w1 w2 : World) :
  ~ In (NormalizedFormField.type field) known_field_types ->
  ParsedFormSchema.fields schema = before ++ field :: after ->
  same_document w1 w2 ->
  alike one_field_more
    (generatePdf extern serialize clock schema basePath w1)
    (generatePdf extern serialize clock (with_fields schema (before ++ after)) basePath w2).
Proof.
  intros Hunknown Hfields Hsame. unfold generatePdf. cbn zeta.
  cbn [with_fields ParsedFormSchema.form ParsedFormSchema.coverPage
       ParsedFormSchema.footer ParsedFormSchema.content ParsedFormSchema.fields].
  rewrite Hfields.
  repeat lazymatch goal with
         | |- alike _ (bind (add_fields _ _ _ _ _ _) _ _) _ =>
             apply (alike_bind (fun a b => a = (b + 1)%Z));
             [ now apply add_fields_unknown_inside
             | clear w1 w2 Hsame; intros count count' w1 w2 Hcount Hsame ]
         | |- alike _ (bind (gets _) _ _) _ =>
             apply (alike_bind eq);
             [ apply console_blind_gets; [|exact Hsame];
               intros ? ? [Htrace Hctx]; now rewrite ?Htrace, ?Hctx
             | clear w1 w2 Hsame; intros ? ? w1 w2 <- Hsame ]
         | |- alike _ (bind ?m _ _) _ =>
             apply (alike_bind eq);
             [ apply (fun H : console_blind m => H w1 w2 Hsame); blind
             | clear w1 w2 Hsame; intros ? ? w1 w2 <- Hsame ]
         end.
  split; [|exact Hsame]. subst count. repeat split.
Qed.

(** C8. A field whose type is none of the six known ones only has a
    warning logged: no drawer is called and the document and the layout are
    untouched. The loop over the fields goes on with the remaining fields,
    and it ends as it would have ended without the unknown field (returning
    or throwing alike, on the same document). So does the whole generation
    run: it returns or throws as the run on the schema without the field
    does, with the same bytes and pages: the unknown type does not make it
    fail. *)
Theorem unknown_field_type_skipped (field : NormalizedFormField.t)
    (skipLabels : bool) (offset : Z) (baseline : float) (w : World) :
  ~ In (NormalizedFormField.type field) known_field_types ->
  let msg := "Unknown field type: " +++ NormalizedFormField.type field in
  addFieldToDocument extern field skipLabels offset w = Ok tt (warned w msg)
  /\ (forall more n,
        add_fields extern (field :: more) baseline skipLabels offset n w
        = add_fields extern more baseline skipLabels offset (n + 1) (warned w msg))
  /\ (forall more n,
        same_outcome 1
          (add_fields extern (field :: more) baseline skipLabels offset n w)
          (add_fields extern more baseline skipLabels offset n w))
  /\ (forall schema basePath before after,
        ParsedFormSchema.fields schema = before ++ field :: after ->
        alike one_field_more
          (generatePdf extern serialize clock schema basePath w)
          (generatePdf extern serialize clock
             (with_fields schema (before ++ after)) basePath w)).
Proof.
  intros Hunknown msg.
  assert (Hloop : forall more n,
            add_fields extern (field :: more) baseline skipLabels offset n w
            = add_fields extern more baseline skipLabels offset (n + 1) (warned w msg)).
  { intros more n. cbn [add_fields]. unfold bind.
    now rewrite (addFieldToDocument_unknown field skipLabels offset baseline w Hunknown). }
  split; [|split; [exact Hloop|split]].
  - rewrite addFieldToDocument_run. now apply switch_type_unknown.
  - intros more n.
    apply (add_fields_unknown_inside field more baseline skipLabels offset Hunknown
             [] n w w (same_document_refl w)).
  - intros schema basePath before after Hfields.
    apply (generatePdf_unknown_field schema basePath field before after w w
             Hunknown Hfields (same_document_refl w)).
Qed.

(** *** The reported field count *)

Lemma total_ret {A : Type} (a : A) : total (ret a).
Proof. intros w. now exists a, w. Qed.

Lemma total_gets {A : Type} (f : World -> A) : total (gets f).
Proof. intros w. now exists (f w), w. Qed.

Lemma total_warn msg : total (console_warn msg).
Proof. intros w. now eexists _, _. Qed.

Lemma total_bind {A B : Type} (m : M A) (k : A -> M B) :
  total m -> (forall a, total (k a)) -> total (bind m k).
Proof.
  intros Hm Hk w. unfold bind. destruct (Hm w) as (a & w1 & ->). apply Hk.
Qed.

Section NoThrow.
Hypothesis extern_returns : forall history c layout, extern history layout c <> None.

Lemma total_external c : total (external extern c).
Proof.
  intros w. unfold external.
  destruct (extern (trace w) (ctx w) c) eqn:Hext; [now eexists _, _|].
  now apply extern_returns in Hext.
Qed.

Lemma total_draw op page field : total (draw extern op page field).
Proof.
  intros w. unfold draw.
  destruct (extern (trace w) (ctx w) (leaf op page field)) eqn:Hext; [now eexists _, _|].
  now apply extern_returns in Hext.
Qed.

Lemma total_switch_type page field skipLabels :
  total (switch_type extern page field skipLabels).
Proof.
  unfold switch_type.
  repeat match goal with
         | |- total (if ?c then _ else _) => destruct c
         | |- total (bind _ _) => apply total_bind; [|intros _]
         end;
    auto using total_ret, total_warn, total_draw.
Qed.

Lemma total_add_fields fields baseline skipLabels offset :
  forall n, total (add_fields extern fields baseline skipLabels offset n).
Proof.
  induction fields as [|field more IH]; intros n; cbn [add_fields].
  - apply total_ret.
  - apply total_bind; [|intros _; apply IH].
    unfold addFieldToDocument. apply total_bind; [apply total_gets|].
    intros pages. apply total_switch_type.
Qed.

Lemma total_generatePdf schema basePath :
  total (generatePdf extern serialize clock schema basePath).
Proof.
  unfold generatePdf. cbn zeta.
  repeat match goal with
         | |- total (bind _ _) => apply total_bind; [|intros ?]
         | |- total (if ?c then _ else _) => destruct c
         | |- total (match ?c with Some _ => _ | None => _ end) => destruct c
         end;
    auto using total_ret, total_gets, total_external, total_add_fields.
Qed.

End NoThrow.

(** C10. The [fieldCount] a generation run returns is the number of
    entries of [schema.fields], whatever their types: a field of unknown
    type, which is skipped when drawing, is counted like the others. A run
    returns whenever none of the calls it makes throws. *)
Theorem generatePdf_fieldCount (schema : ParsedFormSchema.t) (basePath : string)
    (w : World) :
  (forall pdf w',
     generatePdf extern serialize clock schema basePath w = Ok pdf w' ->
     GeneratedPdf.fieldCount pdf
     = Z.of_nat (List.length (ParsedFormSchema.fields schema)))
  /\ ((forall history c layout, extern history layout c <> None) ->
      exists pdf w', generatePdf extern serialize clock schema basePath w = Ok pdf w').
Proof.
  split; [|intros Hreturns; now apply total_generatePdf].
  intros pdf w' Hrun. unfold generatePdf in Hrun. cbn zeta in Hrun.
  repeat (apply bind_Ok_inv in Hrun as (? & ? & ? & Hrun)).
  injection Hrun as <- _. cbn [GeneratedPdf.fieldCount].
  match goal with
  | Hloop : add_fields _ _ _ _ _ _ _ = Ok _ _ |- _ =>
      apply add_fields_count in Hloop; rewrite Hloop; lia
  end.
Qed.

End Runs.

End FieldPlacement.

(** *** Concrete runs *)

Section FieldPlacementRuns.
Import Js Pdf.

Lemma extern_accepting_returns history c layout :
  extern_accepting history layout c <> None.
Proof. destruct c; discriminate. Qed.

Lemma addFieldToDocument_page_witness :
  pageIndex (field_on "text" 99 10%float) (pageOffset false) [0; 1]%nat = 1%Z
  /\ page_at [0; 1]%nat 1 = Some 1%nat
  /\ (exists w',
        addFieldToDocument extern_accepting (field_on "text" 99 10%float) false
          (pageOffset false) two_pages = Ok tt w')
  /\ (exists more,
        trace (world_of (addFieldToDocument extern_accepting (field_on "text" 99 10%float)
                           false (pageOffset false) two_pages))
        = leaf createTextField (Some 1%nat) (field_on "text" 99 10%float) :: more)
  /\ generatePdf (checking (placed_by 1) extern_accepting) no_bytes (on_day "11/3/2026")
       schema_with_cover "/forms" start
     = generatePdf extern_accepting no_bytes (on_day "11/3/2026")
         schema_with_cover "/forms" start.
Proof.
  destruct (addFieldToDocument_page extern_accepting no_bytes (on_day "11/3/2026")
              (field_on "text" 99 10%float) false false two_pages)
    as (Hindex & (calls & Htrace & _ & Hfirst) & Hclamp & Hok & Hoffset).
  split; [exact Hindex|]. split; [|split; [|split]].
  - apply Hclamp; [cbn; lia | discriminate].
  - apply Hok. intros history c. apply extern_accepting_returns.
  - destruct (Hfirst createTextField eq_refl) as [more Hmore].
    exists more. rewrite Htrace, Hmore. reflexivity.
  - apply (Hoffset schema_with_cover "/forms" start).
Defined.

Lemma unknown_field_type_skipped_witness :
  addFieldToDocument extern_accepting (field_on "barcode" 1 (-80)%float) false 0 two_pages
  = Ok tt (warned two_pages "Unknown field type: barcode")
  /\ alike one_field_more
       (generatePdf extern_accepting no_bytes (on_day "11/3/2026")
          schema_with_unknown "/forms" start)
       (generatePdf extern_accepting no_bytes (on_day "11/3/2026")
          (with_fields schema_with_unknown
             ([field_on "text" 1 (-50)%float] ++ [field_on "checkbox" 1 (-110)%float]))
          "/forms" start).
Proof.
  assert (Hunknown : ~ In (NormalizedFormField.type (field_on "barcode" 1 (-80)%float))
                          known_field_types).
  { cbn. intros [H|[H|[H|[H|[H|[H|[]]]]]]]; discriminate H. }
  split.
  - apply (unknown_field_type_skipped extern_accepting no_bytes (on_day "11/3/2026")
             (field_on "barcode" 1 (-80)%float) false 0 700%float two_pages Hunknown).
  - apply (unknown_field_type_skipped extern_accepting no_bytes (on_day "11/3/2026")
             (field_on "barcode" 1 (-80)%float) false 0 700%float start Hunknown).
    reflexivity.
Defined.

Lemma generatePdf_fieldCount_witness :
  exists pdf w',
    generatePdf extern_accepting no_bytes (on_day "11/3/2026") schema_with_unknown "/forms" start
    = Ok pdf w'
    /\ GeneratedPdf.fieldCount pdf = 3%Z.
Proof.
  destruct (generatePdf_fieldCount extern_accepting no_bytes (on_day "11/3/2026")
              schema_with_unknown "/forms" start) as [Hcount Hreturns].
  destruct (Hreturns extern_accepting_returns) as (pdf & w' & Hrun).
  exists pdf, w'. split; [exact Hrun|]. now apply Hcount in Hrun.
Defined.

Example generatePdf_run :
  match generatePdf extern_accepting no_bytes (on_day "11/3/2026") schema_with_unknown "/forms" start with
  | Ok pdf w' =>
      GeneratedPdf.fieldCount pdf = 3%Z
      /\ GeneratedPdf.pageCount pdf = 1%Z
      /\ console w' = ["Unknown field type: barcode"]
      /\ List.length (trace w') = 15%nat
  | Thrown _ => False
  end.
Proof. vm_compute. repeat split. Qed.

End FieldPlacementRuns.

(** ** Text wrapping *)

Section WrapProperties.
Import Js Wrap.

Lemma split_space_not_nil (s : string) : split_space s <> [].
Proof.
  induction s as [|c s IH]; cbn; [discriminate|].
  destruct (Ascii.eqb c space); [discriminate|].
  destruct (split_space s); discriminate.
Qed.

Lemma split_space_app (a b : string) :
  split_space (a +++ " " +++ b) = split_space a ++ split_space b.
Proof.
  induction a as [|c a IH]; [reflexivity|].
  cbn [String.append split_space]. cbn [String.append] in IH. rewrite IH.
  destruct (Ascii.eqb c space); [reflexivity|].
  pose proof (split_space_not_nil a) as Hne.
  destruct (split_space a); [contradiction | reflexivity].
Qed.

Lemma split_space_word (w : string) :
  has_char space w = false -> split_space w = [w].
Proof.
  induction w as [|c w IH]; [reflexivity|].
  cbn [has_char split_space]. intros Hfree.
  apply orb_false_iff in Hfree as [Hc Hw]. rewrite Hc, (IH Hw). reflexivity.
Qed.

Lemma split_space_no_space (s w : string) :
  In w (split_space s) -> has_char space w = false.
Proof.
  revert w. induction s as [|c s IH]; cbn [split_space]; intros w Hin.
  - destruct Hin as [<-|[]]. reflexivity.
  - destruct (Ascii.eqb c space) eqn:Hc.
    + destruct Hin as [<-|Hin]; [reflexivity | now apply IH].
    + destruct (split_space s) as [|w0 ws].
      * destruct Hin as [<-|[]]. cbn. now rewrite Hc.
      * destruct Hin as [<-|Hin].
        -- cbn. rewrite Hc. apply IH. now left.
        -- apply IH. now right.
Qed.

Lemma join_split_space (s : string) : join " " (split_space s) = s.
Proof.
  induction s as [|c s IH]; [reflexivity|].
  cbn [split_space]. pose proof (split_space_not_nil s) as Hne.
  destruct (Ascii.eqb_spec c space) as [->|Hc].
  - destruct (split_space s) as [|w ws]; [contradiction|].
    cbn [join String.append] in *. now rewrite IH.
  - destruct (split_space s) as [|w ws]; [contradiction|].
    destruct ws as [|w' ws]; cbn [join String.append] in *; now rewrite IH.
Qed.

Lemma split_space_join (lines : list string) :
  lines <> [] ->
  split_space (join " " lines) = List.concat (map split_space lines).
Proof.
  induction lines as [|l lines IH]; [contradiction|]. intros _.
  destruct lines as [|l' lines].
  - cbn. now rewrite app_nil_r.
  - change (join " " (l :: l' :: lines)) with (l +++ " " +++ join " " (l' :: lines)).
    rewrite split_space_app, IH by discriminate. reflexivity.
Qed.

Lemma words_of_join (lines : list string) :
  words_of (join " " lines) = filter truthy (List.concat (map split_space lines)).
Proof.
  unfold words_of. destruct lines as [|l lines]; [reflexivity|].
  now rewrite split_space_join by discriminate.
Qed.

Lemma wrap_step_flat (maxWidth fontSize : float) (st : list string * string)
    (word : string) :
  has_char space word = false ->
  flat (wrap_step maxWidth fontSize st word) = flat st ++ [word]
  \/ (word = EmptyString /\ flat (wrap_step maxWidth fontSize st word) = flat st).
Proof.
  intros Hword. destruct st as [lines cur]. unfold wrap_step.
  destruct cur as [|c cur]; cbn [truthy].
  - rewrite andb_false_r. unfold flat; cbn [fst snd truthy].
    destruct word as [|d word]; cbn [truthy].
    + right. now split.
    + left. now rewrite (split_space_word _ Hword), app_nil_r.
  - rewrite andb_true_r.
    destruct (gt (estimateTextWidth (String c cur +++ " " +++ word) fontSize) maxWidth).
    + unfold flat; cbn [fst snd truthy].
      rewrite map_app, concat_app. cbn [map List.concat]. rewrite app_nil_r.
      destruct word as [|d word]; cbn [truthy].
      * right. split; [reflexivity|]. now rewrite app_nil_r.
      * left. now rewrite (split_space_word _ Hword).
    + left. unfold flat; cbn [fst snd].
      assert (Hline : truthy (String c cur +++ " " +++ word) = true) by reflexivity.
      rewrite Hline, split_space_app, (split_space_word _ Hword). cbn [truthy].
      now rewrite app_assoc.
Qed.

Lemma wrap_loop_cons (maxWidth fontSize : float) (word : string)
    (words : list string) (st : list string * string) :
  wrap_loop maxWidth fontSize (word :: words) st
  = wrap_loop maxWidth fontSize words (wrap_step maxWidth fontSize st word).
Proof. reflexivity. Qed.

Lemma wrap_loop_flat (maxWidth fontSize : float) (words : list string) :
  Forall (fun w => has_char space w = false) words ->
  forall st,
    filter truthy (flat (wrap_loop maxWidth fontSize words st))
    = filter truthy (flat st) ++ filter truthy words
    /\ (forallb truthy words = true ->
        flat (wrap_loop maxWidth fontSize words st) = flat st ++ words).
Proof.
  induction 1 as [|word words Hword _ IH]; intros st.
  - cbn. now rewrite !app_nil_r.
  - rewrite wrap_loop_cons. cbn [forallb].
    destruct (IH (wrap_step maxWidth fontSize st word)) as [IHall IHtrue].
    destruct (wrap_step_flat maxWidth fontSize st word Hword) as [Hstep|[-> Hstep]].
    + split.
      * rewrite IHall, Hstep, filter_app, <- app_assoc.
        change (word :: words) with ([word] ++ words). now rewrite filter_app.
      * intros Htrue. apply andb_true_iff in Htrue as [_ Htrue].
        rewrite (IHtrue Htrue), Hstep, <- app_assoc. reflexivity.
    + split.
      * rewrite IHall, Hstep. reflexivity.
      * cbn. discriminate.
Qed.

Lemma split_space_words (text : string) :
  Forall (fun w => has_char space w = false) (split_space text).
Proof. apply Forall_forall. intros w. apply split_space_no_space. Qed.

Lemma wrapText_flat (text : string) (maxWidth fontSize : float) :
  List.concat (map split_space (wrapText text maxWidth fontSize))
  = flat (wrap_loop maxWidth fontSize (split_space text) ([], EmptyString)).
Proof.
  unfold wrapText, flat.
  destruct (wrap_loop maxWidth fontSize (split_space text) ([], EmptyString)) as [lines cur].
  cbn [fst snd]. destruct (truthy cur).
  - rewrite map_app, concat_app. cbn. now rewrite app_nil_r.
  - now rewrite app_nil_r.
Qed.

Lemma wrapText_words (text : string) (maxWidth fontSize : float) :
  words_of (join " " (wrapText text maxWidth fontSize)) = words_of text.
Proof.
  rewrite words_of_join, wrapText_flat.
  destruct (wrap_loop_flat maxWidth fontSize (split_space text) (split_space_words text)
              ([], EmptyString)) as [Hall _].
  exact Hall.
Qed.

Lemma wrapText_join_exact (text : string) (maxWidth fontSize : float) :
  forallb truthy (split_space text) = true ->
  join " " (wrapText text maxWidth fontSize) = text.
Proof.
  intros Htrue.
  destruct (wrap_loop_flat maxWidth fontSize (split_space text) (split_space_words text)
              ([], EmptyString)) as [_ Hexact].
  specialize (Hexact Htrue). rewrite <- wrapText_flat in Hexact. cbn in Hexact.
  assert (Hlines : wrapText text maxWidth fontSize <> []).
  { intros Hnil. rewrite Hnil in Hexact. cbn in Hexact.
    symmetry in Hexact. now apply split_space_not_nil in Hexact. }
  rewrite <- (split_space_join _ Hlines) in Hexact.
  apply (f_equal (join " ")) in Hexact.
  now rewrite !join_split_space in Hexact.
Qed.

Lemma concat_words_of (lines : list string) :
  List.concat (map words_of lines)
  = filter truthy (List.concat (map split_space lines)).
Proof.
  induction lines as [|l lines IH]; [reflexivity|].
  cbn [map List.concat]. now rewrite filter_app, IH.
Qed.

(** *** Widths *)

Lemma wrap_step_ok (maxWidth fontSize : float) (words : list string)
    (lines : list string) (cur word : string) :
  In word words ->
  Forall (line_ok maxWidth fontSize words) lines ->
  current_ok maxWidth fontSize words cur ->
  Forall (line_ok maxWidth fontSize words)
         (fst (wrap_step maxWidth fontSize (lines, cur) word))
  /\ current_ok maxWidth fontSize words
       (snd (wrap_step maxWidth fontSize (lines, cur) word)).
Proof.
  intros Hword Hlines Hcur. unfold wrap_step.
  destruct (truthy cur) eqn:Htruthy.
  - rewrite andb_true_r.
    destruct (gt (estimateTextWidth (cur +++ " " +++ word) fontSize) maxWidth) eqn:Hwide;
      cbn [fst snd].
    + split.
      * apply Forall_app. split; [exact Hlines|].
        constructor; [|constructor]. split; [exact Htruthy | now apply Hcur].
      * intros _ _. exact Hword.
    + split; [exact Hlines|]. intros _ Hwide'. congruence.
  - rewrite andb_false_r. cbn [fst snd]. split; [exact Hlines|].
    intros _ _. exact Hword.
Qed.

Lemma wrap_loop_ok (maxWidth fontSize : float) (words : list string) :
  forall (todo : list string) (lines : list string) (cur : string),
    incl todo words ->
    Forall (line_ok maxWidth fontSize words) lines ->
    current_ok maxWidth fontSize words cur ->
    Forall (line_ok maxWidth fontSize words)
           (fst (wrap_loop maxWidth fontSize todo (lines, cur)))
    /\ current_ok maxWidth fontSize words
         (snd (wrap_loop maxWidth fontSize todo (lines, cur))).
Proof.
  induction todo as [|word todo IH]; intros lines cur Hincl Hlines Hcur.
  - now split.
  - rewrite wrap_loop_cons.
    destruct (wrap_step_ok maxWidth fontSize words lines cur word) as [Hlines' Hcur'];
      [apply Hincl; now left | exact Hlines | exact Hcur |].
    destruct (wrap_step maxWidth fontSize (lines, cur) word) as [lines' cur'].
    apply IH; [|exact Hlines'|exact Hcur'].
    intros w Hw. apply Hincl. now right.
Qed.

Lemma wrapText_lines_ok (text : string) (maxWidth fontSize : float) :
  Forall (line_ok maxWidth fontSize (split_space text))
         (wrapText text maxWidth fontSize).
Proof.
  unfold wrapText.
  destruct (wrap_loop_ok maxWidth fontSize (split_space text) (split_space text)
              [] EmptyString) as [Hlines Hcur].
  - apply incl_refl.
  - constructor.
  - intros Hempty. discriminate Hempty.
  - destruct (wrap_loop maxWidth fontSize (split_space text) ([], EmptyString))
      as [lines cur].
    cbn [fst snd] in *. destruct (truthy cur) eqn:Htruthy; [|exact Hlines].
    apply Forall_app. split; [exact Hlines|].
    constructor; [|constructor]. split; [exact Htruthy | now apply Hcur].
Qed.

Lemma wrapText_nil (maxWidth fontSize : float) :
  wrapText EmptyString maxWidth fontSize = [].
Proof.
  unfold wrapText. cbn [split_space wrap_loop fold_left wrap_step truthy].
  now rewrite andb_false_r.
Qed.

(** C5. Wrapping the empty string gives no line at all, not one empty
    line, whatever the width and the font size. *)
Theorem wrapText_empty (maxWidth fontSize : float) :
  wrapText EmptyString maxWidth fontSize = []
  /\ wrapText EmptyString maxWidth fontSize <> [EmptyString].
Proof. rewrite wrapText_nil. split; [reflexivity | discriminate]. Qed.

(** The cases of the unit tests of [wrapText]. *)
Example wrapText_wraps_long_text :
  wrapText "This is a long sentence that should be wrapped into multiple lines"
           100%float 12%float
  = ["This is a long"; "sentence that"; "should be"; "wrapped into"; "multiple lines"].
Proof. vm_compute. reflexivity. Qed.

Example wrapText_keeps_short_text :
  wrapText "Short" 200%float 12%float = ["Short"].
Proof. vm_compute. reflexivity. Qed.

Example wrapText_wide_word_alone :
  wrapText "a extraordinarily b" 30%float 12%float = ["a"; "extraordinarily"; "b"].
Proof. vm_compute. reflexivity. Qed.

Example wrapText_keeps_double_space :
  wrapText "a  b" 100%float 12%float = ["a  b"]
  /\ wrapText "a  b" 10%float 12%float = ["a"; "b"].
Proof. split; vm_compute; reflexivity. Qed.

(** *** The claim on the concatenation of the lines *)

(** C4, as the specification states it, fails on a text with two spaces
    in a row: when the text fits on one line the two spaces are kept, so
    the concatenation is not the normalized text; when the line is broken
    between them they are lost. The concatenation of the lines is therefore
    no function of the text alone. *)
Lemma wrapText_join_not_normalized :
  join " " (wrapText "a  b" 100%float 12%float) <> spec_whitespace_normalize "a  b"
  /\ join " " (wrapText "a  b" 100%float 12%float)
     <> join " " (wrapText "a  b" 10%float 12%float).
Proof. split; vm_compute; discriminate. Qed.

(** C4, amended. Concatenating the lines with single spaces reproduces the
    text up to its runs of spaces: both have the same non-empty
    space-delimited words in the same order, each word lying whole inside
    one line, so they are equal once runs of spaces are collapsed and the
    outer spaces removed; the concatenation is the text itself when the text
    is empty or has no leading, trailing or repeated space. No line is
    empty, and a line whose estimated width exceeds [maxWidth] is a single
    word of the text. *)
Theorem wrapText_spec (text : string) (maxWidth fontSize : float) :
  let lines := wrapText text maxWidth fontSize in
  collapse_spaces (join " " lines) = collapse_spaces text
  /\ List.concat (map words_of lines) = words_of text
  /\ (text = EmptyString \/ forallb truthy (split_space text) = true ->
      join " " lines = text)
  /\ (forall line, In line lines ->
        line <> EmptyString
        /\ (gt (estimateTextWidth line fontSize) maxWidth = true ->
            In line (split_space text) /\ has_char space line = false)).
Proof.
  cbn zeta. split; [|split; [|split]].
  - unfold collapse_spaces. now rewrite wrapText_words.
  - rewrite concat_words_of, <- words_of_join. apply wrapText_words.
  - intros [->|Hwords].
    + now rewrite wrapText_nil.
    + now apply wrapText_join_exact.
  - intros line Hline.
    pose proof (wrapText_lines_ok text maxWidth fontSize) as Hok.
    rewrite Forall_forall in Hok. destruct (Hok line Hline) as [Htruthy Hwide].
    split; [now apply truthy_true_iff|].
    intros Hgt. specialize (Hwide Hgt). split; [exact Hwide|].
    now apply (split_space_no_space text).
Qed.

Lemma wrapText_spec_witness :
  join " " (wrapText "fill in the form" 60%float 12%float) = "fill in the form"
  /\ forall line, In line (wrapText "a extraordinarily b" 30%float 12%float) ->
       gt (estimateTextWidth line 12%float) 30%float = true ->
       In line ["a"; "extraordinarily"; "b"].
Proof.
  split.
  - destruct (wrapText_spec "fill in the form" 60%float 12%float)
      as (_ & _ & Hexact & _).
    apply Hexact. right. reflexivity.
  - intros line Hline Hwide.
    destruct (wrapText_spec "a extraordinarily b" 30%float 12%float)
      as (_ & _ & _ & Hlines).
    destruct (Hlines line Hline) as [_ Hword]. now apply Hword.
Defined.

End WrapProperties.

(** ** Escaping in the HTML cover page *)

Section HtmlProperties.
Import Js Html.

(** *** [escapeHtml] *)

Lemma keep_app (p : ascii -> bool) (a b : string) :
  keep p (a +++ b) = keep p a +++ keep p b.
Proof.
  induction a as [|c a IH]; [reflexivity|].
  cbn [String.append keep]. destruct (p c); cbn [String.append]; now rewrite IH.
Qed.

Lemma escape_char_cases (c : ascii) :
  (c = "&"%char /\ escape_char c = "&amp;")
  \/ (c = "<"%char /\ escape_char c = "&lt;")
  \/ (c = ">"%char /\ escape_char c = "&gt;")
  \/ (c = "034"%char /\ escape_char c = "&quot;")
  \/ (c = "'"%char /\ escape_char c = "&#039;")
  \/ (Ascii.eqb c "&" = false /\ is_markup c = false
      /\ escape_char c = String c EmptyString).
Proof.
  unfold escape_char, is_markup.
  destruct (Ascii.eqb_spec c "&") as [->|_]; [now left|].
  destruct (Ascii.eqb_spec c "<") as [->|_]; [now right; left|].
  destruct (Ascii.eqb_spec c ">") as [->|_]; [now right; right; left|].
  destruct (Ascii.eqb_spec c "034") as [->|_]; [now right; right; right; left|].
  destruct (Ascii.eqb_spec c "'") as [->|_]; [now right; right; right; right; left|].
  right; right; right; right; right. repeat split.
Qed.

Lemma markup_of_escape_char (c : ascii) : markup_of (escape_char c) = EmptyString.
Proof.
  destruct (escape_char_cases c)
    as [[-> ->]|[[-> ->]|[[-> ->]|[[-> ->]|[[-> ->]|(_ & Hc & ->)]]]]];
    try reflexivity.
  unfold markup_of. cbn [keep]. now rewrite Hc.
Qed.

Lemma markup_of_escapeHtml (text : string) : markup_of (escapeHtml text) = EmptyString.
Proof.
  induction text as [|c text IH]; [reflexivity|].
  cbn [escapeHtml]. unfold markup_of in *.
  rewrite keep_app, IH. fold (markup_of (escape_char c)).
  now rewrite markup_of_escape_char.
Qed.

Lemma prefix_nil (s : string) : String.prefix EmptyString s = true.
Proof. now destruct s. Qed.

Lemma amp_escaped_escapeHtml (text : string) : amp_escaped (escapeHtml text) = true.
Proof.
  induction text as [|c text IH]; [reflexivity|].
  cbn [escapeHtml].
  destruct (escape_char_cases c)
    as [[-> ->]|[[-> ->]|[[-> ->]|[[-> ->]|[[-> ->]|(Hamp & _ & ->)]]]]];
    cbn [String.append amp_escaped]; unfold entity_follows; cbn;
    rewrite ?Hamp, ?prefix_nil; exact IH.
Qed.

Lemma escapeHtml_app (a b : string) :
  escapeHtml (a +++ b) = escapeHtml a +++ escapeHtml b.
Proof.
  induction a as [|c a IH]; [reflexivity|].
  cbn [String.append escapeHtml]. now rewrite IH, append_assoc.
Qed.

(** *** The rendered cover page *)

Lemma keep_escapeHtml (text : string) : keep is_markup (escapeHtml text) = EmptyString.
Proof. apply markup_of_escapeHtml. Qed.

Lemma truthy_redact (s : string) : truthy (redact s) = truthy s.
Proof. now destruct s. Qed.

Lemma truthy_opt_redact (o : option string) : truthy_opt (redact_opt o) = truthy_opt o.
Proof. destruct o as [s|]; [apply truthy_redact | reflexivity]. Qed.

Lemma metaFields_redact (formMeta : FormMetadata.t) (coverPage : CoverPage.t) :
  metaFields (redact_form formMeta) (redact_cover coverPage)
  = map redact_field (metaFields formMeta coverPage).
Proof. reflexivity. Qed.

Lemma present_redact (entries : list (string * option string)) :
  present (map redact_field entries) = map redact_value (present entries).
Proof.
  induction entries as [|[label [value|]] entries IH]; [reflexivity| |exact IH].
  cbn [map redact_field fst snd redact_opt option_map present].
  rewrite truthy_redact. destruct (truthy value); [|exact IH].
  cbn [map]. now rewrite IH.
Qed.

Lemma filter_Boolean_redact (xs : list (option string)) :
  filter_Boolean (map redact_opt xs) = map redact (filter_Boolean xs).
Proof.
  induction xs as [|[s|] xs IH]; [reflexivity| |exact IH].
  cbn [map redact_opt option_map filter_Boolean].
  rewrite truthy_redact. destruct (truthy s); [|exact IH].
  cbn [map]. now rewrite IH.
Qed.

(** The markup of a joined list does not change when its items are
    replaced by items with the same markup. *)
Lemma keep_join_map {A : Type} (p : ascii -> bool) (sep : string)
    (f : A -> string) (h : A -> A) (l : list A) :
  (forall a, keep p (f (h a)) = keep p (f a)) ->
  keep p (join sep (map f (map h l))) = keep p (join sep (map f l)).
Proof.
  intros Hsame. induction l as [|a l IH]; [reflexivity|].
  destruct l as [|b l]; [apply Hsame|].
  change (keep p (f (h a) +++ sep +++ join sep (map f (map h (b :: l))))
          = keep p (f a +++ sep +++ join sep (map f (b :: l)))).
  now rewrite !keep_app, Hsame, IH.
Qed.

Lemma truthy_join_map {A : Type} (sep : string) (f : A -> string) (l : list A) :
  (forall a, truthy (f a) = true) ->
  truthy (join sep (map f l)) = match l with [] => false | _ :: _ => true end.
Proof.
  intros Hf. destruct l as [|a [|b l]]; [reflexivity | apply Hf |].
  cbn [map join]. specialize (Hf a). now destruct (f a).
Qed.

Ltac same_markup :=
  unfold markup_of; rewrite ?keep_app, ?keep_escapeHtml; reflexivity.

Ltac optional_piece :=
  unfold markup_of, redact_cover;
  cbn [CoverPage.coverImage CoverPage.watermark CoverPage.logo CoverPage.subtitle];
  rewrite truthy_opt_redact;
  match goal with
  | |- context [truthy_opt ?o] => destruct (truthy_opt o)
  end; same_markup.

Lemma markup_coverImageStyle (coverPage : CoverPage.t) :
  markup_of (coverImageStyle (redact_cover coverPage))
  = markup_of (coverImageStyle coverPage).
Proof. unfold coverImageStyle. optional_piece. Qed.

Lemma markup_watermarkHtml (coverPage : CoverPage.t) :
  markup_of (watermarkHtml (redact_cover coverPage))
  = markup_of (watermarkHtml coverPage).
Proof. unfold watermarkHtml. optional_piece. Qed.

Lemma markup_logoHtml (coverPage : CoverPage.t) :
  markup_of (logoHtml (redact_cover coverPage)) = markup_of (logoHtml coverPage).
Proof. unfold logoHtml. optional_piece. Qed.

Lemma markup_subtitleHtml (coverPage : CoverPage.t) :
  markup_of (subtitleHtml (redact_cover coverPage))
  = markup_of (subtitleHtml coverPage).
Proof. unfold subtitleHtml. optional_piece. Qed.

Lemma markup_titleHtml (formMeta : FormMetadata.t) :
  markup_of (titleHtml (redact_form formMeta)) = markup_of (titleHtml formMeta).
Proof. unfold titleHtml. same_markup. Qed.

Lemma list_case_map {A B : Type} (h : A -> A) (l : list A) (nil_case cons_case : B) :
  match map h l with [] => nil_case | _ :: _ => cons_case end
  = match l with [] => nil_case | _ :: _ => cons_case end.
Proof. now destruct l. Qed.

Lemma keep_meta_row (entry : string * string) :
  keep is_markup (meta_row (redact_value entry)) = keep is_markup (meta_row entry).
Proof.
  destruct entry as [label value]. unfold redact_value, meta_row. cbn [fst snd].
  now rewrite !keep_app, !keep_escapeHtml.
Qed.

Lemma truthy_meta_row (entry : string * string) : truthy (meta_row entry) = true.
Proof. now destruct entry. Qed.

Lemma markup_metaHtml (formMeta : FormMetadata.t) (coverPage : CoverPage.t) :
  markup_of (metaHtml (redact_form formMeta) (redact_cover coverPage))
  = markup_of (metaHtml formMeta coverPage).
Proof.
  unfold metaHtml, metaRows. rewrite metaFields_redact, present_redact.
  rewrite !(truthy_join_map nl meta_row) by apply truthy_meta_row.
  rewrite list_case_map.
  destruct (present (metaFields formMeta coverPage)) as [|entry entries];
    [reflexivity|].
  unfold markup_of. rewrite !keep_app.
  now rewrite (keep_join_map is_markup nl meta_row redact_value _ keep_meta_row).
Qed.

Lemma keep_revision_row (entry : RevisionEntry.t) :
  keep is_markup (revision_row (redact_entry entry))
  = keep is_markup (revision_row entry).
Proof.
  unfold revision_row, redact_entry.
  cbn [RevisionEntry.version RevisionEntry.date RevisionEntry.author
       RevisionEntry.description].
  now rewrite !keep_app, !keep_escapeHtml.
Qed.

Lemma markup_revisionHtml (coverPage : CoverPage.t) :
  markup_of (revisionHtml (redact_cover coverPage))
  = markup_of (revisionHtml coverPage).
Proof.
  unfold revisionHtml, redact_cover. cbn [CoverPage.revisionHistory].
  destruct (CoverPage.revisionHistory coverPage) as [[|first others]|];
    [reflexivity| |reflexivity].
  change (option_map (map redact_entry) (Some (first :: others)))
    with (Some (redact_entry first :: map redact_entry others)).
  cbv iota. unfold markup_of, revision_rows. rewrite !keep_app.
  change (redact_entry first :: map redact_entry others)
    with (map redact_entry (first :: others)).
  now rewrite (keep_join_map is_markup nl revision_row redact_entry _ keep_revision_row).
Qed.

Lemma keep_legal_paragraph (t : string) :
  keep is_markup (legal_paragraph (redact t)) = keep is_markup (legal_paragraph t).
Proof. unfold legal_paragraph. now rewrite !keep_app, !keep_escapeHtml. Qed.

Lemma legalFields_redact (coverPage : CoverPage.t) :
  legalFields (redact_cover coverPage) = map redact (legalFields coverPage).
Proof. unfold legalFields. now rewrite <- filter_Boolean_redact. Qed.

Lemma markup_legalHtml (coverPage : CoverPage.t) :
  markup_of (legalHtml (redact_cover coverPage)) = markup_of (legalHtml coverPage).
Proof.
  unfold legalHtml. rewrite legalFields_redact, list_case_map.
  destruct (legalFields coverPage) as [|t ts]; [reflexivity|].
  unfold markup_of. rewrite !keep_app.
  now rewrite (keep_join_map is_markup nl legal_paragraph redact _ keep_legal_paragraph).
Qed.

Lemma markup_of_app (a b : string) :
  markup_of (a +++ b) = markup_of a +++ markup_of b.
Proof. apply keep_app. Qed.

Lemma markup_of_renderCoverPageHtml (formMeta : FormMetadata.t) (coverPage : CoverPage.t) :
  markup_of (renderCoverPageHtml formMeta coverPage)
  = markup_of (renderCoverPageHtml (redact_form formMeta) (redact_cover coverPage)).
Proof.
  unfold renderCoverPageHtml. rewrite !markup_of_app.
  now rewrite markup_coverImageStyle, markup_watermarkHtml, markup_logoHtml,
    markup_titleHtml, markup_subtitleHtml, markup_metaHtml, markup_revisionHtml,
    markup_legalHtml.
Qed.

(** *** Ampersands *)

Lemma prefix_app (p a b : string) :
  String.prefix p a = true -> String.prefix p (a +++ b) = true.
Proof.
  revert a. induction p as [|c p IH]; intros a Hpre; [apply prefix_nil|].
  destruct a as [|d a]; [discriminate Hpre|].
  cbn [String.prefix String.append] in *.
  destruct (ascii_dec c d); [now apply IH | discriminate Hpre].
Qed.

Lemma entity_follows_app (a b : string) :
  entity_follows a = true -> entity_follows (a +++ b) = true.
Proof.
  unfold entity_follows. rewrite !orb_true_iff.
  intros [[[[H|H]|H]|H]|H]; rewrite (prefix_app _ _ b H); tauto.
Qed.

Lemma amp_escaped_app (a b : string) :
  amp_escaped a = true -> amp_escaped b = true -> amp_escaped (a +++ b) = true.
Proof.
  intros Ha Hb. induction a as [|c a IH]; [exact Hb|].
  cbn [amp_escaped String.append] in *.
  apply andb_true_iff in Ha as [Hc Ha]. apply andb_true_iff. split; [|now apply IH].
  destruct (Ascii.eqb c "&"); [now apply entity_follows_app | reflexivity].
Qed.

Lemma amp_escaped_join {A : Type} (sep : string) (f : A -> string) (l : list A) :
  amp_escaped sep = true -> (forall a, amp_escaped (f a) = true) ->
  amp_escaped (join sep (map f l)) = true.
Proof.
  intros Hsep Hf. induction l as [|a l IH]; [reflexivity|].
  destruct l as [|b l]; [apply Hf|].
  change (amp_escaped (f a +++ sep +++ join sep (map f (b :: l))) = true).
  auto using amp_escaped_app.
Qed.

Ltac escaped :=
  repeat lazymatch goal with
         | |- amp_escaped (_ +++ _) = true => apply amp_escaped_app
         | |- amp_escaped (escapeHtml _) = true => apply amp_escaped_escapeHtml
         | |- amp_escaped (if ?c then _ else _) = true => destruct c
         | |- amp_escaped (join nl (map _ _)) = true => apply amp_escaped_join
         | |- _ => reflexivity
         end.

Lemma amp_escaped_meta_row (entry : string * string) :
  amp_escaped (meta_row entry) = true.
Proof. destruct entry as [label value]. unfold meta_row. escaped. Qed.

Lemma amp_escaped_revision_row (entry : RevisionEntry.t) :
  amp_escaped (revision_row entry) = true.
Proof. unfold revision_row. escaped. Qed.

Lemma amp_escaped_legal_paragraph (t : string) :
  amp_escaped (legal_paragraph t) = true.
Proof. unfold legal_paragraph. escaped. Qed.

Lemma amp_escaped_coverImageStyle coverPage : amp_escaped (coverImageStyle coverPage) = true.
Proof. unfold coverImageStyle. escaped. Qed.

Lemma amp_escaped_watermarkHtml coverPage : amp_escaped (watermarkHtml coverPage) = true.
Proof. unfold watermarkHtml. escaped. Qed.

Lemma amp_escaped_logoHtml coverPage : amp_escaped (logoHtml coverPage) = true.
Proof. unfold logoHtml. escaped. Qed.

Lemma amp_escaped_titleHtml formMeta : amp_escaped (titleHtml formMeta) = true.
Proof. unfold titleHtml. escaped. Qed.

Lemma amp_escaped_subtitleHtml coverPage : amp_escaped (subtitleHtml coverPage) = true.
Proof. unfold subtitleHtml. escaped. Qed.

Lemma amp_escaped_metaHtml formMeta coverPage :
  amp_escaped (metaHtml formMeta coverPage) = true.
Proof.
  unfold metaHtml, metaRows. escaped. intros entry. apply amp_escaped_meta_row.
Qed.

Lemma amp_escaped_revisionHtml coverPage : amp_escaped (revisionHtml coverPage) = true.
Proof.
  unfold revisionHtml, revision_rows.
  destruct (CoverPage.revisionHistory coverPage) as [[|first others]|];
    [reflexivity| |reflexivity].
  escaped. intros entry. apply amp_escaped_revision_row.
Qed.

Lemma amp_escaped_legalHtml coverPage : amp_escaped (legalHtml coverPage) = true.
Proof.
  unfold legalHtml. destruct (legalFields coverPage) as [|t ts]; [reflexivity|].
  escaped. intros t'. apply amp_escaped_legal_paragraph.
Qed.

Lemma amp_escaped_renderCoverPageHtml formMeta coverPage :
  amp_escaped (renderCoverPageHtml formMeta coverPage) = true.
Proof.
  unfold renderCoverPageHtml.
  repeat lazymatch goal with
         | |- amp_escaped (_ +++ _) = true => apply amp_escaped_app
         | |- amp_escaped (coverImageStyle _) = true => apply amp_escaped_coverImageStyle
         | |- amp_escaped (watermarkHtml _) = true => apply amp_escaped_watermarkHtml
         | |- amp_escaped (logoHtml _) = true => apply amp_escaped_logoHtml
         | |- amp_escaped (titleHtml _) = true => apply amp_escaped_titleHtml
         | |- amp_escaped (subtitleHtml _) = true => apply amp_escaped_subtitleHtml
         | |- amp_escaped (metaHtml _ _) = true => apply amp_escaped_metaHtml
         | |- amp_escaped (revisionHtml _) = true => apply amp_escaped_revisionHtml
         | |- amp_escaped (legalHtml _) = true => apply amp_escaped_legalHtml
         | |- _ => reflexivity
         end.
Qed.

(** C9. [escapeHtml] replaces each of the five characters by its entity
    and leaves every other character alone, so its result has no angle
    bracket and no quote, and each of its ampersands starts an entity. Every
    user-supplied string of the cover page goes through it: the angle
    brackets and quotes of the rendered page are those of the template,
    whatever the strings contain (they do not change when the content of
    every string is blanked out), and every ampersand of the page starts an
    entity. *)
Theorem renderCoverPageHtml_escapes (formMeta : FormMetadata.t) (coverPage : CoverPage.t) :
  (forall a b, escapeHtml (a +++ b) = escapeHtml a +++ escapeHtml b)
  /\ escapeHtml ("&<>" +++ dq +++ "'") = "&amp;&lt;&gt;&quot;&#039;"
  /\ (forall c, is_markup c = false -> Ascii.eqb c "&" = false ->
        escapeHtml (String c EmptyString) = String c EmptyString)
  /\ (forall text,
        markup_of (escapeHtml text) = EmptyString
        /\ amp_escaped (escapeHtml text) = true)
  /\ markup_of (renderCoverPageHtml formMeta coverPage)
     = markup_of (renderCoverPageHtml (redact_form formMeta) (redact_cover coverPage))
  /\ amp_escaped (renderCoverPageHtml formMeta coverPage) = true.
Proof.
  split; [exact escapeHtml_app|]. split; [reflexivity|]. split.
  { intros c Hmarkup Hamp. cbn [escapeHtml].
    destruct (escape_char_cases c)
      as [[-> _]|[[-> _]|[[-> _]|[[-> _]|[[-> _]|(_ & _ & ->)]]]]];
      try discriminate Hmarkup; try discriminate Hamp. reflexivity. }
  split.
  { intros text. split; [apply markup_of_escapeHtml | apply amp_escaped_escapeHtml]. }
  split; [apply markup_of_renderCoverPageHtml | apply amp_escaped_renderCoverPageHtml].
Qed.

Lemma renderCoverPageHtml_escapes_witness :
  escapeHtml "a" = "a"
  /\ markup_of (renderCoverPageHtml hostile_form hostile_cover)
     = markup_of (renderCoverPageHtml (redact_form hostile_form)
                    (redact_cover hostile_cover))
  /\ amp_escaped (renderCoverPageHtml hostile_form hostile_cover) = true.
Proof.
  destruct (renderCoverPageHtml_escapes hostile_form hostile_cover)
    as (_ & _ & Hplain & _ & Hmarkup & Hamp).
  split; [|split; [exact Hmarkup | exact Hamp]].
  apply Hplain; reflexivity.
Defined.

Example escapeHtml_script :
  escapeHtml "<script>alert('x')</script>"
  = "&lt;script&gt;alert(&#039;x&#039;)&lt;/script&gt;".
Proof. reflexivity. Qed.

Example titleHtml_hostile :
  titleHtml hostile_form
  = "<h1 class=" +++ dq +++ "cover-title" +++ dq
    +++ ">&lt;script&gt;alert(&#039;x&#039;)&lt;/script&gt;</h1>".
Proof. reflexivity. Qed.

End HtmlProperties.

(** * Further properties of the generators *)

(** ** Footer slots *)

Section FooterSlots.
Import Js JsText Footer FooterPages.

Lemma resolveFooterConfig_slots (clock : Clock) (footer : FooterConfig.t)
    (form : FormMetadata.t) :
  FooterConfig.enabled footer <> Some false ->
  let resolved := resolveFooterConfig clock (Some footer) form in
  ResolvedFooter.left resolved
  = resolveStaticVariables (clock slot_left) (fst (fst (seed_slots footer form))) form
  /\ ResolvedFooter.center resolved
     = resolveStaticVariables (clock slot_center) (snd (fst (seed_slots footer form))) form
  /\ ResolvedFooter.right resolved
     = resolveStaticVariables (clock slot_right) (snd (seed_slots footer form)) form
  /\ ResolvedFooter.socialLinks resolved = filter_links (FooterConfig.socialLinks footer).
Proof.
  intros Hon. cbn zeta. unfold resolveFooterConfig.
  destruct (FooterConfig.enabled footer) as [[|]|]; [|contradiction|];
    destruct (seed_slots footer form) as [[l c] r]; repeat split.
Qed.

Lemma seed_slots_explicit (footer : FooterConfig.t) (form : FormMetadata.t) :
  (forall l, FooterConfig.left footer = Some l -> truthy l = true ->
     fst (fst (seed_slots footer form)) = l)
  /\ (forall r, FooterConfig.right footer = Some r -> truthy r = true ->
        snd (seed_slots footer form) = r)
  /\ (forall c, FooterConfig.center footer = Some c -> truthy c = true ->
        exists date_suffix,
          (date_suffix = EmptyString
           \/ date_suffix = " | {{date}}" /\ flag (FooterConfig.showDate footer) = true)
          /\ snd (fst (seed_slots footer form))
             = c +++ version_suffix footer form +++ date_suffix).
Proof.
  unfold seed_slots, version_suffix. repeat split.
  - intros l -> Hl. cbn [nullish]. rewrite Hl. cbn [negb]. rewrite andb_false_r, Hl.
    cbn [negb andb].
    destruct (flag (FooterConfig.showDate footer)); [|reflexivity].
    destruct (negb (truthy _) && negb (flag (FooterConfig.showPageNumbers footer)));
      reflexivity.
  - intros r -> Hr. cbn [nullish]. rewrite Hr. cbn [negb]. rewrite !andb_false_r, Hr.
    cbn [negb andb].
    destruct (flag (FooterConfig.showDate footer)); [|reflexivity].
    destruct (negb (truthy _) && negb (truthy_opt (FooterConfig.copyright footer)));
      reflexivity.
  - intros c -> Hc. cbn [nullish]. rewrite Hc. cbn [negb]. rewrite andb_false_r, Hc.
    assert (Hnil : forall s, s +++ EmptyString = s).
    { induction s as [|a s IH]; cbn; [reflexivity | now rewrite IH]. }
    assert (Hfull : truthy (c +++ " - " +++ "Version "
                            +++ nullish (FormMetadata.version form) "") = true)
      by (destruct c; [discriminate Hc | reflexivity]).
    destruct (flag (FooterConfig.showVersion footer)
              && truthy_opt (FormMetadata.version form));
      rewrite ?Hfull, ?Hc;
      (destruct (flag (FooterConfig.showDate footer));
       [ destruct (negb (truthy _) && negb (truthy_opt (FooterConfig.copyright footer)));
         [ exists EmptyString; split; [now left|]; cbn [fst snd]; now rewrite !Hnil |];
         destruct (negb (truthy _) && negb (flag (FooterConfig.showPageNumbers footer)));
         [ exists EmptyString; split; [now left|]; cbn [fst snd]; now rewrite !Hnil |];
         exists " | {{date}}"; split; [now right|]; cbn [fst snd];
         rewrite ?append_assoc; cbn [String.append]; try reflexivity
       | exists EmptyString; split; [now left|]; cbn [fst snd]; now rewrite !Hnil ]).
Qed.

(** X1. An explicit slot wins over the shorthands. When the footer is not
    switched off, a non-empty [left] or [right] of the configuration is the
    text that is resolved for that slot, whatever [copyright],
    [showPageNumbers] and [showDate] say; a non-empty [center] is never
    replaced by [text]: it is only continued, by the version when
    [showVersion] applies and then by the date token when [showDate] falls
    to the center. *)
Theorem resolveFooterConfig_explicit_slots (clock : Clock) (footer : FooterConfig.t)
    (form : FormMetadata.t) :
  FooterConfig.enabled footer <> Some false ->
  let resolved := resolveFooterConfig clock (Some footer) form in
  (forall l, FooterConfig.left footer = Some l -> l <> EmptyString ->
     ResolvedFooter.left resolved = resolveStaticVariables (clock slot_left) l form)
  /\ (forall r, FooterConfig.right footer = Some r -> r <> EmptyString ->
        ResolvedFooter.right resolved = resolveStaticVariables (clock slot_right) r form)
  /\ (forall c, FooterConfig.center footer = Some c -> c <> EmptyString ->
        exists date_suffix,
          (date_suffix = EmptyString
           \/ date_suffix = " | {{date}}" /\ flag (FooterConfig.showDate footer) = true)
          /\ ResolvedFooter.center resolved
             = resolveStaticVariables (clock slot_center)
                 (c +++ version_suffix footer form +++ date_suffix) form).
Proof.
  intros Hon. cbn zeta.
  destruct (resolveFooterConfig_slots clock footer form Hon) as (Hl & Hc & Hr & _).
  destruct (seed_slots_explicit footer form) as (Sl & Sr & Sc).
  rewrite Hl, Hc, Hr. repeat split.
  - intros l Hleft Hne. apply truthy_true_iff in Hne. now rewrite (Sl l Hleft Hne).
  - intros r Hright Hne. apply truthy_true_iff in Hne. now rewrite (Sr r Hright Hne).
  - intros c Hcenter Hne. apply truthy_true_iff in Hne.
    destruct (Sc c Hcenter Hne) as (suffix & Hsuffix & ->). now exists suffix.
Qed.

Lemma resolveFooterConfig_explicit_slots_witness :
  ResolvedFooter.left
    (resolveFooterConfig (on_day "11/3/2026") (Some footer_pages_and_title) form_v2)
  = resolveStaticVariables "11/3/2026" "{{title}}" form_v2.
Proof.
  refine (proj1 (resolveFooterConfig_explicit_slots (on_day "11/3/2026")
                   footer_pages_and_title form_v2 _) "{{title}}" eq_refl _);
    discriminate.
Defined.

(** X2. Where [showDate] puts the date token. Compared with the slots the
    same configuration gives without [showDate], the token takes the left
    slot when that slot is empty, else the right slot when that one is
    empty, else it is appended to the center after a bar (or is the whole
    center when the center is empty); the two other slots stay as they are.
    The tests on [copyright] and [showPageNumbers] in the source never
    change the choice. *)
Theorem showDate_placement (footer : FooterConfig.t) (form : FormMetadata.t) :
  let '(l, c, r) := seed_slots (with_showDate footer None) form in
  seed_slots (with_showDate footer (Some true)) form
  = if negb (truthy l) then ("{{date}}", c, r)
    else if negb (truthy r) then (l, c, "{{date}}")
    else (l, (if truthy c then c +++ " | {{date}}" else "{{date}}"), r).
Proof.
  unfold seed_slots, with_showDate.
  cbn [FooterConfig.left FooterConfig.center FooterConfig.right FooterConfig.text
       FooterConfig.copyright FooterConfig.showPageNumbers FooterConfig.showVersion
       FooterConfig.showDate flag].
  destruct (FooterConfig.copyright footer) as [[|a copyright]|];
    destruct (nullish (FooterConfig.left footer) "") as [|b l];
    destruct (flag (FooterConfig.showPageNumbers footer));
    destruct (nullish (FooterConfig.right footer) "") as [|d r];
    reflexivity.
Qed.

Lemma keep_link_spec (o : option string) (u : string) :
  keep_link o = Some u <-> o = Some u /\ u <> EmptyString.
Proof.
  unfold keep_link. destruct o as [[|a s]|]; cbn; split.
  all: try discriminate.
  all: try (intros [H Hne]; try discriminate H; injection H as <-; now contradiction Hne).
  - intros H. injection H as <-. split; [reflexivity | discriminate].
  - intros [H _]. exact H.
Qed.

Lemma keep_link_idem (o : option string) : keep_link (keep_link o) = keep_link o.
Proof. now destruct o as [[|a s]|]. Qed.

(** X3. The social links of the resolved footer are the configured ones
    with a non-empty URL: for each of the six platforms the resolved link
    is a URL exactly when the configuration has that URL and it is not
    empty. Filtering the result again changes nothing. *)
Theorem resolveFooterConfig_socialLinks (clock : Clock) (footer : FooterConfig.t)
    (form : FormMetadata.t) :
  FooterConfig.enabled footer <> Some false ->
  let links := ResolvedFooter.socialLinks (resolveFooterConfig clock (Some footer) form) in
  Forall (fun platform =>
            forall url, platform links = Some url
                        <-> platform (configured_links footer) = Some url
                            /\ url <> EmptyString)
         platforms
  /\ filter_links (Some links) = links.
Proof.
  intros Hon. cbn zeta.
  destruct (resolveFooterConfig_slots clock footer form Hon) as (_ & _ & _ & ->).
  unfold configured_links, filter_links.
  destruct (FooterConfig.socialLinks footer) as [src|]; cbn [nullish].
  - split.
    + unfold platforms.
      repeat (apply Forall_cons; [intros url; apply keep_link_spec|]).
      apply Forall_nil.
    + cbn [FooterSocialLinks.youtube FooterSocialLinks.x FooterSocialLinks.facebook
           FooterSocialLinks.linkedin FooterSocialLinks.github FooterSocialLinks.website].
      now rewrite !keep_link_idem.
  - split; [|reflexivity].
    unfold platforms.
    repeat (apply Forall_cons;
            [intros url; cbn; split; [discriminate | intros [H _]; discriminate H]|]).
    apply Forall_nil.
Qed.

Lemma resolveFooterConfig_socialLinks_witness :
  let links :=
    ResolvedFooter.socialLinks
      (resolveFooterConfig (on_day "11/3/2026") (Some footer_with_links) form_v2) in
  Forall (fun platform =>
            forall url, platform links = Some url
                        <-> platform (configured_links footer_with_links) = Some url
                            /\ url <> EmptyString)
         platforms
  /\ filter_links (Some links) = links.
Proof.
  apply (resolveFooterConfig_socialLinks (on_day "11/3/2026") footer_with_links form_v2).
  discriminate.
Defined.


(** *** Template variables *)

Lemma append_nil_r (s : string) : s +++ EmptyString = s.
Proof. induction s as [|a s IH]; cbn; [reflexivity | now rewrite IH]. Qed.

Lemma has_char_app (c : ascii) (a b : string) :
  has_char c (a +++ b) = has_char c a || has_char c b.
Proof.
  induction a as [|d a IH]; cbn; [reflexivity|]. now rewrite IH, orb_assoc.
Qed.

Lemma brace_free_app (a b : string) :
  brace_free (a +++ b) = brace_free a && brace_free b.
Proof. unfold brace_free. now rewrite has_char_app, negb_orb. Qed.

Lemma prefix_first (p c : ascii) (pat s : string) :
  Ascii.eqb c p = false -> String.prefix (String p pat) (String c s) = false.
Proof.
  intros Hne. cbn. destruct (ascii_dec p c) as [->|_]; [|reflexivity].
  now rewrite Ascii.eqb_refl in Hne.
Qed.

Lemma prefix_app_self (pat s : string) : String.prefix pat (pat +++ s) = true.
Proof.
  induction pat as [|p pat IH]; cbn; [now destruct s|].
  destruct (ascii_dec p p) as [_|Hne]; [exact IH | now contradiction Hne].
Qed.

Lemma drop_app (a s : string) : drop (String.length a) (a +++ s) = s.
Proof. induction a as [|c a IH]; cbn; [reflexivity | exact IH]. Qed.

Lemma get_substitution_plain (matched before after rep : string) :
  has_char "$" rep = false -> get_substitution matched before after rep = rep.
Proof.
  induction rep as [|c rep IH]; cbn; [reflexivity|].
  intros Hfree. apply orb_false_iff in Hfree as [Hc Hrep].
  rewrite Hc. now rewrite IH.
Qed.

(** A text in which no token begins is passed over. *)
Lemma replace_scan_pass (p : ascii) (pat rep : string) (a : string) :
  has_char p a = false ->
  forall before s,
    replace_scan (String p pat) rep before 0 (a +++ s)
    = a +++ replace_scan (String p pat) rep (before +++ a) 0 s.
Proof.
  induction a as [|c a IH]; intros Hfree before s.
  - cbn [String.append]. now rewrite append_nil_r.
  - cbn in Hfree. apply orb_false_iff in Hfree as [Hc Ha].
    cbn [String.append replace_scan]. rewrite (prefix_first p c pat _ Hc).
    rewrite (IH Ha). now rewrite append_assoc.
Qed.

Lemma replace_scan_skip (pat rep : string) (t : string) :
  forall before s,
    replace_scan pat rep before (String.length t) (t +++ s)
    = replace_scan pat rep (before +++ t) 0 s.
Proof.
  induction t as [|c t IH]; intros before s.
  - cbn [String.append String.length]. now rewrite append_nil_r.
  - cbn [String.append String.length replace_scan]. rewrite IH.
    now rewrite append_assoc.
Qed.

(** At a token, the replacement is expanded and the scan goes on after
    the token. *)
Lemma replace_scan_match (p : ascii) (pat rep before s : string) :
  replace_scan (String p pat) rep before 0 (String p pat +++ s)
  = get_substitution (String p pat) before s rep
    +++ replace_scan (String p pat) rep (before +++ String p pat) 0 s.
Proof.
  cbn [String.append replace_scan].
  change (String p (pat +++ s)) with (String p pat +++ s).
  rewrite prefix_app_self, drop_app.
  replace (String.length (String p pat) - 1)%nat with (String.length pat)
    by (cbn [String.length]; lia).
  rewrite replace_scan_skip.
  rewrite append_assoc. reflexivity.
Qed.

Lemma occurs_brace_free (pat s : string) :
  brace_free s = true -> occurs (String "{" pat) s = false.
Proof.
  unfold brace_free. intros Hfree. apply negb_true_iff in Hfree.
  induction s as [|c s IH]; [reflexivity|].
  cbn in Hfree. apply orb_false_iff in Hfree as [Hc Hs].
  cbn [occurs]. rewrite (prefix_first "{" c pat s Hc). now apply IH.
Qed.

(** The token [{{name}}] between two brace-free texts is replaced by a
    plain value, and nothing else changes. *)
Lemma replace_all_token (pat rep a b : string) :
  brace_free a = true -> has_char "$" rep = false ->
  replace_all (String "{" pat) rep (a +++ String "{" pat +++ b)
  = a +++ rep +++ replace_scan (String "{" pat) rep (a +++ String "{" pat) 0 b.
Proof.
  unfold brace_free, replace_all. intros Ha Hrep. apply negb_true_iff in Ha.
  rewrite (replace_scan_pass "{" pat rep a Ha).
  rewrite replace_scan_match, get_substitution_plain by exact Hrep.
  reflexivity.
Qed.

Lemma replace_all_brace_free (pat rep s : string) :
  brace_free s = true -> replace_all (String "{" pat) rep s = s.
Proof. intros Hfree. now apply replace_all_absent, occurs_brace_free. Qed.

Lemma occurs_pass (pat a s : string) :
  brace_free a = true -> occurs (String "{" pat) (a +++ s) = occurs (String "{" pat) s.
Proof.
  unfold brace_free. intros Hfree. apply negb_true_iff in Hfree.
  induction a as [|c a IH]; [reflexivity|].
  cbn in Hfree. apply orb_false_iff in Hfree as [Hc Ha].
  cbn [String.append occurs]. rewrite (prefix_first "{" c pat _ Hc). now apply IH.
Qed.

Lemma truthy_token (a t b : string) : truthy (a +++ String "{" t +++ b) = true.
Proof. destruct a; reflexivity. Qed.

(** X5. A static variable between two texts free of braces is replaced by
    its value, and nothing else changes, provided the value has neither a
    dollar sign nor an opening brace: [{{title}}] by the title of the form,
    [{{version}}] and [{{author}}] by the version and the author (by
    nothing when the form has none), [{{date}}] by the date of the day. *)
Theorem resolveStaticVariables_token (today : string) (form : FormMetadata.t)
    (token value before after : string) :
  In (token, value) (static_variables today form) ->
  brace_free before = true -> brace_free after = true -> plain value = true ->
  resolveStaticVariables today (before +++ token +++ after) form
  = before +++ value +++ after.
Proof.
  intros Hin Ha Hb Hplain.
  apply andb_true_iff in Hplain as [Hdollar Hbrace]. apply negb_true_iff in Hdollar.
  assert (Hdone : brace_free (before +++ value +++ after) = true)
    by (rewrite !brace_free_app, Ha, Hb, Hbrace; reflexivity).
  assert (Hrest : forall pat rep b0,
            replace_scan (String "{" pat) rep b0 0 after = after)
    by (intros; now apply replace_scan_absent, occurs_brace_free).
  unfold static_variables in Hin. cbn [In] in Hin.
  unfold resolveStaticVariables.
  destruct Hin as [Hin|[Hin|[Hin|[Hin|[]]]]]; injection Hin as <- <-;
    rewrite truthy_token; cbn [negb].
  - rewrite replace_all_token, Hrest by assumption.
    now rewrite !(replace_all_brace_free _ _ _ Hdone).
  - rewrite (replace_all_absent "{{title}}").
    2:{ rewrite occurs_pass by exact Ha. cbn. now apply occurs_brace_free. }
    rewrite replace_all_token, Hrest by assumption.
    now rewrite !(replace_all_brace_free _ _ _ Hdone).
  - rewrite (replace_all_absent "{{title}}").
    2:{ rewrite occurs_pass by exact Ha. cbn. now apply occurs_brace_free. }
    rewrite (replace_all_absent "{{version}}").
    2:{ rewrite occurs_pass by exact Ha. cbn. now apply occurs_brace_free. }
    rewrite replace_all_token, Hrest by assumption.
    now rewrite !(replace_all_brace_free _ _ _ Hdone).
  - rewrite (replace_all_absent "{{title}}").
    2:{ rewrite occurs_pass by exact Ha. cbn. now apply occurs_brace_free. }
    rewrite (replace_all_absent "{{version}}").
    2:{ rewrite occurs_pass by exact Ha. cbn. now apply occurs_brace_free. }
    rewrite (replace_all_absent "{{author}}").
    2:{ rewrite occurs_pass by exact Ha. cbn. now apply occurs_brace_free. }
    now rewrite replace_all_token, Hrest by assumption.
Qed.


Lemma resolveStaticVariables_token_witness :
  resolveStaticVariables "11/3/2026" ("Form: " +++ "{{title}}" +++ " (draft)") form_v2
  = "Form: " +++ "Form" +++ " (draft)".
Proof.
  apply (resolveStaticVariables_token "11/3/2026" form_v2 "{{title}}" "Form"
           "Form: " " (draft)"); [now left | reflexivity..].
Defined.

(** A value with a dollar sign is not inserted as it is: [$&] stands for
    the token itself, which comes back. *)
Example resolveStaticVariables_dollar :
  resolveStaticVariables "11/3/2026" "{{title}}"
    {| FormMetadata.title := "Costs in $& and $$";
       FormMetadata.version := None; FormMetadata.author := None;
       FormMetadata.pages := None; FormMetadata.stylesheet := None |}
  = "Costs in {{title}} and $".
Proof. reflexivity. Qed.

Lemma string_of_uint_digits (c : ascii) (d : Decimal.uint) :
  c = "$"%char \/ c = "{"%char ->
  has_char c (NilEmpty.string_of_uint d) = false.
Proof.
  intros Hc. induction d; cbn; [reflexivity|..];
    rewrite IHd; destruct Hc as [->| ->]; reflexivity.
Qed.

Lemma String_digits (c : ascii) (n : Z) :
  c = "$"%char \/ c = "{"%char -> has_char c (String_ n) = false.
Proof.
  intros Hc. unfold String_, NilZero.string_of_int, NilZero.string_of_uint.
  destruct (Z.to_int n) as [d|d].
  - destruct d; try (apply string_of_uint_digits; exact Hc).
    destruct Hc as [->| ->]; reflexivity.
  - cbn [has_char]. replace (Ascii.eqb "-" c) with false
      by (destruct Hc as [->| ->]; reflexivity).
    destruct d; try (apply string_of_uint_digits; exact Hc).
    destruct Hc as [->| ->]; reflexivity.
Qed.

Lemma String_brace_free (n : Z) : brace_free (String_ n) = true.
Proof. unfold brace_free. rewrite String_digits; [reflexivity | now right]. Qed.

(** Both page tokens of a text are replaced by the decimal digits of the
    two page numbers. *)
Lemma resolvePageVariables_tokens (a b c : string) (pageNum totalPages : Z) :
  isSafeInteger pageNum = true -> isSafeInteger totalPages = true ->
  brace_free a = true -> brace_free b = true -> brace_free c = true ->
  resolvePageVariables (a +++ "{{page}}" +++ b +++ "{{pages}}" +++ c) pageNum totalPages
  = a +++ String_ pageNum +++ b +++ String_ totalPages +++ c.
Proof.
  intros _ _ Ha Hb Hc. unfold resolvePageVariables.
  rewrite truthy_token. cbn [negb].
  rewrite replace_all_token by (try exact Ha; apply String_digits; now left).
  rewrite replace_scan_absent.
  2:{ rewrite occurs_pass by exact Hb. cbn. now apply occurs_brace_free. }
  rewrite <- (append_assoc (String_ pageNum) b), <- (append_assoc a).
  rewrite replace_all_token.
  2:{ rewrite !brace_free_app, Ha, Hb, String_brace_free. reflexivity. }
  2:{ apply String_digits. now left. }
  rewrite replace_scan_absent by now apply occurs_brace_free.
  now rewrite !append_assoc.
Qed.

(** X4. Page numbers from the shorthand. With [showPageNumbers] and no
    right slot of its own, the resolved right slot is the template
    [Page {{page}} of {{pages}}], left as it is by the static resolution
    for every form and date, and for page numbers that are safe integers
    (of magnitude below 2^53) [resolvePageVariables] turns it into
    [Page p of n] with the two numbers in decimal. *)
Theorem showPageNumbers_rendered (clock : Clock) (footer : FooterConfig.t)
    (form : FormMetadata.t) :
  FooterConfig.enabled footer <> Some false ->
  flag (FooterConfig.showPageNumbers footer) = true ->
  truthy (nullish (FooterConfig.right footer) "") = false ->
  let right := ResolvedFooter.right (resolveFooterConfig clock (Some footer) form) in
  right = "Page {{page}} of {{pages}}"
  /\ forall pageNum totalPages,
       isSafeInteger pageNum = true -> isSafeInteger totalPages = true ->
       resolvePageVariables right pageNum totalPages
       = "Page " +++ String_ pageNum +++ " of " +++ String_ totalPages.
Proof.
  intros Hon Hpages Hright. cbn zeta.
  destruct (resolveFooterConfig_slots clock footer form Hon) as (_ & _ & -> & _).
  assert (Hseed : snd (seed_slots footer form) = "Page {{page}} of {{pages}}").
  { unfold seed_slots. rewrite Hpages, Hright. cbn [negb andb].
    destruct (flag (FooterConfig.showDate footer)); [|reflexivity].
    destruct (negb (truthy _) && negb (truthy_opt (FooterConfig.copyright footer)));
      reflexivity. }
  rewrite Hseed.
  assert (Hstatic : resolveStaticVariables (clock slot_right)
                      "Page {{page}} of {{pages}}" form
                    = "Page {{page}} of {{pages}}").
  { unfold resolveStaticVariables. cbn [truthy negb].
    now rewrite !replace_all_absent by reflexivity. }
  rewrite Hstatic. split; [reflexivity|].
  intros pageNum totalPages HpageNum HtotalPages.
  rewrite <- (append_nil_r (String_ totalPages)).
  apply (resolvePageVariables_tokens "Page " " of " ""); (assumption || reflexivity).
Qed.

Lemma showPageNumbers_rendered_witness :
  resolvePageVariables
    (ResolvedFooter.right
       (resolveFooterConfig (on_day "11/3/2026") (Some footer_showPageNumbers) form_v2))
    3 12
  = "Page 3 of 12".
Proof.
  refine (proj2 (showPageNumbers_rendered (on_day "11/3/2026")
                   footer_showPageNumbers form_v2 _ _ _) 3%Z 12%Z eq_refl eq_refl);
    [discriminate | reflexivity | reflexivity].
Defined.

End FooterSlots.

(** ** The shape of wrapped lines *)

Section LineShape.
Import Js Wrap.

Lemma starts_with_space_word (w : string) :
  has_char space w = false -> starts_with_space w = false.
Proof.
  destruct w as [|c w]; [reflexivity|]. cbn. intros H.
  now apply orb_false_iff in H as [-> _].
Qed.

Lemma starts_with_space_app (a b : string) :
  truthy a = true -> starts_with_space (a +++ b) = starts_with_space a.
Proof. destruct a; [discriminate | reflexivity]. Qed.

Lemma wrap_step_shape (maxWidth fontSize : float) (lines : list string)
    (cur word : string) :
  has_char space word = false ->
  Forall (fun line => starts_with_space line = false) lines ->
  starts_with_space cur = false ->
  Forall (fun line => starts_with_space line = false)
         (fst (wrap_step maxWidth fontSize (lines, cur) word))
  /\ starts_with_space (snd (wrap_step maxWidth fontSize (lines, cur) word)) = false.
Proof.
  intros Hword Hlines Hcur. unfold wrap_step.
  destruct (truthy cur) eqn:Hne.
  - destruct (gt _ maxWidth && true); cbn [fst snd].
    + split; [|now apply starts_with_space_word].
      apply Forall_app. split; [exact Hlines | now constructor].
    + split; [exact Hlines|]. now rewrite starts_with_space_app.
  - rewrite andb_false_r. cbn [fst snd].
    split; [exact Hlines | now apply starts_with_space_word].
Qed.

Lemma wrap_loop_shape (maxWidth fontSize : float) (words : list string) :
  Forall (fun w => has_char space w = false) words ->
  forall lines cur,
    Forall (fun line => starts_with_space line = false) lines ->
    starts_with_space cur = false ->
    Forall (fun line => starts_with_space line = false)
           (fst (wrap_loop maxWidth fontSize words (lines, cur)))
    /\ starts_with_space (snd (wrap_loop maxWidth fontSize words (lines, cur))) = false.
Proof.
  induction 1 as [|word words Hword _ IH]; intros lines cur Hlines Hcur.
  - now split.
  - rewrite wrap_loop_cons.
    destruct (wrap_step_shape maxWidth fontSize lines cur word Hword Hlines Hcur)
      as [Hl Hc].
    destruct (wrap_step maxWidth fontSize (lines, cur) word) as [lines' cur'].
    now apply IH.
Qed.

Lemma words_of_line (line : string) :
  truthy line = true -> starts_with_space line = false -> words_of line <> [].
Proof.
  destruct line as [|c line]; [discriminate|]. intros _ Hc. cbn in Hc.
  unfold words_of. cbn [split_space]. rewrite Hc.
  destruct (split_space line); discriminate.
Qed.

Lemma length_concat_nonempty {A : Type} (xss : list (list A)) :
  Forall (fun xs => xs <> []) xss ->
  (List.length xss <= List.length (List.concat xss))%nat.
Proof.
  induction 1 as [|xs xss Hxs _ IH]; [reflexivity|].
  cbn [List.concat List.length]. rewrite length_app.
  destruct xs; [contradiction | cbn [List.length]; lia].
Qed.

(** X6. No line returned by [wrapText] begins with a space (leading
    spaces of the text are dropped, inner and trailing ones may stay), and
    there are at most as many lines as the text has non-empty words. *)
Theorem wrapText_line_shape (text : string) (maxWidth fontSize : float) :
  let lines := wrapText text maxWidth fontSize in
  Forall (fun line => starts_with_space line = false) lines
  /\ (List.length lines <= List.length (words_of text))%nat.
Proof.
  cbn zeta.
  assert (Hshape : Forall (fun line => starts_with_space line = false)
                          (wrapText text maxWidth fontSize)).
  { unfold wrapText.
    destruct (wrap_loop_shape maxWidth fontSize (split_space text)
                (split_space_words text) [] EmptyString (Forall_nil _) eq_refl)
      as [Hl Hc].
    destruct (wrap_loop maxWidth fontSize (split_space text) ([], EmptyString))
      as [lines cur].
    cbn [fst snd] in Hl, Hc.
    destruct (truthy cur); [|exact Hl].
    apply Forall_app. split; [exact Hl | now constructor]. }
  split; [exact Hshape|].
  rewrite <- (wrapText_words text maxWidth fontSize), words_of_join, <- concat_words_of.
  rewrite <- (length_map words_of (wrapText text maxWidth fontSize)) at 1.
  apply length_concat_nonempty, Forall_map.
  pose proof (wrapText_lines_ok text maxWidth fontSize) as Hok.
  rewrite Forall_forall in Hshape, Hok |- *.
  intros line Hin. apply words_of_line; [apply (Hok line Hin) | now apply Hshape].
Qed.

End LineShape.

(** ** Greedy line breaks *)

Section Greedy.
Import Js Wrap.

Lemma chain_snoc {A : Type} (R : A -> A -> Prop) (xs : list A) (a b : A) :
  chain R (xs ++ [a]) -> R a b -> chain R ((xs ++ [a]) ++ [b]).
Proof.
  intros Hchain Hab. induction xs as [|x xs IH]; [now split|].
  cbn [app] in *. destruct xs as [|y xs]; cbn [app chain] in *.
  - now repeat split.
  - destruct Hchain as [Hxy Hrest]. split; [exact Hxy | now apply IH].
Qed.

Lemma chain_last {A : Type} (R : A -> A -> Prop) (xs : list A) (c c' : A) :
  (forall a, R a c -> R a c') -> chain R (xs ++ [c]) -> chain R (xs ++ [c']).
Proof.
  intros Hlast. induction xs as [|x xs IH]; [trivial|].
  cbn [app]. destruct xs as [|y xs]; cbn [app chain] in *.
  - intros [Hxc _]. split; [now apply Hlast | trivial].
  - intros [Hxy Hrest]. split; [exact Hxy | now apply IH].
Qed.

Lemma first_word_word (w : string) :
  has_char space w = false -> first_word w = w.
Proof. intros Hw. unfold first_word. now rewrite split_space_word. Qed.

Lemma first_word_app (line w : string) :
  first_word (line +++ " " +++ w) = first_word line.
Proof.
  unfold first_word. rewrite split_space_app.
  pose proof (split_space_not_nil line) as Hne.
  now destruct (split_space line).
Qed.

(** The invariant of the loop on a text whose words are all non-empty:
    the line under construction is empty only before the first word, and
    every line begun so far was begun because the one before it was full. *)
Lemma wrap_step_greedy (maxWidth fontSize : float) (lines : list string)
    (cur word : string) :
  has_char space word = false -> truthy word = true ->
  (if truthy cur then chain (full maxWidth fontSize) (lines ++ [cur]) else lines = []) ->
  let st := wrap_step maxWidth fontSize (lines, cur) word in
  truthy (snd st) = true
  /\ chain (full maxWidth fontSize) (fst st ++ [snd st]).
Proof.
  intros Hspace Hword Hinv. unfold wrap_step.
  destruct (truthy cur) eqn:Hcur.
  - destruct (gt (estimateTextWidth (cur +++ " " +++ word) fontSize) maxWidth) eqn:Hwide;
      cbn [andb fst snd].
    + split; [exact Hword|]. apply chain_snoc; [exact Hinv|].
      unfold full. now rewrite first_word_word.
    + split; [now destruct cur|].
      apply (chain_last _ lines cur); [|exact Hinv].
      intros a Ha. unfold full in *. now rewrite first_word_app.
  - rewrite andb_false_r. cbn [fst snd]. subst lines.
    split; [exact Hword | exact I].
Qed.

Lemma wrap_loop_greedy (maxWidth fontSize : float) (words : list string) :
  Forall (fun w => has_char space w = false) words ->
  forallb truthy words = true ->
  forall lines cur,
    (if truthy cur then chain (full maxWidth fontSize) (lines ++ [cur]) else lines = []) ->
    let st := wrap_loop maxWidth fontSize words (lines, cur) in
    if truthy (snd st) then chain (full maxWidth fontSize) (fst st ++ [snd st])
    else fst st = [].
Proof.
  induction 1 as [|word words Hspace _ IH]; intros Hwords lines cur Hinv.
  - exact Hinv.
  - cbn [forallb] in Hwords. apply andb_true_iff in Hwords as [Hword Hwords].
    cbn zeta. rewrite wrap_loop_cons.
    destruct (wrap_step_greedy maxWidth fontSize lines cur word Hspace Hword Hinv)
      as [Htruthy Hchain].
    destruct (wrap_step maxWidth fontSize (lines, cur) word) as [lines' cur'].
    cbn [fst snd] in Htruthy, Hchain.
    apply (IH Hwords). now rewrite Htruthy.
Qed.

(** X21. [wrapText] breaks a line only when it has to. For a text whose
    space-separated pieces are all non-empty (no leading, trailing or
    double space), every returned line but the last is full: joined by a
    space with the first word of the line after it, it would be estimated
    wider than [maxWidth]. *)
Theorem wrapText_greedy (text : string) (maxWidth fontSize : float) :
  forallb truthy (split_space text) = true ->
  chain (full maxWidth fontSize) (wrapText text maxWidth fontSize).
Proof.
  intros Hwords. unfold wrapText.
  pose proof (wrap_loop_greedy maxWidth fontSize (split_space text)
                (split_space_words text) Hwords [] EmptyString eq_refl) as Hloop.
  cbn zeta in Hloop.
  destruct (wrap_loop maxWidth fontSize (split_space text) ([], EmptyString))
    as [lines cur].
  cbn [fst snd] in Hloop.
  destruct (truthy cur); [exact Hloop | now subst lines].
Qed.

Lemma wrapText_greedy_witness :
  chain (full 100%float 12%float)
    (wrapText "This is a long sentence that should be wrapped into multiple lines"
       100%float 12%float).
Proof. apply wrapText_greedy. reflexivity. Defined.

End Greedy.

(** ** Colours *)

Section ColorProperties.
Import JsText Color.

Lemma hex_digit_table (c : ascii) (d : Z) :
  hex_digit c = Some d -> In (c, d) hex_digits.
Proof.
  destruct c as [[] [] [] [] [] [] [] []]; vm_compute; intros H;
    try discriminate H; injection H as <-; tauto.
Qed.

Lemma parseInt16_pair (a b : ascii) (x y : Z) :
  hex_digit a = Some x -> hex_digit b = Some y ->
  PrimFloat.div (parseInt16 (pair_string a b)) 255%float = channel (16 * x + y)
  /\ unit_interval (channel (16 * x + y)) = true
  /\ assertRange (channel (16 * x + y)) = true.
Proof.
  intros Ha Hb. apply hex_digit_table in Ha, Hb.
  unfold hex_digits in Ha, Hb. cbn [In] in Ha, Hb.
  repeat (destruct Ha as [Ha|Ha]; [injection Ha as <- <-|]); try contradiction;
    repeat (destruct Hb as [Hb|Hb]; [injection Hb as <- <-|]); try contradiction;
    repeat split; vm_compute; reflexivity.
Qed.

Lemma strip_hash_digit (c : ascii) (d : Z) (s : string) :
  hex_digit c = Some d -> strip_hash (String c s) = String c s.
Proof.
  destruct c as [[] [] [] [] [] [] [] []]; vm_compute; intros H;
    try discriminate H; reflexivity.
Qed.

(** X7. For six hexadecimal digits [rrggbb], in either case, [hexToRgb]
    returns the same colour with and without the leading hash sign, each
    component is the value of its two digits divided by 255, and each lies
    between 0 and 1. *)
Theorem hexToRgb_rrggbb (r1 r2 g1 g2 b1 b2 : ascii) (x1 x2 y1 y2 z1 z2 : Z) :
  hex_digit r1 = Some x1 -> hex_digit r2 = Some x2 ->
  hex_digit g1 = Some y1 -> hex_digit g2 = Some y2 ->
  hex_digit b1 = Some z1 -> hex_digit b2 = Some z2 ->
  let digits := pair_string r1 r2 +++ pair_string g1 g2 +++ pair_string b1 b2 in
  let colour :=
    {| RGB.red := channel (16 * x1 + x2);
       RGB.green := channel (16 * y1 + y2);
       RGB.blue := channel (16 * z1 + z2) |} in
  hexToRgb digits = Some colour
  /\ hexToRgb (String "#" digits) = Some colour
  /\ unit_interval (RGB.red colour) = true
  /\ unit_interval (RGB.green colour) = true
  /\ unit_interval (RGB.blue colour) = true.
Proof.
  intros Hr1 Hr2 Hg1 Hg2 Hb1 Hb2. cbn zeta.
  destruct (parseInt16_pair r1 r2 x1 x2 Hr1 Hr2) as (Hr & Hru & Hra).
  destruct (parseInt16_pair g1 g2 y1 y2 Hg1 Hg2) as (Hg & Hgu & Hga).
  destruct (parseInt16_pair b1 b2 z1 z2 Hb1 Hb2) as (Hb & Hbu & Hba).
  assert (Hplain : hexToRgb (pair_string r1 r2 +++ pair_string g1 g2 +++ pair_string b1 b2)
                   = Some {| RGB.red := channel (16 * x1 + x2);
                             RGB.green := channel (16 * y1 + y2);
                             RGB.blue := channel (16 * z1 + z2) |}).
  { unfold hexToRgb. cbn [pair_string String.append].
    rewrite (strip_hash_digit r1 x1 _ Hr1).
    match goal with
    | |- context [substring ?s 0 2] =>
        change (substring s 0 2) with (pair_string r1 r2);
        change (substring s 2 4) with (pair_string g1 g2);
        change (substring s 4 6) with (pair_string b1 b2)
    end.
    rewrite Hr, Hg, Hb. unfold rgb. now rewrite Hra, Hga, Hba. }
  split; [exact Hplain|]. split; [|cbn [RGB.red RGB.green RGB.blue]; now repeat split].
  rewrite <- Hplain. unfold hexToRgb. cbn [pair_string String.append].
  now rewrite (strip_hash_digit r1 x1 _ Hr1).
Qed.

Lemma hexToRgb_rrggbb_witness :
  hexToRgb "#336699"
  = Some {| RGB.red := channel 51; RGB.green := channel 102; RGB.blue := channel 153 |}.
Proof.
  apply (hexToRgb_rrggbb "3" "3" "6" "6" "9" "9" 3 3 6 6 9 9); reflexivity.
Defined.

Lemma substring_beyond (s : string) (n : nat) :
  (String.length s <= n)%nat -> forall m, String.substring n m s = EmptyString.
Proof.
  revert n. induction s as [|c s IH]; intros n Hlen m.
  - destruct n, m; reflexivity.
  - destruct n as [|n]; [cbn in Hlen; lia|].
    cbn. apply IH. cbn in Hlen. lia.
Qed.

Lemma substring_short (s : string) (i j : Z) :
  (Z.of_nat (String.length s) <= i)%Z -> (i <= j)%Z ->
  substring s i j = EmptyString.
Proof.
  intros Hi Hj. unfold substring, clamp.
  apply substring_beyond. lia.
Qed.

(** X8. A colour string that is too short makes [hexToRgb] throw: with at
    most four characters after the hash sign nothing is left for the blue
    component, [parseInt] gives [NaN] for it, and [rgb] refuses a [NaN]
    component. So the three-digit shorthand is not expanded but is an
    error. *)
Theorem hexToRgb_short (hex : string) :
  (String.length (strip_hash hex) <= 4)%nat -> hexToRgb hex = None.
Proof.
  intros Hshort. unfold hexToRgb, rgb.
  rewrite (substring_short (strip_hash hex) 4 6) by lia.
  change (assertRange (PrimFloat.div (parseInt16 EmptyString) 255%float)) with false.
  now rewrite andb_false_r.
Qed.

Lemma hexToRgb_short_witness : hexToRgb "#fff" = None.
Proof. apply hexToRgb_short. cbn. lia. Defined.

(** The cases of the unit tests of [hexToRgb]. *)
Example hexToRgb_unit_tests :
  hexToRgb "#ff0000" = Some {| RGB.red := 1; RGB.green := 0; RGB.blue := 0 |}
  /\ hexToRgb "00ff00" = Some {| RGB.red := 0; RGB.green := 1; RGB.blue := 0 |}
  /\ hexToRgb "#000000" = Some {| RGB.red := 0; RGB.green := 0; RGB.blue := 0 |}
  /\ hexToRgb "#ffffff" = Some {| RGB.red := 1; RGB.green := 1; RGB.blue := 1 |}.
Proof. repeat split. Qed.

(** A sign is read as one, and the negative component is refused; so is
    a string that is no colour at all. *)
Example hexToRgb_refused :
  hexToRgb "#-f0000" = None /\ hexToRgb "red" = None /\ hexToRgb "" = None.
Proof. repeat split. Qed.

End ColorProperties.

(** ** Pages and calls of a generation run *)

Section PageLookup.
Import Js Pdf.

(** X9. The lower end of the page lookup. In a document with pages, a
    field whose logical page is at least 1 (at least 0 when there is a
    cover page) is given one of the pages of the document; below that the
    index is negative and the drawers are handed [undefined], as they are
    for every field when the document has no page. With a cover page, a
    field of logical page 0 lands on the cover page itself. *)
Theorem page_lookup_bounds (field : NormalizedFormField.t) (hasCoverPage : bool)
    (pages : list PDFPage) :
  let first := (1 - pageOffset hasCoverPage)%Z in
  let found := page_at pages (pageIndex field (pageOffset hasCoverPage) pages) in
  (pages <> [] -> (first <= NormalizedFormField.page field)%Z ->
     exists page, found = Some page /\ In page pages)
  /\ ((NormalizedFormField.page field < first)%Z -> found = None)
  /\ (pages = [] -> found = None)
  /\ (hasCoverPage = true -> NormalizedFormField.page field = 0%Z ->
      found = List.head pages).
Proof.
  cbn zeta. unfold page_at, pageIndex.
  set (wanted := (NormalizedFormField.page field - 1 + pageOffset hasCoverPage)%Z).
  repeat split.
  - intros Hpages Hfrom.
    assert (Hlen : (0 < List.length pages)%nat)
      by (destruct pages; [contradiction | cbn; lia]).
    destruct (Z.ltb_spec (Z.min wanted (Z.of_nat (List.length pages) - 1)) 0) as [Hneg|_];
      [unfold wanted in Hneg; lia|].
    destruct (nth_error pages (Z.to_nat (Z.min wanted (Z.of_nat (List.length pages) - 1))))
      as [page|] eqn:Hnth.
    + exists page. split; [reflexivity|]. eapply nth_error_In, Hnth.
    + apply nth_error_None in Hnth. lia.
  - intros Hbefore.
    destruct (Z.ltb_spec (Z.min wanted (Z.of_nat (List.length pages) - 1)) 0) as [_|Hpos];
      [reflexivity | unfold wanted in Hpos; lia].
  - intros ->. cbn [List.length].
    destruct (Z.ltb_spec (Z.min wanted (Z.of_nat 0 - 1)) 0) as [_|Hpos];
      [reflexivity | lia].
  - intros -> Hzero. unfold wanted. rewrite Hzero. cbn [pageOffset].
    destruct pages as [|p pages]; [reflexivity|].
    cbn [List.length List.head].
    replace (Z.min (0 - 1 + 1) (Z.of_nat (S (List.length pages)) - 1)) with 0%Z by lia.
    reflexivity.
Qed.

End PageLookup.

Section Traces.
Import Js Pdf.
Variable extern : list Call -> LayoutContext.t -> Call -> option LayoutContext.t.
Variable serialize : list Call -> list Byte.byte.
Variable clock : Footer.Clock.

Lemma emits_ret {A : Type} (P : Call -> Prop) (a : A) : emits P (ret a).
Proof. intros w. exists []. cbn. now rewrite app_nil_r. Qed.

Lemma emits_gets {A : Type} (P : Call -> Prop) (f : World -> A) : emits P (gets f).
Proof. intros w. exists []. cbn. now rewrite app_nil_r. Qed.

Lemma emits_warn (P : Call -> Prop) (msg : string) : emits P (console_warn msg).
Proof. intros w. exists []. cbn. now rewrite app_nil_r. Qed.

Lemma emits_external (P : Call -> Prop) (c : Call) :
  P c -> emits P (external extern c).
Proof.
  intros Hc w. exists [c]. unfold external.
  destruct (extern (trace w) (ctx w) c); cbn; (split; [reflexivity | now constructor]).
Qed.

Lemma emits_draw (P : Call -> Prop) op page field :
  P (leaf op page field) -> emits P (draw extern op page field).
Proof.
  intros Hc w. exists [leaf op page field]. unfold draw.
  destruct (extern (trace w) (ctx w) (leaf op page field)); cbn;
    (split; [reflexivity | now constructor]).
Qed.

Lemma emits_bind {A B : Type} (P : Call -> Prop) (m : M A) (k : A -> M B) :
  emits P m -> (forall a, emits P (k a)) -> emits P (bind m k).
Proof.
  intros Hm Hk w. unfold bind.
  destruct (Hm w) as (calls & Htrace & Hcalls).
  destruct (m w) as [a w1|w1]; cbn [world_of] in Htrace.
  - destruct (Hk a w1) as (calls1 & Htrace1 & Hcalls1).
    exists (calls ++ calls1). split.
    + rewrite Htrace1, Htrace. now rewrite app_assoc.
    + apply Forall_app. now split.
  - now exists calls.
Qed.

Lemma emits_switch_type (P : Call -> Prop) page field skipLabels :
  (forall op, (skipLabels = true -> op <> drawFieldLabel /\ op <> drawTextareaLabel) ->
     P (leaf op page field)) ->
  emits P (switch_type extern page field skipLabels).
Proof.
  intros HP. unfold switch_type.
  repeat match goal with
         | |- emits _ (if (_ =? _)%string then _ else _) =>
             destruct (_ =? _)%string
         end.
  all: repeat first
         [ apply emits_warn | apply emits_ret
         | apply emits_bind; [|intros ?]
         | apply emits_draw; apply HP; intros _; split; discriminate ].
  all: destruct skipLabels; cbn [negb];
    first [ apply emits_ret | apply emits_draw; apply HP; intros H; discriminate H ].
Qed.

Lemma emits_add_fields (P : Call -> Prop) fields baseline skipLabels offset :
  (forall op page field,
     (skipLabels = true -> op <> drawFieldLabel /\ op <> drawTextareaLabel) ->
     P (leaf op page field)) ->
  forall n, emits P (add_fields extern fields baseline skipLabels offset n).
Proof.
  intros HP. induction fields as [|field more IH]; intros n; cbn [add_fields].
  - apply emits_ret.
  - apply emits_bind; [|intros _; apply IH].
    unfold addFieldToDocument. apply emits_bind; [apply emits_gets|].
    intros pages. apply emits_switch_type. intros op. apply HP.
Qed.

(** X11. When the schema has content elements, no run of [generatePdf]
    -- whether it returns or throws -- draws the title or the label of a
    text field or of a text area: the content stands for them. When it has
    none, [drawSchemaContent] is never called. *)
Theorem content_replaces_title_and_labels (schema : ParsedFormSchema.t)
    (basePath : string) :
  let hasContent :=
    match ParsedFormSchema.content schema with
    | Some (_ :: _) => true
    | _ => false
    end in
  forall w, exists calls,
    trace (world_of (generatePdf extern serialize clock schema basePath w))
    = trace w ++ calls
    /\ Forall (fun c =>
                 if hasContent
                 then is_text_label c = false /\ is_drawTitle c = false
                 else is_drawSchemaContent c = false) calls.
Proof.
  cbn zeta. unfold generatePdf.
  destruct (ParsedFormSchema.content schema) as [[|e es]|].
  all: repeat first
         [ apply emits_bind; [|intros ?]
         | apply emits_ret | apply emits_gets
         | apply emits_external; repeat split
         | apply emits_add_fields;
           intros op page field Hop;
           first [ reflexivity
                 | destruct (Hop eq_refl) as [H1 H2]; destruct op; try contradiction;
                   now split ]
         | match goal with
           | |- emits _ (if ?b then _ else _) => destruct b
           | |- emits _ (match ?o with Some _ => _ | None => _ end) => destruct o
           end ].
Qed.


Lemma saves_last_bind {A B : Type} (m : M A) (k : A -> M B) :
  emits (fun c => is_save c = false) m -> (forall a, saves_last (k a)) ->
  saves_last (bind m k).
Proof.
  intros Hm Hk w. unfold bind.
  destruct (Hm w) as (calls & Htrace & Hcalls).
  destruct (m w) as [a w1|w1]; cbn [world_of] in Htrace.
  - destruct (Hk a w1) as (calls1 & Htrace1 & Hcalls1 & Hok).
    exists (calls ++ calls1). split; [|split].
    + rewrite Htrace1, Htrace. now rewrite app_assoc.
    + destruct calls1 as [|c calls1].
      * rewrite app_nil_r. clear - Hcalls.
        induction Hcalls as [|c calls Hc Hcalls IH]; [constructor|].
        destruct calls; [constructor | constructor; assumption].
      * rewrite removelast_app by discriminate. apply Forall_app. now split.
    + intros b w' Hrun. destruct (Hok b w' Hrun) as [before ->].
      exists (calls ++ before). now rewrite app_assoc.
  - exists calls. split; [exact Htrace|]. split; [|discriminate].
    clear - Hcalls.
    induction Hcalls as [|c calls Hc Hcalls IH]; [constructor|].
    destruct calls; [constructor | constructor; assumption].
Qed.

Lemma saves_last_save {A : Type} (k : unit -> M A) :
  (forall u w, trace (world_of (k u w)) = trace w) ->
  saves_last (bind (external extern save) k).
Proof.
  intros Hk w. exists [save]. unfold bind, external.
  destruct (extern (trace w) (ctx w) save) as [ctx'|].
  - rewrite Hk. cbn [trace]. split; [reflexivity|]. split; [constructor|].
    intros a w' _. now exists [].
  - cbn. split; [reflexivity|]. split; [constructor | discriminate].
Qed.

(** X12. [generatePdf] serializes the document at most once, and with
    its very last call: no call follows a [save], a run that returns has
    ended with it, and a run that throws earlier has not saved at all. *)
Theorem generatePdf_saves_last (schema : ParsedFormSchema.t) (basePath : string)
    (w : World) :
  let run := generatePdf extern serialize clock schema basePath w in
  exists calls,
    trace (world_of run) = trace w ++ calls
    /\ Forall (fun c => is_save c = false) (removelast calls)
    /\ (forall pdf w', run = Ok pdf w' -> exists before, calls = before ++ [save]).
Proof.
  cbn zeta. revert w.
  change (saves_last (generatePdf extern serialize clock schema basePath)).
  unfold generatePdf.
  repeat first
    [ apply saves_last_save; intros; reflexivity
    | apply saves_last_bind; [|intros ?] ].
  all: repeat first
         [ apply emits_bind; [|intros ?]
         | apply emits_ret | apply emits_gets
         | apply emits_external; reflexivity
         | apply emits_add_fields; intros; reflexivity
         | match goal with
           | |- emits _ (if ?b then _ else _) => destruct b
           | |- emits _ (match ?o with Some _ => _ | None => _ end) => destruct o
           end ].
Qed.


(** X13. Every call of a run of [generatePdf] fits the schema: the layout
    is initialised with the pages of the form (1 when the form gives none),
    plus one when there is a cover page; the cover page is drawn only when
    the schema has one, from the form and cover page of the schema, and a
    page break is made only then; header and footer start at page 1 after a
    cover page and at page 0 without; the footer drawn is the one resolved
    from the footer configuration and the form of the schema. *)
Theorem generatePdf_calls_fit (schema : ParsedFormSchema.t) (basePath : string)
    (w : World) :
  exists calls,
    trace (world_of (generatePdf extern serialize clock schema basePath w))
    = trace w ++ calls
    /\ Forall (call_fits clock schema basePath) calls.
Proof.
  revert w.
  change (emits (call_fits clock schema basePath)
            (generatePdf extern serialize clock schema basePath)).
  unfold generatePdf, call_fits.
  destruct (ParsedFormSchema.coverPage schema) as [cover|];
    destruct (FormMetadata.stylesheet (ParsedFormSchema.form schema)) as [[|c1 sheet]|];
    destruct (FormMetadata.author (ParsedFormSchema.form schema)) as [[|c2 author]|];
    cbn [truthy_opt truthy nullish].
  all: repeat first
         [ apply emits_bind; [|intros ?]
         | apply emits_ret | apply emits_gets
         | apply emits_external; cbn; repeat split; discriminate
         | apply emits_external; cbn; now repeat split
         | apply emits_add_fields; intros; exact I
         | match goal with
           | |- emits _ (if ?b then _ else _) => destruct b
           end ].
Qed.

Lemma creates_nil {A : Type} (m : M A) :
  emits (fun c => created [c] = []) m -> creates [] m.
Proof.
  intros Hm w. destruct (Hm w) as (calls & Htrace & Hcalls).
  exists calls. split; [exact Htrace|].
  assert (Hnone : created calls = []).
  { clear - Hcalls. induction Hcalls as [|c calls Hc _ IH]; [reflexivity|].
    unfold created in *. cbn [flat_map] in *. rewrite app_nil_r in Hc.
    now rewrite Hc, IH. }
  rewrite Hnone. split; [now exists [] | reflexivity].
Qed.

Lemma creates_bind {A B : Type} fields1 fields2 (m : M A) (k : A -> M B) :
  creates fields1 m -> (forall a, creates fields2 (k a)) ->
  creates (fields1 ++ fields2) (bind m k).
Proof.
  intros Hm Hk w. unfold bind.
  destruct (Hm w) as (calls & Htrace & [missing Hmissing] & Hok).
  destruct (m w) as [a w1|w1]; cbn [world_of] in Htrace.
  - specialize (Hok a w1 eq_refl).
    destruct (Hk a w1) as (calls1 & Htrace1 & [missing1 Hmissing1] & Hok1).
    exists (calls ++ calls1). unfold created in *. rewrite flat_map_app.
    split; [|split].
    + rewrite Htrace1, Htrace. symmetry. apply app_assoc.
    + exists missing1. rewrite Hok, Hmissing1. apply app_assoc.
    + intros b w' Hrun. now rewrite Hok, (Hok1 b w' Hrun).
  - exists calls. split; [exact Htrace|]. split; [|discriminate].
    exists (missing ++ fields2). rewrite Hmissing at 1. symmetry. apply app_assoc.
Qed.

Lemma creates_draw op page field :
  creates (if is_creator op then [(op, field_key field)] else [])
          (draw extern op page field).
Proof.
  intros w. exists [leaf op page field]. unfold draw.
  destruct (extern (trace w) (ctx w) (leaf op page field)); cbn [world_of trace];
    (split; [reflexivity|]); unfold created; cbn [flat_map]; rewrite app_nil_r;
    (split; [exists []; now rewrite app_nil_r | reflexivity]).
Qed.

Lemma creates_switch_type page field skipLabels :
  creates (wanted_fields [field]) (switch_type extern page field skipLabels).
Proof.
  unfold wanted_fields, creator, switch_type. cbn [flat_map]. rewrite app_nil_r.
  repeat match goal with
         | |- context [if (?a =? ?b)%string then _ else _] =>
             destruct (a =? b)%string
         end.
  all: try (apply creates_nil, emits_warn).
  all: match goal with
       | |- creates [?x] (bind (draw _ ?op _ _) _) =>
           change [x] with ((if is_creator op then [x] else []) ++ []);
           apply creates_bind; [apply creates_draw | intros _]
       end.
  all: try destruct skipLabels; cbn [negb];
    match goal with
    | |- creates [] (ret tt) => apply creates_nil, emits_ret
    | |- creates [] (draw _ ?op _ _) => exact (creates_draw op page field)
    end.
Qed.

Lemma field_key_adjust field baseline :
  field_key (adjustFieldPosition field baseline) = field_key field.
Proof. unfold adjustFieldPosition. now destruct (negb _). Qed.

Lemma wanted_fields_cons field more :
  wanted_fields (field :: more) = wanted_fields [field] ++ wanted_fields more.
Proof. unfold wanted_fields. cbn [flat_map]. now rewrite app_nil_r. Qed.

Lemma creates_add_fields fields baseline skipLabels offset :
  forall n,
    creates (wanted_fields fields)
            (add_fields extern fields baseline skipLabels offset n).
Proof.
  induction fields as [|field more IH]; intros n; cbn [add_fields].
  - apply creates_nil, emits_ret.
  - rewrite wanted_fields_cons.
    apply creates_bind; [|intros _; apply IH].
    unfold addFieldToDocument.
    change (wanted_fields [field]) with ([] ++ wanted_fields [field]).
    apply creates_bind; [apply creates_nil, emits_gets|]. intros pages.
    replace (wanted_fields [field])
      with (wanted_fields [adjustFieldPosition field baseline]).
    + apply creates_switch_type.
    + unfold wanted_fields. cbn [flat_map].
      now rewrite adjustFieldPosition_type, field_key_adjust.
Qed.

Lemma creates_bind_nil {A B : Type} fields (m : M A) (k : A -> M B) :
  emits (fun c => created [c] = []) m -> (forall a, creates fields (k a)) ->
  creates fields (bind m k).
Proof.
  intros Hm Hk. change fields with ([] ++ fields).
  apply creates_bind; [now apply creates_nil | exact Hk].
Qed.

(** The creations of a whole run. *)
Lemma generatePdf_creates (schema : ParsedFormSchema.t) (basePath : string) :
  creates (wanted_fields (ParsedFormSchema.fields schema))
          (generatePdf extern serialize clock schema basePath).
Proof.
  unfold generatePdf.
  repeat first
    [ match goal with
      | |- creates _ (bind (add_fields _ _ _ _ _ _) _) =>
          rewrite <- (app_nil_r (wanted_fields _));
          apply creates_bind; [apply creates_add_fields | intros ?]
      end
    | apply creates_bind_nil; [|intros ?]
    | apply creates_nil ].
  all: repeat first
         [ apply emits_bind; [|intros ?]
         | apply emits_ret | apply emits_gets
         | apply emits_external; reflexivity
         | match goal with
           | |- emits _ (if ?b then _ else _) => destruct b
           | |- emits _ (match ?o with Some _ => _ | None => _ end) => destruct o
           end ].
Qed.

(** X14. The form fields are created in the order of the schema, one for
    each field of a known type, with the field's type, logical page and
    attributes: a run of [generatePdf] that returns has created exactly
    them, and a run that throws has created the first ones of them. *)
Theorem generatePdf_creates_fields (schema : ParsedFormSchema.t) (basePath : string)
    (w : World) :
  let run := generatePdf extern serialize clock schema basePath w in
  let wanted := wanted_fields (ParsedFormSchema.fields schema) in
  exists calls,
    trace (world_of run) = trace w ++ calls
    /\ (exists missing, wanted = created calls ++ missing)
    /\ (forall pdf w', run = Ok pdf w' -> created calls = wanted).
Proof.
  cbn zeta. revert w.
  change (creates (wanted_fields (ParsedFormSchema.fields schema))
            (generatePdf extern serialize clock schema basePath)).
  apply generatePdf_creates.
Qed.

(** *** Pages fixed by the layout *)

Section FixedLayout.
Variable pages_of : Z -> list PDFPage.
Hypothesis extern_fixes : layout_fixed_by extern pages_of.

Lemma keeps_bind {A B : Type} P before (m : M A) middle (k : A -> M B) after :
  run_keeps P before m middle ->
  (forall a, run_keeps P (middle a) (k a) after) ->
  run_keeps P before (bind m k) after.
Proof.
  intros Hm Hk w Hw. unfold bind.
  destruct (Hm w Hw) as (calls & Htrace & Hcalls & Hafter).
  destruct (m w) as [a w1|w1]; cbn [world_of] in Htrace.
  - destruct (Hk a w1 (Hafter a w1 eq_refl)) as (calls1 & Htrace1 & Hcalls1 & Hafter1).
    exists (calls ++ calls1). split; [|split].
    + rewrite Htrace1, Htrace. symmetry. apply app_assoc.
    + apply Forall_app. now split.
    + exact Hafter1.
  - exists calls. split; [exact Htrace|]. split; [exact Hcalls | discriminate].
Qed.

Lemma keeps_ret {A : Type} P (before : World -> Prop) (a : A)
    (after : A -> World -> Prop) :
  (forall w, before w -> after a w) -> run_keeps P before (ret a) after.
Proof.
  intros Himp w Hw. exists []. cbn. rewrite app_nil_r.
  split; [reflexivity|]. split; [constructor|].
  intros b w' H. injection H as <- <-. now apply Himp.
Qed.

Lemma keeps_gets {A : Type} P (before : World -> Prop) (f : World -> A) :
  run_keeps P before (gets f) (fun a w => before w /\ a = f w).
Proof.
  intros w Hw. exists []. cbn. rewrite app_nil_r.
  split; [reflexivity|]. split; [constructor|].
  intros b w' H. injection H as <- <-. now split.
Qed.

Lemma keeps_ret_same {A : Type} P (before : World -> Prop) (a : A) :
  run_keeps P before (ret a) (fun _ => before).
Proof. apply keeps_ret. trivial. Qed.

Lemma keeps_gets_same {A : Type} P (before : World -> Prop) (f : World -> A) :
  run_keeps P before (gets f) (fun _ => before).
Proof.
  intros w Hw. exists []. cbn. rewrite app_nil_r.
  split; [reflexivity|]. split; [constructor|].
  intros b w' H. now injection H as <- <-.
Qed.

Lemma keeps_warn P (before : World -> Prop) msg :
  (forall w, before w -> before (warned w msg)) ->
  run_keeps P before (console_warn msg) (fun _ => before).
Proof.
  intros Himp w Hw. exists []. cbn. rewrite app_nil_r.
  split; [reflexivity|]. split; [constructor|].
  intros [] w' H. injection H as <-. exact (Himp w Hw).
Qed.

(** Before the layout is initialised nothing is known of the pages. *)
Lemma keeps_external_any P c :
  P c -> run_keeps P (fun _ => True) (external extern c) (fun _ _ => True).
Proof.
  intros Hc w _. exists [c]. unfold external.
  destruct (extern (trace w) (ctx w) c); cbn;
    (split; [reflexivity|]); (split; [now constructor|]); trivial.
Qed.

Lemma keeps_initializeLayout P totalPages :
  P (initializeLayout totalPages) ->
  run_keeps P (fun _ => True) (external extern (initializeLayout totalPages))
            (fun _ => on_pages (pages_of totalPages)).
Proof.
  intros Hc w _. exists [initializeLayout totalPages]. unfold external.
  destruct (extern (trace w) (ctx w) (initializeLayout totalPages)) as [layout|] eqn:Hext;
    cbn; (split; [reflexivity|]); (split; [now constructor|]); [|discriminate].
  intros [] w' H. injection H as <-. unfold on_pages. cbn [ctx].
  apply (extern_fixes _ _ _ _ Hext).
Qed.

Lemma keeps_external P pages c :
  P c -> (forall totalPages, c <> initializeLayout totalPages) ->
  run_keeps P (on_pages pages) (external extern c) (fun _ => on_pages pages).
Proof.
  intros Hc Hother w Hw. exists [c]. unfold external.
  destruct (extern (trace w) (ctx w) c) as [layout|] eqn:Hext;
    cbn; (split; [reflexivity|]); (split; [now constructor|]); [|discriminate].
  intros [] w' H. injection H as <-. unfold on_pages in *. cbn [ctx].
  rewrite (extern_fixes _ _ _ _ Hext).
  destruct c; try exact Hw. now contradiction (Hother totalPages).
Qed.

Lemma keeps_draw P pages op page field :
  P (leaf op page field) ->
  run_keeps P (on_pages pages) (draw extern op page field) (fun _ => on_pages pages).
Proof.
  intros Hc w Hw. exists [leaf op page field]. unfold draw.
  destruct (extern (trace w) (ctx w) (leaf op page field)) as [layout|];
    cbn; (split; [reflexivity|]); (split; [now constructor|]); [|discriminate].
  intros [] w' H. injection H as <-. exact Hw.
Qed.

Lemma keeps_switch_type pages offset field skipLabels :
  run_keeps (drawn_on (page_for pages offset)) (on_pages pages)
    (switch_type extern (page_for pages offset field) field skipLabels)
    (fun _ => on_pages pages).
Proof.
  unfold switch_type.
  repeat match goal with
         | |- context [if (?a =? ?b)%string then _ else _] =>
             destruct (a =? b)%string
         end.
  all: repeat first
         [ apply keeps_warn; intros w Hw; exact Hw
         | apply keeps_draw; reflexivity
         | apply keeps_ret; intros w Hw; exact Hw
         | eapply keeps_bind; [apply keeps_draw; reflexivity | intros ?; cbv beta]
         | match goal with
           | |- run_keeps _ _ (if negb ?b then _ else _) _ => destruct b; cbn [negb]
           end ].
Qed.

Lemma keeps_add_fields pages offset fields baseline skipLabels :
  forall n,
    run_keeps (drawn_on (page_for pages offset)) (on_pages pages)
      (add_fields extern fields baseline skipLabels offset n)
      (fun _ => on_pages pages).
Proof.
  induction fields as [|field more IH]; intros n; cbn [add_fields].
  - apply keeps_ret. intros w Hw. exact Hw.
  - eapply keeps_bind; [|intros ?; apply IH].
    intros w Hw. unfold addFieldToDocument, bind, gets.
    unfold on_pages in Hw. rewrite Hw.
    apply (keeps_switch_type pages offset (adjustFieldPosition field baseline) skipLabels w).
    exact Hw.
Qed.

Ltac keeping :=
  lazymatch goal with
  | |- run_keeps _ _ (bind _ _) _ =>
      eapply keeps_bind; [keeping | intros ?; cbv beta; keeping]
  | |- run_keeps _ _ (if ?b then _ else _) _ => destruct b; keeping
  | |- run_keeps _ _ (external _ (initializeLayout _)) _ =>
      apply keeps_initializeLayout; exact I
  | |- run_keeps _ (fun _ => True) (external _ _) _ =>
      apply keeps_external_any; exact I
  | |- run_keeps _ _ (external _ _) _ =>
      apply keeps_external; [exact I | discriminate]
  | |- run_keeps _ _ (gets ctx) _ => apply keeps_gets
  | |- run_keeps _ _ (gets _) _ => apply keeps_gets_same
  | |- run_keeps _ _ (add_fields _ _ _ _ _ _) _ => apply keeps_add_fields
  | |- run_keeps _ _ (ret tt) _ => apply keeps_ret_same
  | |- _ => idtac
  end.

Lemma in_wanted_fields fields field op :
  In field fields -> creator (NormalizedFormField.type field) = Some op ->
  In (op, field_key field) (wanted_fields fields).
Proof.
  intros Hin Hop. unfold wanted_fields. apply in_flat_map.
  exists field. split; [exact Hin|]. rewrite Hop. now left.
Qed.

Lemma in_created calls op key :
  In (op, key) (created calls) ->
  exists page drawn, In (leaf op page drawn) calls /\ field_key drawn = key.
Proof.
  unfold created. intros Hin. apply in_flat_map in Hin as (c & Hc & Hin).
  destruct c; try contradiction.
  destruct (is_creator op0); [|contradiction].
  destruct Hin as [Heq|[]]. injection Heq as -> <-.
  now exists page, field.
Qed.

Lemma generatePdf_keeps (schema : ParsedFormSchema.t) (basePath : string) :
  let form := ParsedFormSchema.form schema in
  let pageCount := nullish (FormMetadata.pages form) 1%Z in
  let offset :=
    match ParsedFormSchema.coverPage schema with Some _ => 1%Z | None => 0%Z end in
  let pages :=
    pages_of (match ParsedFormSchema.coverPage schema with
              | Some _ => pageCount + 1
              | None => pageCount
              end)%Z in
  run_keeps (drawn_on (page_for pages offset)) (fun _ => True)
    (generatePdf extern serialize clock schema basePath)
    (fun pdf _ => GeneratedPdf.pageCount pdf = Z.of_nat (List.length pages)).
Proof.
  cbn zeta. unfold generatePdf.
  destruct (ParsedFormSchema.coverPage schema) as [cover|]; cbn [pageOffset].
  all: keeping.
  all: apply keeps_ret; intros w [Hpages Hctx]; subst;
    cbn [GeneratedPdf.pageCount]; unfold on_pages in Hpages; now rewrite Hpages.
Qed.


End FixedLayout.

End Traces.

Section FixedLayoutRuns.
Import Js Pdf.

Lemma extern_accepting_fixes : layout_fixed_by extern_accepting numbered_pages.
Proof.
  intros history layout c layout' H. destruct c; cbn in H; now injection H as <-.
Qed.


End FixedLayoutRuns.

(** ** Escaping, once and twice *)

Section EscapeProperties.
Import Js Html.

Lemma escapeHtml_nil_inv (text : string) :
  escapeHtml text = EmptyString -> text = EmptyString.
Proof.
  destruct text as [|c text]; [reflexivity|].
  cbn [escapeHtml]. unfold escape_char.
  repeat match goal with |- context [if ?b then _ else _] => destruct b end;
    discriminate.
Qed.

(** X15. [escapeHtml] loses nothing: two different texts never have the
    same escaped form. *)
Theorem escapeHtml_injective (s t : string) :
  escapeHtml s = escapeHtml t -> s = t.
Proof.
  revert t. induction s as [|a s IH]; intros t Heq.
  - symmetry. apply escapeHtml_nil_inv. now symmetry.
  - destruct t as [|b t]; [now apply escapeHtml_nil_inv in Heq|].
    cbn [escapeHtml] in Heq. unfold escape_char in Heq.
    destruct (Ascii.eqb_spec a "&"); destruct (Ascii.eqb_spec b "&");
      try (subst; cbn in Heq; injection Heq; intros; subst;
           solve [congruence | f_equal; now apply IH]).
    all: destruct (Ascii.eqb_spec a "<"); destruct (Ascii.eqb_spec b "<");
      try (subst; cbn in Heq; injection Heq; intros; subst;
           solve [congruence | f_equal; now apply IH]).
    all: destruct (Ascii.eqb_spec a ">"); destruct (Ascii.eqb_spec b ">");
      try (subst; cbn in Heq; injection Heq; intros; subst;
           solve [congruence | f_equal; now apply IH]).
    all: destruct (Ascii.eqb_spec a "034"); destruct (Ascii.eqb_spec b "034");
      try (subst; cbn in Heq; injection Heq; intros; subst;
           solve [congruence | f_equal; now apply IH]).
    all: destruct (Ascii.eqb_spec a "'"); destruct (Ascii.eqb_spec b "'");
      try (subst; cbn in Heq; injection Heq; intros; subst;
           solve [congruence | f_equal; now apply IH]).
Qed.

Lemma escapeHtml_injective_witness :
  "a & b" = "a & b".
Proof. apply escapeHtml_injective. reflexivity. Defined.

Lemma escapeHtml_length (text : string) :
  (String.length text <= String.length (escapeHtml text))%nat
  /\ (has_special text = true ->
      (String.length text < String.length (escapeHtml text))%nat).
Proof.
  assert (Happ : forall a b, String.length (a +++ b)
                             = (String.length a + String.length b)%nat).
  { induction a as [|c a IHa]; intros b; cbn; [reflexivity | now rewrite IHa]. }
  induction text as [|c text [IHle IHlt]]; [split; [reflexivity | discriminate]|].
  cbn [escapeHtml has_special]. rewrite Happ. unfold is_special, escape_char.
  destruct (Ascii.eqb c "&"); [cbn; split; intros; lia|].
  destruct (Ascii.eqb c "<"); [cbn; split; intros; lia|].
  destruct (Ascii.eqb c ">"); [cbn; split; intros; lia|].
  destruct (Ascii.eqb c "034"); [cbn; split; intros; lia|].
  destruct (Ascii.eqb c "'"); [cbn; split; intros; lia|].
  cbn. split; [lia|]. intros H. apply IHlt in H. lia.
Qed.

Lemma escapeHtml_plain (text : string) :
  has_special text = false -> escapeHtml text = text.
Proof.
  induction text as [|c text IH]; [reflexivity|].
  cbn [has_special escapeHtml]. intros H. apply orb_false_iff in H as [Hc Htext].
  rewrite (IH Htext). unfold is_special in Hc. unfold escape_char.
  destruct (Ascii.eqb c "&"); [discriminate Hc|].
  destruct (Ascii.eqb c "<"); [discriminate Hc|].
  destruct (Ascii.eqb c ">"); [discriminate Hc|].
  destruct (Ascii.eqb c "034"); [discriminate Hc|].
  destruct (Ascii.eqb c "'"); [discriminate Hc|].
  reflexivity.
Qed.

Lemma has_special_escapeHtml (text : string) :
  has_special (escapeHtml text) = has_special text.
Proof.
  assert (Happ : forall a b, has_special (a +++ b) = has_special a || has_special b).
  { induction a as [|c a IHa]; intros b; cbn; [reflexivity | now rewrite IHa, orb_assoc]. }
  induction text as [|c text IH]; [reflexivity|].
  cbn [escapeHtml has_special]. rewrite Happ, IH. f_equal.
  unfold escape_char, is_special.
  destruct (Ascii.eqb c "&") eqn:H1; [reflexivity|].
  destruct (Ascii.eqb c "<") eqn:H2; [reflexivity|].
  destruct (Ascii.eqb c ">") eqn:H3; [reflexivity|].
  destruct (Ascii.eqb c "034") eqn:H4; [reflexivity|].
  destruct (Ascii.eqb c "'") eqn:H5; [reflexivity|].
  cbn [has_special]. unfold is_special. now rewrite H1, H2, H3, H4, H5.
Qed.

(** X16. [escapeHtml] leaves a text as it is exactly when none of the
    five characters occurs in it; for any other text escaping twice differs
    from escaping once. *)
Theorem escapeHtml_twice (text : string) :
  (escapeHtml text = text <-> has_special text = false)
  /\ (escapeHtml (escapeHtml text) = escapeHtml text <-> has_special text = false).
Proof.
  assert (Hfix : forall s, escapeHtml s = s <-> has_special s = false).
  { intros s. split; [|apply escapeHtml_plain].
    intros Heq. destruct (has_special s) eqn:Hs; [|reflexivity].
    destruct (escapeHtml_length s) as [_ Hlt]. specialize (Hlt Hs).
    rewrite Heq in Hlt. lia. }
  split; [apply Hfix|].
  rewrite (Hfix (escapeHtml text)). now rewrite has_special_escapeHtml.
Qed.

Lemma present_prune (entries : list (string * option string)) :
  present (map (fun e => (fst e, prune (snd e))) entries) = present entries.
Proof.
  induction entries as [|[label [[|c value]|]] entries IH]; cbn; congruence.
Qed.

Lemma filter_Boolean_prune (xs : list (option string)) :
  filter_Boolean (map prune xs) = filter_Boolean xs.
Proof.
  induction xs as [|[[|c value]|] xs IH]; cbn; congruence.
Qed.

(** X17. On the HTML cover page an optional field that is the empty
    string, and a revision history without entries, are rendered exactly
    like a missing one. *)
Theorem renderCoverPageHtml_empty_is_absent (formMeta : FormMetadata.t)
    (coverPage : CoverPage.t) :
  renderCoverPageHtml (prune_form formMeta) (prune_cover coverPage)
  = renderCoverPageHtml formMeta coverPage.
Proof.
  assert (HcoverImage : coverImageStyle (prune_cover coverPage) = coverImageStyle coverPage).
  { unfold coverImageStyle, prune_cover. cbn [CoverPage.coverImage].
    now destruct (CoverPage.coverImage coverPage) as [[|c s]|]. }
  assert (Hwatermark : watermarkHtml (prune_cover coverPage) = watermarkHtml coverPage).
  { unfold watermarkHtml, prune_cover. cbn [CoverPage.watermark].
    now destruct (CoverPage.watermark coverPage) as [[|c s]|]. }
  assert (Hlogo : logoHtml (prune_cover coverPage) = logoHtml coverPage).
  { unfold logoHtml, prune_cover. cbn [CoverPage.logo].
    now destruct (CoverPage.logo coverPage) as [[|c s]|]. }
  assert (Hsubtitle : subtitleHtml (prune_cover coverPage) = subtitleHtml coverPage).
  { unfold subtitleHtml, prune_cover. cbn [CoverPage.subtitle].
    now destruct (CoverPage.subtitle coverPage) as [[|c s]|]. }
  assert (Hmeta : metaHtml (prune_form formMeta) (prune_cover coverPage)
                  = metaHtml formMeta coverPage).
  { unfold metaHtml, metaRows.
    change (metaFields (prune_form formMeta) (prune_cover coverPage))
      with (map (fun e => (fst e, prune (snd e))) (metaFields formMeta coverPage)).
    now rewrite present_prune. }
  assert (Hrevision : revisionHtml (prune_cover coverPage) = revisionHtml coverPage).
  { unfold revisionHtml, prune_cover. cbn [CoverPage.revisionHistory].
    now destruct (CoverPage.revisionHistory coverPage) as [[|e es]|]. }
  assert (Hlegal : legalHtml (prune_cover coverPage) = legalHtml coverPage).
  { unfold legalHtml, legalFields.
    change [CoverPage.copyright (prune_cover coverPage);
            CoverPage.disclaimer (prune_cover coverPage);
            CoverPage.distributionStatement (prune_cover coverPage)]
      with (map prune [CoverPage.copyright coverPage; CoverPage.disclaimer coverPage;
                       CoverPage.distributionStatement coverPage]).
    now rewrite filter_Boolean_prune. }
  unfold renderCoverPageHtml.
  rewrite HcoverImage, Hwatermark, Hlogo, Hsubtitle, Hmeta, Hrevision, Hlegal.
  reflexivity.
Qed.

Lemma join_rows_empty {A : Type} (row : A -> string) (rows : list A) :
  (forall a, truthy (row a) = true) ->
  (truthy (join nl (map row rows)) = false <-> rows = []).
Proof.
  intros Hrow. destruct rows as [|a rows]; [now split|].
  split; [|discriminate]. cbn [map join].
  specialize (Hrow a). destruct (row a) as [|c r]; [discriminate Hrow|].
  destruct (map row rows); discriminate.
Qed.

(** X20. The three optional blocks of the HTML cover page are left out
    exactly when they would be empty: the metadata table when each of the
    fourteen values is missing or empty, the revision history when there is
    none or it has no entry, the legal block when copyright, disclaimer and
    distribution statement are all missing or empty. *)
Theorem cover_blocks_omitted_when_empty (formMeta : FormMetadata.t)
    (coverPage : CoverPage.t) :
  (metaHtml formMeta coverPage = EmptyString
   <-> Forall (fun entry => truthy_opt (snd entry) = false)
              (metaFields formMeta coverPage))
  /\ (revisionHtml coverPage = EmptyString
      <-> CoverPage.revisionHistory coverPage = None
          \/ CoverPage.revisionHistory coverPage = Some [])
  /\ (legalHtml coverPage = EmptyString
      <-> truthy_opt (CoverPage.copyright coverPage) = false
          /\ truthy_opt (CoverPage.disclaimer coverPage) = false
          /\ truthy_opt (CoverPage.distributionStatement coverPage) = false).
Proof.
  assert (Hpresent : forall entries,
            present entries = []
            <-> Forall (fun entry => truthy_opt (snd entry) = false) entries).
  { induction entries as [|[label [[|c value]|]] entries IH]; cbn [present truthy].
    - split; [constructor | reflexivity].
    - rewrite IH. split; [now constructor | now inversion 1].
    - split; [discriminate | inversion 1; discriminate].
    - rewrite IH. split; [now constructor | now inversion 1]. }
  split; [|split].
  - rewrite <- Hpresent. unfold metaHtml, metaRows.
    rewrite <- (join_rows_empty meta_row) by (now intros [label value]).
    destruct (truthy (join nl (map meta_row (present (metaFields formMeta coverPage)))));
      split; (discriminate || reflexivity).
  - unfold revisionHtml.
    destruct (CoverPage.revisionHistory coverPage) as [[|e es]|].
    + split; [now right | reflexivity].
    + split; [discriminate | intros [H|H]; discriminate H].
    + split; [now left | reflexivity].
  - unfold legalHtml, legalFields. cbn [filter_Boolean].
    destruct (CoverPage.copyright coverPage) as [[|c1 s1]|];
      destruct (CoverPage.disclaimer coverPage) as [[|c2 s2]|];
      destruct (CoverPage.distributionStatement coverPage) as [[|c3 s3]|];
      cbn [truthy truthy_opt];
      (split; [ first [discriminate | now repeat split]
              | first [reflexivity | intros (H1 & H2 & H3); discriminate] ]).
Qed.

End EscapeProperties.

(** ** Social icons *)

Section IconProperties.
Import Js Icons.
Variable resolve : string -> string -> string.
Variable existsSync : string -> bool.
Variable readFile : string -> option (list Byte.byte).
Variable base64 : list Byte.byte -> string.

Lemma resolveIconPath_spec (platform path : string) :
  resolveIconPath resolve existsSync platform = Some path ->
  In platform ICON_NAMES
  /\ existsSync path = true
  /\ (path = resolve "../assets/icons" (platform +++ ".png")
      \/ existsSync (resolve "../assets/icons" (platform +++ ".png")) = false
         /\ path = resolve "../../src/assets/icons" (platform +++ ".png")).
Proof.
  unfold resolveIconPath, includes.
  destruct (existsb (String.eqb platform) ICON_NAMES) eqn:Hknown; [|discriminate].
  cbn [negb possiblePaths find]. intros Hfind. split.
  - apply existsb_exists in Hknown as (name & Hin & Heq).
    apply String.eqb_eq in Heq. now subst.
  - destruct (existsSync (resolve "../assets/icons" (platform +++ ".png"))) eqn:Hinstalled.
    + injection Hfind as <-. split; [exact Hinstalled | now left].
    + destruct (existsSync (resolve "../../src/assets/icons" (platform +++ ".png")))
        eqn:Hdev; [|discriminate].
      injection Hfind as <-. split; [exact Hdev | now right].
Qed.

(** X18. The icon loaders read known files only. A result comes from the
    file of one of the six platforms, which the file system said exists: the
    installed copy, or the development copy when there is no installed one.
    For any other platform name both loaders return [null], whatever the
    file system holds. *)
Theorem loadSocialIcon_known_files (platform : string) :
  let installed := resolve "../assets/icons" (platform +++ ".png") in
  let dev := resolve "../../src/assets/icons" (platform +++ ".png") in
  let read_from (path : string) (bytes : list Byte.byte) :=
    In platform ICON_NAMES /\ existsSync path = true /\ readFile path = Some bytes
    /\ (path = installed \/ existsSync installed = false /\ path = dev) in
  (forall bytes,
     loadSocialIconBytes resolve existsSync readFile platform = Some bytes ->
     exists path, read_from path bytes)
  /\ (forall uri,
        loadSocialIconBase64 resolve existsSync readFile base64 platform = Some uri ->
        exists path bytes,
          read_from path bytes /\ uri = "data:image/png;base64," +++ base64 bytes)
  /\ (~ In platform ICON_NAMES ->
      loadSocialIconBytes resolve existsSync readFile platform = None
      /\ loadSocialIconBase64 resolve existsSync readFile base64 platform = None).
Proof.
  cbn zeta. unfold loadSocialIconBytes, loadSocialIconBase64. repeat split.
  - intros bytes.
    destruct (resolveIconPath resolve existsSync platform) as [path|] eqn:Hpath;
      [|discriminate].
    destruct (resolveIconPath_spec platform path Hpath) as (Hin & Hexists & Hwhich).
    destruct (negb (truthy path)); [discriminate|].
    destruct (readFile path) as [buf|] eqn:Hread; [|discriminate].
    intros H. injection H as <-. exists path. repeat split; assumption.
  - intros uri.
    destruct (resolveIconPath resolve existsSync platform) as [path|] eqn:Hpath;
      [|discriminate].
    destruct (resolveIconPath_spec platform path Hpath) as (Hin & Hexists & Hwhich).
    destruct (negb (truthy path)); [discriminate|].
    destruct (readFile path) as [buf|] eqn:Hread; [|discriminate].
    intros H. injection H as <-. exists path, buf. repeat split; assumption.
  - destruct (resolveIconPath resolve existsSync platform) as [path|] eqn:Hpath;
      [|reflexivity].
    now destruct (resolveIconPath_spec platform path Hpath) as (Hin & _).
  - destruct (resolveIconPath resolve existsSync platform) as [path|] eqn:Hpath;
      [|reflexivity].
    now destruct (resolveIconPath_spec platform path Hpath) as (Hin & _).
Qed.

End IconProperties.

Section IconRuns.
Import Icons.

Example loadSocialIconBytes_github :
  loadSocialIconBytes resolve_under_app dev_icons dev_icon_bytes "github"
  = Some [Byte.x89; Byte.x50; Byte.x4e; Byte.x47]
  /\ loadSocialIconBytes resolve_under_app dev_icons dev_icon_bytes "youtube" = None
  /\ loadSocialIconBytes resolve_under_app (fun _ => true) (fun _ => Some [])
       "../../../../etc/passwd" = None.
Proof. repeat split. Qed.

End IconRuns.

(** ** Cells of the revision history *)

Section CellText.
Import JsText PdfCover.

Lemma length_append (a b : string) :
  String.length (a +++ b) = (String.length a + String.length b)%nat.
Proof. induction a as [|c a IH]; cbn; [reflexivity | now rewrite IH]. Qed.

Lemma length_substring_0 (s : string) (n : nat) :
  String.length (String.substring 0 n s) = Nat.min n (String.length s).
Proof.
  revert n. induction s as [|c s IH]; intros [|n]; cbn; try reflexivity.
  now rewrite IH.
Qed.

Lemma prefix_substring_0 (s : string) (n : nat) :
  String.prefix (String.substring 0 n s) s = true.
Proof.
  revert n. induction s as [|c s IH]; intros [|n]; cbn; try reflexivity.
  destruct (ascii_dec c c) as [_|Hne]; [apply IH | now contradiction Hne].
Qed.

Lemma substring_from_0 (s : string) (n : Z) :
  substring s 0 n = String.substring 0 (clamp (String.length s) n) s.
Proof.
  unfold substring. replace (clamp (String.length s) 0) with 0%nat by (unfold clamp; lia).
  now rewrite Nat.min_0_l, Nat.max_0_l, Nat.sub_0_r.
Qed.

(** X19. The text of a cell of the revision table: a value of at most
    [maxChars] characters is drawn as it is; a longer one is cut to its
    first [maxChars - 2] characters (none when this is negative) followed
    by two dots. The cell text has at most [maxChars] characters when
    [maxChars] is at least 2; below that a cut value is drawn as the two
    dots alone. *)
Theorem displayText_fits (value : string) (maxChars : Z) :
  let text := displayText value maxChars in
  let length := Z.of_nat (String.length value) in
  ((length <= maxChars)%Z -> text = value)
  /\ ((maxChars < length)%Z ->
      exists kept, text = kept +++ ".." /\ String.prefix kept value = true
                   /\ Z.of_nat (String.length kept) = Z.max 0 (maxChars - 2))
  /\ ((2 <= maxChars)%Z -> (Z.of_nat (String.length text) <= maxChars)%Z)
  /\ ((maxChars < 2)%Z -> (maxChars < length)%Z -> text = "..").
Proof.
  cbn zeta. unfold displayText. repeat split.
  - intros Hfits. destruct (Z.ltb_spec maxChars (Z.of_nat (String.length value)));
      [lia | reflexivity].
  - intros Hlong. destruct (Z.ltb_spec maxChars (Z.of_nat (String.length value)));
      [|lia].
    exists (substring value 0 (maxChars - 2)). split; [reflexivity|].
    rewrite substring_from_0. split; [apply prefix_substring_0|].
    rewrite length_substring_0. unfold clamp. lia.
  - intros Hroom. destruct (Z.ltb_spec maxChars (Z.of_nat (String.length value)));
      [|assumption].
    rewrite length_append, substring_from_0, length_substring_0. unfold clamp.
    cbn [String.length]. lia.
  - intros Hnarrow Hlong.
    destruct (Z.ltb_spec maxChars (Z.of_nat (String.length value))); [|lia].
    rewrite substring_from_0.
    replace (clamp (String.length value) (maxChars - 2)) with 0%nat
      by (unfold clamp; lia).
    now destruct value.
Qed.

End CellText.
